(** * Rocket simulation: resources, subsystems, event queue and manager

    A shallow embedding of [include/defs.h], [src/system.c], [src/event.c],
    the manager translation unit ([manager_run] and friends) and the scenario
    of [src/main.c].

    Memory is explicit.  A [Resource *] is [option nat] ([None] is [NULL]), a
    [System *] is a [nat]; both index finite maps that play the role of the
    heap.  Every C function that goes through a pointer is a computation in
    a state-and-fault monad over [World]; dereferencing [NULL] or a pointer
    that is not allocated is a fault, not a value.

    A C [int] is a [Z] and every [+], [-], [*] of the source goes through
    [int_wrap] (two's complement, 32 bits).

    Each function is one atomic step: the semaphores of the source serialise
    the critical sections, and the embedding runs a whole call without
    interleaving.  [usleep] is kept as a log of the requested delays. *)

From stdpp Require Import gmap strings list sorting.
From Stdlib Require Import ZArith Lia.

Local Open Scope Z_scope.

(** ** C [int] arithmetic *)

Module CInt.

Definition int_min : Z := - 2 ^ 31.
Definition int_max : Z := 2 ^ 31 - 1.

Definition is_int (z : Z) : Prop := int_min <= z <= int_max.

Definition int_wrap (z : Z) : Z := (z + 2 ^ 31) mod 2 ^ 32 - 2 ^ 31.

Definition add (a b : Z) : Z := int_wrap (a + b).
Definition sub (a b : Z) : Z := int_wrap (a - b).
Definition mul (a b : Z) : Z := int_wrap (a * b).
(* C division truncates toward zero *)
Definition div (a b : Z) : Z := int_wrap (Z.quot a b).

End CInt.

(** ** Constants of defs.h *)

Definition TERMINATE : Z := 0.
Definition DISABLED : Z := 1.
Definition SLOW : Z := 2.
Definition STANDARD : Z := 3.
Definition FAST : Z := 4.

Definition STATUS_OK : Z := -1.
Definition STATUS_EMPTY : Z := 0.
Definition STATUS_LOW : Z := 1.
Definition STATUS_INSUFFICIENT : Z := 2.
Definition STATUS_CAPACITY : Z := 3.
Definition STATUS_PRODUCED : Z := 10.

Definition MANAGER_WAIT_TIME : Z := 5.
Definition SYSTEM_WAIT_TIME : Z := 20.

Definition PRIORITY_HIGH : Z := 3.
Definition PRIORITY_MED : Z := 2.
Definition PRIORITY_LOW : Z := 1.

(** ** Data model of defs.h *)

(** [Resource *]: [None] is [NULL]. *)
Abbreviation res_ptr := (option nat).
(** [System *]; the source never holds a null one. *)
Abbreviation sys_ptr := nat.

(** [struct Resource]; the [name] is the text before the terminator, the
    semaphore is not data. *)
Record Resource : Type := mkResource {
  res_name : string;
  res_amount : Z;
  res_max_capacity : Z
}.

Record ResourceAmount : Type := mkResourceAmount {
  ra_resource : res_ptr;
  ra_amount : Z
}.

(** [struct System]; the [event_queue] field points at the one queue of the
    manager in every system the program builds, so the queue lives in
    [World]. *)
Record System : Type := mkSystem {
  sys_name : string;
  consumed : ResourceAmount;
  produced : ResourceAmount;
  amount_stored : Z;
  processing_time : Z;
  status : Z
}.

Record Event : Type := mkEvent {
  ev_system : sys_ptr;
  ev_resource : res_ptr;
  ev_status : Z;
  ev_priority : Z;
  ev_amount : Z
}.

(** [struct EventQueue]: the chain of [EventNode]s from [head], and [size]. *)
Record EventQueue : Type := mkEventQueue {
  head : list Event;
  size : Z
}.

(** The whole memory of the program: the two heaps, the fields of
    [struct Manager], and the log of [usleep] arguments (latest first). *)
Record World : Type := mkWorld {
  systems : gmap nat System;
  resources : gmap nat Resource;
  simulation_running : Z;
  system_array : list sys_ptr;
  resource_array : list nat;
  event_queue : EventQueue;
  sleeps : list Z
}.

#[global] Instance Resource_eq_dec : EqDecision Resource.
Proof. solve_decision. Defined.
#[global] Instance ResourceAmount_eq_dec : EqDecision ResourceAmount.
Proof. solve_decision. Defined.
#[global] Instance System_eq_dec : EqDecision System.
Proof. solve_decision. Defined.
#[global] Instance Event_eq_dec : EqDecision Event.
Proof. solve_decision. Defined.

(** Field updates. *)

Definition set_res_amount (v : Z) (r : Resource) : Resource :=
  mkResource (res_name r) v (res_max_capacity r).

Definition set_amount_stored (v : Z) (s : System) : System :=
  mkSystem (sys_name s) (consumed s) (produced s) v (processing_time s) (status s).

Definition set_status (v : Z) (s : System) : System :=
  mkSystem (sys_name s) (consumed s) (produced s) (amount_stored s)
           (processing_time s) v.

Definition set_systems (m : gmap nat System) (w : World) : World :=
  mkWorld m (resources w) (simulation_running w) (system_array w)
          (resource_array w) (event_queue w) (sleeps w).

Definition set_resources (m : gmap nat Resource) (w : World) : World :=
  mkWorld (systems w) m (simulation_running w) (system_array w)
          (resource_array w) (event_queue w) (sleeps w).

Definition set_simulation_running (v : Z) (w : World) : World :=
  mkWorld (systems w) (resources w) v (system_array w)
          (resource_array w) (event_queue w) (sleeps w).

Definition set_event_queue (q : EventQueue) (w : World) : World :=
  mkWorld (systems w) (resources w) (simulation_running w) (system_array w)
          (resource_array w) q (sleeps w).

Definition set_sleeps (l : list Z) (w : World) : World :=
  mkWorld (systems w) (resources w) (simulation_running w) (system_array w)
          (resource_array w) (event_queue w) l.

(** ** The state-and-fault monad *)

Inductive fault : Type :=
| NullDeref      (* a [Resource *] that is [NULL] was dereferenced *)
| BadPointer     (* a pointer that is not allocated was dereferenced *)
| OutOfFuel.     (* a loop used up its iteration budget *)

Inductive result (A : Type) : Type :=
| Ok (a : A)
| Err (e : fault).
Arguments Ok {A} a.
Arguments Err {A} e.

Definition M (A : Type) : Type := World -> result (A * World).

Definition ret {A} (a : A) : M A := fun w => Ok (a, w).

Definition bind {A B} (m : M A) (k : A -> M B) : M B :=
  fun w => match m w with
           | Ok (a, w') => k a w'
           | Err e => Err e
           end.

Notation "'let!' x ':=' m 'in' k" := (bind m (fun x => k))
  (at level 10, x name, m at level 100, k at level 200, only parsing).
Notation "m '>>' k" := (bind m (fun _ => k))
  (at level 90, right associativity, only parsing).

(** [*p] for a [System *]. *)
Definition load_sys (p : sys_ptr) : M System :=
  fun w => match systems w !! p with
           | Some s => Ok (s, w)
           | None => Err BadPointer
           end.

(** Write to the fields of [*p]; [p] has been read before in every use. *)
Definition store_sys (p : sys_ptr) (s : System) : M unit :=
  fun w => match systems w !! p with
           | Some _ => Ok (tt, set_systems (<[p := s]> (systems w)) w)
           | None => Err BadPointer
           end.

(** [*r] for a [Resource *]. *)
Definition load_res (r : res_ptr) : M Resource :=
  fun w => match r with
           | None => Err NullDeref
           | Some a => match resources w !! a with
                       | Some x => Ok (x, w)
                       | None => Err BadPointer
                       end
           end.

Definition store_res (r : res_ptr) (x : Resource) : M unit :=
  fun w => match r with
           | None => Err NullDeref
           | Some a => match resources w !! a with
                       | Some _ => Ok (tt, set_resources (<[a := x]> (resources w)) w)
                       | None => Err BadPointer
                       end
           end.

Definition usleep (us : Z) : M unit :=
  fun w => Ok (tt, set_sleeps (us :: sleeps w) w).

Definition get_queue : M EventQueue := fun w => Ok (event_queue w, w).
Definition put_queue (q : EventQueue) : M unit :=
  fun w => Ok (tt, set_event_queue q w).

Definition get_system_array : M (list sys_ptr) := fun w => Ok (system_array w, w).
Definition get_resource_array : M (list nat) := fun w => Ok (resource_array w, w).
Definition put_simulation_running (v : Z) : M unit :=
  fun w => Ok (tt, set_simulation_running v w).
Definition fail {A} (e : fault) : M A := fun _ => Err e.

(** ** event.c *)

Definition event_init (system : sys_ptr) (resource : res_ptr)
    (status priority amount : Z) : Event :=
  mkEvent system resource status priority amount.

Definition event_queue_init : EventQueue := mkEventQueue [] 0.

(** The [while] of [event_queue_push]: [nxt] is the chain at
    [current->next]; the result is that chain with the new node linked in
    where the scan stops. *)
Fixpoint push_scan (nxt : list Event) (event : Event) : list Event :=
  match nxt with
  | [] => [event]
  | n :: rest =>
      if ev_priority event <=? ev_priority n
      then n :: push_scan rest event
      else event :: nxt
  end.

Definition event_queue_push (queue : EventQueue) (event : Event) : EventQueue :=
  let head' :=
    match head queue with
    | [] => [event]
    | h :: rest =>
        if ev_priority h <? ev_priority event
        then event :: h :: rest
        else h :: push_scan rest event
    end in
  mkEventQueue head' (CInt.add (size queue) 1).

(** [None] is the return value 0 (queue and [*event] untouched), [Some] is
    the return value 1 with the event written to [*event]. *)
Definition event_queue_pop (queue : EventQueue) : option (Event * EventQueue) :=
  match head queue with
  | [] => None
  | to_remove :: rest =>
      Some (to_remove, mkEventQueue rest (CInt.sub (size queue) 1))
  end.

(** The two calls on the queue of the manager. *)
Definition push_event (event : Event) : M unit :=
  let! q := get_queue in put_queue (event_queue_push q event).

Definition pop_event : M (option Event) :=
  let! q := get_queue in
  match event_queue_pop q with
  | None => ret None
  | Some (e, q') => put_queue q' >> ret (Some e)
  end.

(** Pushing a list of events in order, popping [n] times. *)
Definition push_all (queue : EventQueue) (events : list Event) : EventQueue :=
  foldl event_queue_push queue events.

Fixpoint pop_n (n : nat) (queue : EventQueue) : option (list Event * EventQueue) :=
  match n with
  | O => Some ([], queue)
  | S n' =>
      match event_queue_pop queue with
      | None => None
      | Some (e, q') =>
          match pop_n n' q' with
          | None => None
          | Some (es, q'') => Some (e :: es, q'')
          end
      end
  end.

(** ** system.c *)

(** The fields [system_create] writes into the block it allocates. *)
Definition system_create (name : string) (consumed produced : ResourceAmount)
    (processing_time : Z) : System :=
  mkSystem name consumed produced 0 processing_time STANDARD.

Definition system_simulate_process_time (system : sys_ptr) : M unit :=
  let! s := load_sys system in
  let adjusted_processing_time :=
    if status s =? SLOW then CInt.mul (processing_time s) 2
    else if status s =? FAST then CInt.div (processing_time s) 2
    else processing_time s in
  usleep (CInt.mul adjusted_processing_time 1000).

(** The amount is tested and decremented between [sem_wait] and
    [sem_post]; on the failing path the amount is read once more after the
    [sem_post], for the status to return. *)
Definition system_convert (system : sys_ptr) : M Z :=
  let! s := load_sys system in
  let consumed_resource := ra_resource (consumed s) in
  let amount_consumed := ra_amount (consumed s) in
  match consumed_resource with
  | None => ret STATUS_OK
  | Some _ =>
      let! r := load_res consumed_resource in
      if amount_consumed <=? res_amount r then
        store_res consumed_resource
          (set_res_amount (CInt.sub (res_amount r) amount_consumed) r) >>
        system_simulate_process_time system >>
        (let! s1 := load_sys system in
         match ra_resource (produced s1) with
         | Some _ =>
             store_sys system
               (set_amount_stored
                  (CInt.add (amount_stored s1) (ra_amount (produced s1))) s1)
         | None => ret tt
         end) >>
        ret STATUS_OK
      else
        let! r' := load_res consumed_resource in
        ret (if res_amount r' =? 0 then STATUS_EMPTY else STATUS_INSUFFICIENT)
  end.

Definition system_store_resources (system : sys_ptr) : M Z :=
  let! s := load_sys system in
  let produced_resource := ra_resource (produced s) in
  match produced_resource with
  | None => ret STATUS_OK
  | Some _ =>
      if amount_stored s =? 0 then ret STATUS_OK else
      let! r := load_res produced_resource in
      let available_space := CInt.sub (res_max_capacity r) (res_amount r) in
      if amount_stored s <=? available_space then
        store_res produced_resource
          (set_res_amount (CInt.add (res_amount r) (amount_stored s)) r) >>
        store_sys system (set_amount_stored 0 s) >>
        ret STATUS_OK
      else
        (if 0 <? available_space then
           store_res produced_resource
             (set_res_amount (CInt.add (res_amount r) available_space) r) >>
           store_sys system
             (set_amount_stored (CInt.sub (amount_stored s) available_space) s)
         else ret tt) >>
        ret STATUS_CAPACITY
  end.

(** The first [if] of [system_run]. *)
Definition system_run_convert (system : sys_ptr) : M unit :=
  let! s := load_sys system in
  if amount_stored s =? 0 then
    let! result_status := system_convert system in
    if negb (result_status =? STATUS_OK) then
      let! s1 := load_sys system in
      let! r := load_res (ra_resource (consumed s1)) in
      push_event (event_init system (ra_resource (consumed s1))
                    result_status PRIORITY_HIGH (res_amount r)) >>
      usleep (CInt.mul SYSTEM_WAIT_TIME 1000)
    else ret tt
  else ret tt.

(** The second [if] of [system_run]. *)
Definition system_run_store (system : sys_ptr) : M unit :=
  let! s := load_sys system in
  if 0 <? amount_stored s then
    let! result_status := system_store_resources system in
    if negb (result_status =? STATUS_OK) then
      let! s1 := load_sys system in
      let! r := load_res (ra_resource (produced s1)) in
      push_event (event_init system (ra_resource (produced s1))
                    result_status PRIORITY_LOW (res_amount r)) >>
      usleep (CInt.mul SYSTEM_WAIT_TIME 1000)
    else ret tt
  else ret tt.

Definition system_run (system : sys_ptr) : M unit :=
  system_run_convert system >> system_run_store system.

(** One turn of the [while] of [system_thread]: the test of the status and,
    when it is not [TERMINATE], the body.  [false] is the exit of the loop. *)
Definition system_thread_iteration (system : sys_ptr) : M bool :=
  let! s := load_sys system in
  if negb (status s =? TERMINATE) then system_run system >> ret true
  else ret false.

Fixpoint system_thread (fuel : nat) (system : sys_ptr) : M unit :=
  match fuel with
  | O => fail OutOfFuel
  | S fuel' =>
      let! again := system_thread_iteration system in
      if again : bool then system_thread fuel' system else ret tt
  end.

(** ** The manager *)

(** [display_simulation_state] prints; of that the embedding keeps the
    reads: every resource of [resource_array] and every system of
    [system_array] is dereferenced. *)
Fixpoint display_resources (arr : list nat) : M unit :=
  match arr with
  | [] => ret tt
  | a :: rest => let! _ := load_res (Some a) in display_resources rest
  end.

Fixpoint display_systems (arr : list sys_ptr) : M unit :=
  match arr with
  | [] => ret tt
  | p :: rest => let! _ := load_sys p in display_systems rest
  end.

Definition display_simulation_state : M unit :=
  let! ra := get_resource_array in
  display_resources ra >>
  let! sa := get_system_array in
  display_systems sa.

(** The [for] over [system_array] inside the [while] of [manager_run]. *)
Fixpoint manager_update_systems (arr : list sys_ptr) (status : Z)
    (resource : res_ptr) : M unit :=
  match arr with
  | [] => ret tt
  | p :: rest =>
      let! current_system := load_sys p in
      (if (status =? TERMINATE)
          || bool_decide (ra_resource (produced current_system) = resource)
       then store_sys p (set_status status current_system)
       else ret tt) >>
      manager_update_systems rest status resource
  end.

(** [strcmp (a, b) == 0] on names. *)
Definition strcmp_eq (a b : string) : bool := String.eqb a b.

(** The body of the [while] of [manager_run] up to the next pop.  [status]
    is the local variable of [manager_run], which lives across the turns of
    the loop; the result is its value after the turn. *)
Definition manager_handle_event (status : Z) (event : Event) : M Z :=
  (* the printf reads event.system->name and event.resource->name *)
  let! _ := load_sys (ev_system event) in
  let! r := load_res (ev_resource event) in
  let no_oxygen_flag :=
    (ev_status event =? STATUS_EMPTY) && strcmp_eq (res_name r) "Oxygen" in
  let distance_reached_flag :=
    (ev_status event =? STATUS_CAPACITY) && strcmp_eq (res_name r) "Distance" in
  let need_more_flag :=
    (ev_status event =? STATUS_LOW) || (ev_status event =? STATUS_EMPTY)
    || (ev_status event =? STATUS_INSUFFICIENT) in
  let need_less_flag := (ev_status event =? STATUS_CAPACITY) in
  let! status' :=
    (if no_oxygen_flag then put_simulation_running 0 >> ret TERMINATE
     else if distance_reached_flag then put_simulation_running 0 >> ret TERMINATE
     else if need_more_flag then ret FAST
     else if need_less_flag then ret SLOW
     else ret status) in
  (if no_oxygen_flag || distance_reached_flag || need_more_flag || need_less_flag
   then let! arr := get_system_array in
        manager_update_systems arr status' (ev_resource event)
   else ret tt) >>
  ret status'.

(** The [while (event_found_flag)] of [manager_run]; [event_found] is the
    outcome of the pop that precedes the test. *)
Fixpoint manager_while (fuel : nat) (event_found : option Event) (status : Z)
    : M unit :=
  match event_found with
  | None => ret tt
  | Some event =>
      match fuel with
      | O => fail OutOfFuel
      | S fuel' =>
          let! status' := manager_handle_event status event in
          let! next := pop_event in
          manager_while fuel' next status'
      end
  end.

(** No one pushes while the manager drains, so the loop takes as many turns
    as the queue holds events on entry. *)
Definition manager_run : M unit :=
  display_simulation_state >>
  let! q := get_queue in
  let! event_found := pop_event in
  manager_while (length (head q)) event_found STANDARD.

(** One turn of the [while] of [manager_thread]. *)
Definition manager_thread_iteration : M bool :=
  fun w =>
    if negb (simulation_running w =? 0)
    then (manager_run >> usleep (CInt.mul MANAGER_WAIT_TIME 1000) >> ret true) w
    else Ok (false, w).

(** ** A world shaped like the scenario of main.c

    Resources 0 to 3 are Fuel, Oxygen, Energy and Distance, with the name,
    amount and capacity that [load_data] passes to [resource_create];
    systems 0 to 3 are Propulsion, Life Support, Crew and Generator, as
    [system_create] leaves them.  The worlds below are inputs for concrete
    runs; no statement depends on how the program allocates them. *)

Definition fuel : nat := 0%nat.
Definition oxygen : nat := 1%nat.
Definition energy : nat := 2%nat.
Definition distance : nat := 3%nat.

Definition scenario_resources : gmap nat Resource :=
  <[fuel := mkResource "Fuel" 1000 1000]>
  (<[oxygen := mkResource "Oxygen" 20 50]>
  (<[energy := mkResource "Energy" 30 50]>
  (<[distance := mkResource "Distance" 0 5000]> ∅))).

Definition propulsion_system : System :=
  system_create "Propulsion" (mkResourceAmount (Some fuel) 5)
                (mkResourceAmount (Some distance) 25) 50.
Definition life_support_system : System :=
  system_create "Life Support" (mkResourceAmount (Some energy) 7)
                (mkResourceAmount (Some oxygen) 4) 10.
Definition crew_capsule_system : System :=
  system_create "Crew" (mkResourceAmount (Some oxygen) 1)
                (mkResourceAmount None 0) 2.
Definition generator_system : System :=
  system_create "Generator" (mkResourceAmount (Some fuel) 5)
                (mkResourceAmount (Some energy) 10) 20.

Definition scenario_systems : gmap nat System :=
  <[0%nat := propulsion_system]>
  (<[1%nat := life_support_system]>
  (<[2%nat := crew_capsule_system]>
  (<[3%nat := generator_system]> ∅))).

Definition load_data : World :=
  mkWorld scenario_systems scenario_resources 1
          [0%nat; 1%nat; 2%nat; 3%nat] [fuel; oxygen; energy; distance]
          event_queue_init [].

Definition status_of (p : sys_ptr) (w : World) : option Z :=
  status <$> systems w !! p.
Definition stored_of (p : sys_ptr) (w : World) : option Z :=
  amount_stored <$> systems w !! p.
Definition amount_of (a : nat) (w : World) : option Z :=
  res_amount <$> resources w !! a.

(** ** Notions used by the statements *)

(** [a] may stand before [b] in the queue. *)
Definition prio_ge (a b : Event) : Prop := ev_priority b <= ev_priority a.

(** The events of priority [p], in the order of the list. *)
Definition tier (p : Z) (l : list Event) : list Event :=
  filter (fun e => ev_priority e = p) l.

(** The argument of the [usleep] of [system_simulate_process_time]. *)
Definition process_delay (s : System) : Z :=
  CInt.mul (if status s =? SLOW then CInt.mul (processing_time s) 2
            else if status s =? FAST then CInt.div (processing_time s) 2
            else processing_time s) 1000.

(** What [system_convert] leaves in a system that consumed. *)
Definition after_convert (s : System) : System :=
  match ra_resource (produced s) with
  | Some _ =>
      set_amount_stored (CInt.add (amount_stored s) (ra_amount (produced s))) s
  | None => s
  end.

(** One operation on the resources.  A consume is a call of
    [system_convert], a produce a call of [system_store_resources]; the
    requested amount of a consume is the [consumed.amount] of the calling
    system, that of a produce its [amount_stored].  Anything else the
    program does (the manager, the queue, the fields of the systems) leaves
    the resources alone. *)
Inductive resource_op (w w' : World) : Prop :=
| op_consume (system : sys_ptr) (s : System) (st : Z) :
    systems w !! system = Some s ->
    0 <= ra_amount (consumed s) ->
    system_convert system w = Ok (st, w') ->
    resource_op w w'
| op_produce (system : sys_ptr) (s : System) (st : Z) :
    systems w !! system = Some s ->
    0 <= amount_stored s ->
    system_store_resources system w = Ok (st, w') ->
    resource_op w w'
| op_bystander :
    resources w' = resources w ->
    resource_op w w'.

(** The resource at [a] keeps its name and capacity and has its amount
    within the capacity. *)
Definition within_capacity (a : nat) (name : string) (cap : Z) (w : World) : Prop :=
  exists r, resources w !! a = Some r
            /\ res_name r = name /\ res_max_capacity r = cap
            /\ 0 <= res_amount r <= res_max_capacity r.

Definition backoff : Z := CInt.mul SYSTEM_WAIT_TIME 1000.

(** What pushing an event and backing off leave. *)
Definition reported (event : Event) (w : World) : World :=
  set_sleeps (backoff :: sleeps w)
    (set_event_queue (event_queue_push (event_queue w) event) w).

(** What a successful consume leaves. *)
Definition converted (system : sys_ptr) (s : System) (a : nat) (r : Resource)
    (w : World) : World :=
  (match ra_resource (produced s) with
   | Some _ => set_systems (<[system := after_convert s]> (systems w))
   | None => fun w' => w'
   end)
    (set_sleeps (process_delay s :: sleeps w)
       (set_resources
          (<[a := set_res_amount
                    (CInt.sub (res_amount r) (ra_amount (consumed s))) r]>
             (resources w)) w)).

(** What a deposit leaves: [amount] in the resource, [leftover] in the
    system. *)
Definition deposited (system : sys_ptr) (s : System) (a : nat) (r : Resource)
    (leftover amount : Z) (w : World) : World :=
  set_systems (<[system := set_amount_stored leftover s]> (systems w))
    (set_resources (<[a := set_res_amount amount r]> (resources w)) w).

(** A resource pointer that is null or allocated. *)
Definition allocated (w : World) (p : res_ptr) : Prop :=
  match p with
  | None => True
  | Some a => is_Some (resources w !! a)
  end.

(** [system->status = v] from outside, as the manager does it. *)
Definition set_status_of (system : sys_ptr) (v : Z) (w : World) : World :=
  set_systems (alter (set_status v) system (systems w)) w.

Definition on_world {A} (f : World -> World) (x : result (A * World))
    : result (A * World) :=
  match x with
  | Ok (a, w) => Ok (a, f w)
  | Err e => Err e
  end.

(** The statuses that take the [default] branch of the [switch] of
    [system_simulate_process_time]. *)
Definition unscaled (v : Z) : Prop := v <> SLOW /\ v <> FAST.

(** What one turn of the [for] of [manager_run] does to a system. *)
Definition retune (status : Z) (resource : res_ptr) (s : System) : System :=
  if (status =? TERMINATE) || bool_decide (ra_resource (produced s) = resource)
  then set_status status s
  else s.

Definition retune_all (arr : list sys_ptr) (status : Z) (resource : res_ptr)
    (m : gmap nat System) : gmap nat System :=
  foldl (fun m p => alter (retune status resource) p m) m arr.

(** The event is an EMPTY on a resource named "Oxygen". *)
Definition oxygen_depleted (w : World) (event : Event) : Prop :=
  ev_status event = STATUS_EMPTY
  /\ exists a r, ev_resource event = Some a /\ resources w !! a = Some r
                 /\ res_name r = "Oxygen"%string.

(** ** Concrete worlds *)

Definition with_system (p : sys_ptr) (s : System) (w : World) : World :=
  set_systems (<[p := s]> (systems w)) w.

Definition with_resource (a : nat) (r : Resource) (w : World) : World :=
  set_resources (<[a := r]> (resources w)) w.

(** The status returned, the amount of resource [a] and the
    [amount_stored] of [system] after a call. *)
Definition observe (system : sys_ptr) (a : nat) (x : result (Z * World))
    : option (Z * option Z * option Z) :=
  match x with
  | Ok (st, w) => Some (st, amount_of a w, stored_of system w)
  | Err _ => None
  end.

Definition oxygen_at (n : Z) : World :=
  with_resource oxygen (mkResource "Oxygen" n 50) load_data.

Definition storing (p : sys_ptr) (s : System) (n : Z) (w : World) : World :=
  with_system p (set_amount_stored n s) w.

(** Life Support converts once and then stores once, from the start of the
    scenario. *)
Definition after_convert_and_store : World :=
  match (system_convert 1%nat >> system_store_resources 1%nat) load_data with
  | Ok (_, w) => w
  | Err _ => load_data
  end.

(** Life Support with status [DISABLED] at the start of the scenario. *)
Definition disabled_life_support : World :=
  with_system 1%nat (set_status DISABLED life_support_system) load_data.

(** A source: a system that consumes nothing and produces Energy. *)
Definition solar_system : System :=
  system_create "Solar" (mkResourceAmount None 0)
                (mkResourceAmount (Some energy) 10) 20.

Definition with_solar : World := with_system 4%nat solar_system load_data.

(** Oxygen is at 0 and Energy at 2: Crew cannot consume, Life Support
    cannot either. *)
Definition starved : World :=
  with_resource energy (mkResource "Energy" 2 50) (oxygen_at 0).

Definition oxygen_empty : Event :=
  event_init 2%nat (Some oxygen) STATUS_EMPTY PRIORITY_HIGH 0.

Definition energy_insufficient : Event :=
  event_init 1%nat (Some energy) STATUS_INSUFFICIENT PRIORITY_HIGH 2.

(** * The rest of the code *)

(** ** event.c: any use of the queue *)

(** One call on a queue: a push, or a pop whose event is dropped. *)
Inductive queue_op : Type :=
| QPush (event : Event)
| QPop.

Definition apply_queue_op (queue : EventQueue) (op : queue_op) : EventQueue :=
  match op with
  | QPush event => event_queue_push queue event
  | QPop =>
      match event_queue_pop queue with
      | Some (_, queue') => queue'
      | None => queue
      end
  end.

Definition run_queue_ops (queue : EventQueue) (ops : list queue_op) : EventQueue :=
  foldl apply_queue_op queue ops.

(** The chain is sorted and [size] counts its nodes. *)
Definition queue_inv (queue : EventQueue) : Prop :=
  StronglySorted prio_ge (head queue)
  /\ size queue = CInt.int_wrap (Z.of_nat (length (head queue))).

Definition two_low_one_high : list queue_op :=
  [QPush (event_init 0%nat (Some distance) STATUS_CAPACITY PRIORITY_LOW 5000);
   QPush energy_insufficient; QPop; QPush oxygen_empty;
   QPush (event_init 3%nat (Some energy) STATUS_CAPACITY PRIORITY_LOW 50)].


(** ** system.c: a whole turn of a worker *)

(** The ways the first [if] of [system_run] can end, for a system that is
    [s] on entry. *)
Inductive convert_outcome (system : sys_ptr) (s : System) (w : World)
    : World -> Prop :=
| co_skip :
    amount_stored s <> 0 ->
    convert_outcome system s w w
| co_source :
    amount_stored s = 0 -> ra_resource (consumed s) = None ->
    convert_outcome system s w w
| co_short (a : nat) (r : Resource) :
    amount_stored s = 0 -> ra_resource (consumed s) = Some a ->
    resources w !! a = Some r ->
    res_amount r < ra_amount (consumed s) ->
    convert_outcome system s w
      (reported (event_init system (Some a)
                   (if res_amount r =? 0 then STATUS_EMPTY
                    else STATUS_INSUFFICIENT)
                   PRIORITY_HIGH (res_amount r)) w)
| co_done (a : nat) (r : Resource) :
    amount_stored s = 0 -> ra_resource (consumed s) = Some a ->
    resources w !! a = Some r ->
    ra_amount (consumed s) <= res_amount r ->
    convert_outcome system s w (converted system s a r w).

(** The ways the second [if] of [system_run] can end. *)
Inductive store_outcome (system : sys_ptr) (s : System) (w : World)
    : World -> Prop :=
| so_skip :
    amount_stored s <= 0 ->
    store_outcome system s w w
| so_sink :
    0 < amount_stored s -> ra_resource (produced s) = None ->
    store_outcome system s w w
| so_all (a : nat) (r : Resource) :
    0 < amount_stored s -> ra_resource (produced s) = Some a ->
    resources w !! a = Some r ->
    amount_stored s <= CInt.sub (res_max_capacity r) (res_amount r) ->
    store_outcome system s w
      (deposited system s a r 0 (CInt.add (res_amount r) (amount_stored s)) w)
| so_part (a : nat) (r : Resource) :
    0 < amount_stored s -> ra_resource (produced s) = Some a ->
    resources w !! a = Some r ->
    0 < CInt.sub (res_max_capacity r) (res_amount r) < amount_stored s ->
    store_outcome system s w
      (reported
         (event_init system (Some a) STATUS_CAPACITY PRIORITY_LOW
            (CInt.add (res_amount r)
               (CInt.sub (res_max_capacity r) (res_amount r))))
         (deposited system s a r
            (CInt.sub (amount_stored s)
               (CInt.sub (res_max_capacity r) (res_amount r)))
            (CInt.add (res_amount r)
               (CInt.sub (res_max_capacity r) (res_amount r))) w))
| so_full (a : nat) (r : Resource) :
    0 < amount_stored s -> ra_resource (produced s) = Some a ->
    resources w !! a = Some r ->
    CInt.sub (res_max_capacity r) (res_amount r) <= 0 ->
    store_outcome system s w
      (reported (event_init system (Some a) STATUS_CAPACITY PRIORITY_LOW
                   (res_amount r)) w).

(** The fields of a system that say what it is, as opposed to
    [amount_stored]. *)
Definition same_config (s s' : System) : Prop :=
  sys_name s' = sys_name s /\ consumed s' = consumed s
  /\ produced s' = produced s /\ processing_time s' = processing_time s
  /\ status s' = status s.

(** What a turn of the worker of [system] does not touch. *)
Definition worker_frame (system : sys_ptr) (s : System) (w w' : World) : Prop :=
  simulation_running w' = simulation_running w
  /\ system_array w' = system_array w
  /\ resource_array w' = resource_array w
  /\ (forall p, p <> system -> systems w' !! p = systems w !! p)
  /\ (exists s', systems w' !! system = Some s' /\ same_config s s')
  /\ (forall a,
        resources w' !! a = resources w !! a
        \/ ((ra_resource (consumed s) = Some a \/ ra_resource (produced s) = Some a)
            /\ exists r r', resources w !! a = Some r
                            /\ resources w' !! a = Some r'
                            /\ res_name r' = res_name r
                            /\ res_max_capacity r' = res_max_capacity r)).

(** A resource within its capacity, a system whose buffer is within what
    one conversion produces, and a memory where all of them are. *)
Definition resource_wf (r : Resource) : Prop :=
  0 <= res_amount r <= res_max_capacity r /\ CInt.is_int (res_max_capacity r).

Definition system_wf (s : System) : Prop :=
  0 <= ra_amount (consumed s)
  /\ 0 <= amount_stored s <= ra_amount (produced s)
  /\ CInt.is_int (ra_amount (produced s)).

Definition maps_wf (sy : gmap nat System) (re : gmap nat Resource) : Prop :=
  (forall a r, re !! a = Some r -> resource_wf r)
  /\ (forall p s, sy !! p = Some s -> system_wf s).

Definition world_wf (w : World) : Prop := maps_wf (systems w) (resources w).

(** The workers take turns in the order of [schedule]. *)
Fixpoint run_turns (schedule : list sys_ptr) : M unit :=
  match schedule with
  | [] => ret tt
  | system :: rest => system_run system >> run_turns rest
  end.

(** The memory a run leaves, or [w0] when it faults. *)
Definition world_after {A} (x : result (A * World)) (w0 : World) : World :=
  match x with
  | Ok (_, w) => w
  | Err _ => w0
  end.

(** Propulsion holds 25 units and Distance is full. *)
Definition arrived : World :=
  storing 0%nat propulsion_system 25
    (with_resource distance (mkResource "Distance" 5000 5000) load_data).

(** ** system.c: the dynamic array of systems

    [struct SystemArray] with its block: [sa_systems] is the block that
    [systems] points to, one entry per slot, [None] for a slot that was
    never written.  [system_array] of [World] is the list of the slots in
    use. *)
Record SystemArray : Type := mkSystemArray {
  sa_systems : list (option sys_ptr);
  sa_size : Z;
  sa_capacity : Z
}.

(** [malloc (sizeof (System * ) * n)]: [n] slots, none written. *)
Definition malloc_slots (n : Z) : list (option sys_ptr) :=
  replicate (Z.to_nat n) None.

Definition system_array_init : SystemArray :=
  mkSystemArray (malloc_slots 1) 0 1.

(** [for (i = 0; i < size; i++) new_array[i] = systems[i]], [count] turns
    from index [i] on; an index outside a block is a fault. *)
Fixpoint copy_slots (count i : nat) (src dst : list (option sys_ptr))
    : result (list (option sys_ptr)) :=
  match count with
  | O => Ok dst
  | S count' =>
      match src !! i with
      | None => Err BadPointer
      | Some x =>
          if decide (i < length dst)%nat
          then copy_slots count' (S i) src (<[i := x]> dst)
          else Err BadPointer
      end
  end.

Definition system_array_add (array : SystemArray) (system : sys_ptr)
    : result SystemArray :=
  let grown :=
    if sa_size array =? sa_capacity array then
      let capacity := CInt.mul (sa_capacity array) 2 in
      match copy_slots (Z.to_nat (sa_size array)) 0 (sa_systems array)
              (malloc_slots capacity) with
      | Ok new_array => Ok (mkSystemArray new_array (sa_size array) capacity)
      | Err e => Err e
      end
    else Ok array in
  match grown with
  | Ok a =>
      if (0 <=? sa_size a) && (sa_size a <? Z.of_nat (length (sa_systems a)))
      then Ok (mkSystemArray
                 (<[Z.to_nat (sa_size a) := Some system]> (sa_systems a))
                 (CInt.add (sa_size a) 1) (sa_capacity a))
      else Err BadPointer
  | Err e => Err e
  end.

(** Adding the systems of a list one after the other. *)
Fixpoint system_array_add_all (array : SystemArray) (l : list sys_ptr)
    : result SystemArray :=
  match l with
  | [] => Ok array
  | system :: rest =>
      match system_array_add array system with
      | Ok array' => system_array_add_all array' rest
      | Err e => Err e
      end
  end.

(** The slots in use, first to last. *)
Definition sa_live (array : SystemArray) : list (option sys_ptr) :=
  take (Z.to_nat (sa_size array)) (sa_systems array).

(** The block has [capacity] slots and [size] of them are in use. *)
Definition sa_wf (array : SystemArray) : Prop :=
  0 <= sa_size array <= sa_capacity array
  /\ 1 <= sa_capacity array
  /\ length (sa_systems array) = Z.to_nat (sa_capacity array).

(** [system_destroy]: a null pointer is ignored; the block of a system is
    freed, and freeing a block that is not allocated is a fault. *)
Definition system_destroy (system : option sys_ptr) : M unit :=
  match system with
  | None => ret tt
  | Some p =>
      fun w => match systems w !! p with
               | Some _ => Ok (tt, set_systems (delete p (systems w)) w)
               | None => Err BadPointer
               end
  end.

(** The [for] of [system_array_clean] over the slots in use. *)
Fixpoint system_array_clean_loop (arr : list sys_ptr) : M unit :=
  match arr with
  | [] => ret tt
  | p :: rest => system_destroy (Some p) >> system_array_clean_loop rest
  end.

(** [system_array_clean]: the loop, then [free (array->systems)]; the block
    of the array is not part of [World], so its [free] leaves nothing to
    observe here. *)
Definition system_array_clean : M unit :=
  let! arr := get_system_array in system_array_clean_loop arr.

(** What the growth of the block keeps: the capacity is a power of two and,
    once a system is in, more than half of the block is in use. *)
Definition sa_grown (array : SystemArray) : Prop :=
  sa_wf array
  /\ (exists k : nat, sa_capacity array = 2 ^ Z.of_nat k)
  /\ (sa_capacity array < 2 * sa_size array
      \/ (sa_size array = 0 /\ sa_capacity array = 1)).

(** The heap of systems with the systems of [arr] freed. *)
Definition delete_all (arr : list sys_ptr) (m : gmap nat System)
    : gmap nat System :=
  foldl (fun m p => delete p m) m arr.

(** ** The manager: the whole drain *)

(** The turns of the [while] of [manager_run] on the events of a list, one
    after the other, without the pops; the result is the last value of the
    local [status]. *)
Fixpoint manager_drain (events : list Event) (status : Z) : M Z :=
  match events with
  | [] => ret status
  | event :: rest =>
      let! status' := manager_handle_event status event in
      manager_drain rest status'
  end.

(** [size] after [n] pops. *)
Definition size_after_pops (n : nat) (size : Z) : Z :=
  Nat.iter n (fun s => CInt.sub s 1) size.

(** The event is a CAPACITY on a resource named "Distance". *)
Definition distance_reached (w : World) (event : Event) : Prop :=
  ev_status event = STATUS_CAPACITY
  /\ exists a r, ev_resource event = Some a /\ resources w !! a = Some r
                 /\ res_name r = "Distance"%string.

(** The pointers of an event can be followed. *)
Definition event_ok (w : World) (event : Event) : Prop :=
  is_Some (systems w !! ev_system event)
  /\ exists a, ev_resource event = Some a /\ is_Some (resources w !! a).

(** The arrays of the manager and the events of the queue only hold
    pointers that can be followed. *)
Definition manager_ok (w : World) : Prop :=
  (forall a, a ∈ resource_array w -> is_Some (resources w !! a))
  /\ (forall p, p ∈ system_array w -> is_Some (systems w !! p))
  /\ Forall (event_ok w) (head (event_queue w)).

(** One turn of the [while] of [manager_thread], then the next ones. *)
Fixpoint manager_thread (turns : nat) : M unit :=
  match turns with
  | O => fail OutOfFuel
  | S turns' =>
      let! again := manager_thread_iteration in
      if again : bool then manager_thread turns' else ret tt
  end.

(** The two heaps of systems hold the same systems up to their status. *)
Definition status_only (m m' : gmap nat System) : Prop :=
  forall p,
    match m !! p, m' !! p with
    | Some s, Some s' => exists v, s' = set_status v s
    | None, None => True
    | _, _ => False
    end.

(** The event ends the simulation. *)
Definition final_event (w : World) (event : Event) : Prop :=
  oxygen_depleted w event \/ distance_reached w event.

(** What the manager leaves alone: the resources, the queue, the sleeps,
    the arrays, and every field of a system but its status. *)
Definition manager_frame (w w' : World) : Prop :=
  resources w' = resources w
  /\ event_queue w' = event_queue w
  /\ sleeps w' = sleeps w
  /\ system_array w' = system_array w
  /\ resource_array w' = resource_array w
  /\ status_only (systems w) (systems w').

Definition distance_full : Event :=
  event_init 0%nat (Some distance) STATUS_CAPACITY PRIORITY_LOW 5000.

(** * Properties *)

(** ** C [int] arithmetic *)

Lemma int_wrap_id z : CInt.is_int z -> CInt.int_wrap z = z.
Proof.
  unfold CInt.is_int, CInt.int_min, CInt.int_max, CInt.int_wrap. intros H.
  rewrite Z.mod_small; lia.
Qed.

Lemma int_wrap_add_l a b : CInt.int_wrap (CInt.int_wrap a + b) = CInt.int_wrap (a + b).
Proof.
  unfold CInt.int_wrap.
  replace ((a + 2 ^ 31) mod 2 ^ 32 - 2 ^ 31 + b + 2 ^ 31)
    with ((a + 2 ^ 31) mod 2 ^ 32 + b) by lia.
  rewrite Zplus_mod_idemp_l. f_equal. f_equal. lia.
Qed.

Lemma is_int_0 : CInt.is_int 0.
Proof. unfold CInt.is_int, CInt.int_min, CInt.int_max. lia. Qed.

(** ** The event queue *)

Lemma tier_cons p e l :
  tier p (e :: l) = if decide (ev_priority e = p) then e :: tier p l else tier p l.
Proof. unfold tier. rewrite filter_cons. reflexivity. Qed.

Lemma tier_below p l :
  Forall (fun e => ev_priority e < p) l -> tier p l = [].
Proof.
  induction 1 as [|e l He _ IH]; [reflexivity|].
  rewrite tier_cons, IH. case_decide; [lia | reflexivity].
Qed.

(** The first test of [event_queue_push] is the first turn of its scan. *)
Lemma event_queue_push_head queue event :
  head (event_queue_push queue event) = push_scan (head queue) event.
Proof.
  unfold event_queue_push; simpl. destruct (head queue) as [|h rest]; [reflexivity|].
  simpl. destruct (Z.ltb_spec (ev_priority h) (ev_priority event));
    destruct (Z.leb_spec (ev_priority event) (ev_priority h)); try lia; reflexivity.
Qed.

Lemma push_scan_perm l e : push_scan l e ≡ₚ e :: l.
Proof.
  induction l as [|n rest IH]; simpl; [reflexivity|].
  destruct (ev_priority e <=? ev_priority n); [|reflexivity].
  rewrite IH. apply Permutation_swap.
Qed.

Lemma push_scan_sorted l e :
  StronglySorted prio_ge l -> StronglySorted prio_ge (push_scan l e).
Proof.
  induction 1 as [|n rest Hs IH Hn]; simpl.
  - repeat constructor.
  - destruct (Z.leb_spec (ev_priority e) (ev_priority n)).
    + constructor; [exact IH|].
      rewrite (push_scan_perm rest e). constructor; [exact H | exact Hn].
    + constructor; [constructor; assumption|].
      constructor; [unfold prio_ge; lia|].
      eapply Forall_impl; [exact Hn|]. unfold prio_ge. simpl. intros; lia.
Qed.

Lemma tier_one p e :
  tier p [e] = if decide (ev_priority e = p) then [e] else [].
Proof. rewrite tier_cons. reflexivity. Qed.

Lemma push_scan_tier l e p :
  StronglySorted prio_ge l ->
  tier p (push_scan l e) = tier p l ++ tier p [e].
Proof.
  induction 1 as [|n rest Hs IH Hn]; [reflexivity|].
  cbn [push_scan].
  destruct (Z.leb_spec (ev_priority e) (ev_priority n)).
  - rewrite !(tier_cons p n), IH. case_decide; reflexivity.
  - rewrite tier_one, (tier_cons p e), (tier_cons p n).
    destruct (decide (ev_priority e = p)) as [He|He]; [|rewrite app_nil_r; reflexivity].
    rewrite decide_False by lia.
    rewrite tier_below; [reflexivity|].
    eapply Forall_impl; [exact Hn|]. unfold prio_ge. simpl. intros; lia.
Qed.

Lemma push_all_sorted events queue :
  StronglySorted prio_ge (head queue) ->
  StronglySorted prio_ge (head (push_all queue events)).
Proof.
  revert queue. induction events as [|e es IH]; intros queue Hs; [exact Hs|].
  simpl. apply IH. rewrite event_queue_push_head. apply push_scan_sorted, Hs.
Qed.

Lemma push_all_tier events queue p :
  StronglySorted prio_ge (head queue) ->
  tier p (head (push_all queue events)) = tier p (head queue) ++ tier p events.
Proof.
  revert queue. induction events as [|e es IH]; intros queue Hs; simpl.
  - change (tier p []) with (@nil Event). rewrite app_nil_r. reflexivity.
  - rewrite (tier_cons p e es), IH by (rewrite event_queue_push_head; apply push_scan_sorted, Hs).
    rewrite event_queue_push_head, push_scan_tier, tier_one by exact Hs.
    rewrite <- app_assoc. case_decide; reflexivity.
Qed.

Lemma push_all_perm events queue :
  head (push_all queue events) ≡ₚ head queue ++ events.
Proof.
  revert queue. induction events as [|e es IH]; intros queue; simpl.
  - rewrite app_nil_r. reflexivity.
  - rewrite IH, event_queue_push_head, push_scan_perm.
    simpl. apply Permutation_middle.
Qed.

Lemma int_wrap_is_int z : CInt.is_int (CInt.int_wrap z).
Proof.
  unfold CInt.is_int, CInt.int_min, CInt.int_max, CInt.int_wrap.
  pose proof (Z.mod_pos_bound (z + 2 ^ 31) (2 ^ 32)). lia.
Qed.

Lemma push_all_size events queue :
  CInt.int_wrap (size (push_all queue events))
  = CInt.int_wrap (size queue + Z.of_nat (length events)).
Proof.
  revert queue. induction events as [|e es IH]; intros queue.
  - simpl. rewrite Z.add_0_r. reflexivity.
  - cbn [push_all foldl length]. fold (push_all (event_queue_push queue e) es).
    rewrite IH. cbn [event_queue_push size]. unfold CInt.add.
    rewrite int_wrap_add_l. f_equal. lia.
Qed.

Lemma push_all_size_int events queue :
  CInt.is_int (size queue) -> CInt.is_int (size (push_all queue events)).
Proof.
  revert queue. induction events as [|e es IH]; intros queue Hq; [exact Hq|].
  apply IH. apply int_wrap_is_int.
Qed.

(** Popping as many times as the queue has nodes returns the nodes from the
    head on and leaves no node. *)
Lemma pop_n_all queue :
  CInt.is_int (size queue) ->
  exists s',
    pop_n (length (head queue)) queue = Some (head queue, mkEventQueue [] s')
    /\ s' = CInt.int_wrap (size queue - Z.of_nat (length (head queue))).
Proof.
  destruct queue as [l s]. cbn [head size]. revert s.
  induction l as [|e l IH]; intros s Hs.
  - exists s. split; [reflexivity|]. simpl. rewrite Z.sub_0_r, int_wrap_id; auto.
  - destruct (IH (CInt.sub s 1) (int_wrap_is_int _)) as (s' & Hpop & Hs').
    exists s'. split.
    + cbn [length pop_n event_queue_pop head size]. rewrite Hpop. reflexivity.
    + rewrite Hs'. unfold CInt.sub.
      replace (CInt.int_wrap (s - 1) - Z.of_nat (length l))
        with (CInt.int_wrap (s - 1) + - Z.of_nat (length l)) by lia.
      rewrite int_wrap_add_l. f_equal. cbn [length]. lia.
Qed.

(** Pushing any list onto the empty queue and popping as many times gives
    back the chain of the queue and the empty queue. *)
Lemma push_pop_round events :
  pop_n (length events) (push_all event_queue_init events)
  = Some (head (push_all event_queue_init events), event_queue_init).
Proof.
  set (q := push_all event_queue_init events).
  assert (Hlen : length (head q) = length events).
  { unfold q. rewrite (push_all_perm events event_queue_init). reflexivity. }
  assert (Hint : CInt.is_int (size q)).
  { apply push_all_size_int, is_int_0. }
  destruct (pop_n_all q Hint) as (s' & Hpop & Hs').
  rewrite Hlen in Hpop, Hs'. rewrite Hpop. do 3 f_equal.
  rewrite Hs'.
  replace (size q - Z.of_nat (length events))
    with (size q + - Z.of_nat (length events)) by lia.
  rewrite <- int_wrap_add_l. unfold q. rewrite push_all_size.
  rewrite int_wrap_add_l. cbn [event_queue_init size].
  replace (0 + Z.of_nat (length events) + - Z.of_nat (length events)) with 0 by lia.
  reflexivity.
Qed.

(** Two LOW and two HIGH events pushed alternately come out HIGH first, and
    in push order within each priority. *)
Example push_order_example :
  let ev (i : nat) (prio : Z) := mkEvent i None STATUS_CAPACITY prio 0 in
  map ev_system
    (head (push_all event_queue_init
             [ev 0%nat PRIORITY_LOW; ev 1%nat PRIORITY_HIGH;
              ev 2%nat PRIORITY_LOW; ev 3%nat PRIORITY_HIGH]))
  = [1%nat; 3%nat; 0%nat; 2%nat].
Proof. reflexivity. Qed.

(** C2: from the empty queue, after any sequence of pushes, the chain from
    the head on has non-increasing priority; for each priority the events of
    that priority stand in the chain in the order in which they were pushed
    (so of two pushed events of equal priority the one pushed first is
    nearer to the head); and popping returns the events in the order of the
    chain, head first. *)
Theorem event_queue_priority_fifo (events : list Event) :
  let queue := push_all event_queue_init events in
  StronglySorted (fun a b => ev_priority a >= ev_priority b) (head queue)
  /\ (forall p : Z,
        filter (fun e => ev_priority e = p) (head queue)
        = filter (fun e => ev_priority e = p) events)
  /\ (exists queue',
        pop_n (length events) queue = Some (head queue, queue')).
Proof.
  intros queue. split; [|split].
  - assert (Hs : StronglySorted prio_ge (head queue)).
    { apply push_all_sorted. constructor. }
    clear -Hs. induction Hs as [|a l _ IH Ha]; constructor; [exact IH|].
    eapply Forall_impl; [exact Ha|]. unfold prio_ge. simpl. intros; lia.
  - intros p. apply (push_all_tier events event_queue_init p). constructor.
  - exists event_queue_init. apply push_pop_round.
Qed.

(** C5: pushing a list of N events onto the empty queue and popping N times
    succeeds N times, returns a permutation of the pushed list (the same
    events with the same multiplicities), and leaves the queue as
    [event_queue_init] leaves it: no node and size 0. *)
Theorem event_queue_push_pop_multiset (events : list Event) :
  exists popped,
    pop_n (length events) (push_all event_queue_init events)
    = Some (popped, event_queue_init)
    /\ popped ≡ₚ events
    /\ event_queue_pop event_queue_init = None.
Proof.
  exists (head (push_all event_queue_init events)). split; [|split].
  - apply push_pop_round.
  - apply (push_all_perm events event_queue_init).
  - reflexivity.
Qed.

(** ** Resources: consuming and producing *)

(** Unfolding the monad and the memory primitives. *)
Ltac unfold_mem :=
  unfold bind, ret, fail, load_sys, store_sys, load_res, store_res, usleep,
    get_queue, put_queue, get_system_array, get_resource_array,
    put_simulation_running in *.

Section Convert.
Variables (w : World) (system : sys_ptr) (s : System).
Hypothesis Hs : systems w !! system = Some s.

Lemma system_convert_null :
  ra_resource (consumed s) = None ->
  system_convert system w = Ok (STATUS_OK, w).
Proof.
  intros Hc. unfold system_convert. unfold_mem. rewrite Hs, Hc. reflexivity.
Qed.

Lemma system_convert_dangling a :
  ra_resource (consumed s) = Some a -> resources w !! a = None ->
  system_convert system w = Err BadPointer.
Proof.
  intros Hc Hr. unfold system_convert. unfold_mem. rewrite Hs, Hc, Hr.
  reflexivity.
Qed.

Variables (a : nat) (r : Resource).
Hypothesis Hc : ra_resource (consumed s) = Some a.
Hypothesis Hr : resources w !! a = Some r.

Lemma system_convert_short :
  res_amount r < ra_amount (consumed s) ->
  system_convert system w
  = Ok (if res_amount r =? 0 then STATUS_EMPTY else STATUS_INSUFFICIENT, w).
Proof.
  intros Hlt. unfold system_convert. unfold_mem. rewrite Hs, Hc, Hr.
  destruct (Z.leb_spec (ra_amount (consumed s)) (res_amount r)); [lia|].
  rewrite Hr. reflexivity.
Qed.

Lemma system_convert_enough :
  ra_amount (consumed s) <= res_amount r ->
  system_convert system w
  = Ok (STATUS_OK,
        (match ra_resource (produced s) with
         | Some _ => set_systems (<[system := after_convert s]> (systems w))
         | None => fun w' => w'
         end)
          (set_sleeps (process_delay s :: sleeps w)
             (set_resources
                (<[a := set_res_amount
                          (CInt.sub (res_amount r) (ra_amount (consumed s))) r]>
                   (resources w)) w))).
Proof.
  intros Hle. unfold system_convert, system_simulate_process_time.
  unfold_mem. rewrite Hs, Hc, Hr.
  destruct (Z.leb_spec (ra_amount (consumed s)) (res_amount r)); [|lia].
  rewrite Hr. cbn. rewrite Hs. cbn. rewrite Hs. unfold after_convert.
  destruct (ra_resource (produced s)); [|reflexivity].
  cbn. rewrite Hs. reflexivity.
Qed.

End Convert.

Section Store.
Variables (w : World) (system : sys_ptr) (s : System).
Hypothesis Hs : systems w !! system = Some s.

Lemma system_store_resources_null :
  ra_resource (produced s) = None ->
  system_store_resources system w = Ok (STATUS_OK, w).
Proof.
  intros Hp. unfold system_store_resources. unfold_mem. rewrite Hs, Hp.
  reflexivity.
Qed.

Lemma system_store_resources_nothing :
  amount_stored s = 0 ->
  system_store_resources system w = Ok (STATUS_OK, w).
Proof.
  intros Hz. unfold system_store_resources. unfold_mem. rewrite Hs, Hz.
  destruct (ra_resource (produced s)); reflexivity.
Qed.

Lemma system_store_resources_dangling a :
  ra_resource (produced s) = Some a -> amount_stored s <> 0 ->
  resources w !! a = None ->
  system_store_resources system w = Err BadPointer.
Proof.
  intros Hp Hnz Hr. unfold system_store_resources. unfold_mem.
  rewrite Hs, Hp.
  destruct (Z.eqb_spec (amount_stored s) 0); [lia|]. rewrite Hr. reflexivity.
Qed.

Variables (a : nat) (r : Resource).
Hypothesis Hp : ra_resource (produced s) = Some a.
Hypothesis Hr : resources w !! a = Some r.
Hypothesis Hnz : amount_stored s <> 0.

Let available_space : Z := CInt.sub (res_max_capacity r) (res_amount r).

Lemma system_store_resources_all :
  amount_stored s <= available_space ->
  system_store_resources system w
  = Ok (STATUS_OK,
        set_systems (<[system := set_amount_stored 0 s]> (systems w))
          (set_resources
             (<[a := set_res_amount
                       (CInt.add (res_amount r) (amount_stored s)) r]>
                (resources w)) w)).
Proof.
  intros Hle. unfold system_store_resources. unfold_mem. rewrite Hs, Hp.
  destruct (Z.eqb_spec (amount_stored s) 0); [lia|]. rewrite Hr.
  fold available_space.
  destruct (Z.leb_spec (amount_stored s) available_space); [|lia].
  rewrite Hr. cbn. rewrite Hs. reflexivity.
Qed.

Lemma system_store_resources_part :
  0 < available_space < amount_stored s ->
  system_store_resources system w
  = Ok (STATUS_CAPACITY,
        set_systems
          (<[system := set_amount_stored
                         (CInt.sub (amount_stored s) available_space) s]>
             (systems w))
          (set_resources
             (<[a := set_res_amount
                       (CInt.add (res_amount r) available_space) r]>
                (resources w)) w)).
Proof.
  intros Hle. unfold system_store_resources. unfold_mem. rewrite Hs, Hp.
  destruct (Z.eqb_spec (amount_stored s) 0); [lia|]. rewrite Hr.
  fold available_space.
  destruct (Z.leb_spec (amount_stored s) available_space); [lia|].
  destruct (Z.ltb_spec 0 available_space); [|lia].
  rewrite Hr. cbn. rewrite Hs. reflexivity.
Qed.

Lemma system_store_resources_full :
  available_space <= 0 -> available_space < amount_stored s ->
  system_store_resources system w = Ok (STATUS_CAPACITY, w).
Proof.
  intros Hle Hlt. unfold system_store_resources. unfold_mem.
  rewrite Hs, Hp.
  destruct (Z.eqb_spec (amount_stored s) 0); [lia|]. rewrite Hr.
  fold available_space.
  destruct (Z.leb_spec (amount_stored s) available_space); [lia|].
  destruct (Z.ltb_spec 0 available_space); [lia|]. reflexivity.
Qed.

End Store.

Lemma resource_op_within_capacity a name cap w w' :
  CInt.is_int cap ->
  within_capacity a name cap w -> resource_op w w' ->
  within_capacity a name cap w'.
Proof.
  intros Hcap (r & Hr & Hn & Hm & Hb) Hop.
  assert (Hint : forall z, 0 <= z <= res_max_capacity r -> CInt.int_wrap z = z).
  { intros z Hz. apply int_wrap_id. rewrite Hm in Hz.
    unfold CInt.is_int, CInt.int_min, CInt.int_max in *. lia. }
  destruct Hop as [system s st Hs Hreq Hrun | system s st Hs Hreq Hrun | Hsame].
  - destruct (ra_resource (consumed s)) as [c|] eqn:Hc.
    2:{ rewrite (system_convert_null w system s Hs Hc) in Hrun.
        injection Hrun as _ <-. exists r. auto. }
    destruct (resources w !! c) as [rc|] eqn:Hrc.
    2:{ rewrite (system_convert_dangling w system s Hs c Hc Hrc) in Hrun.
        discriminate. }
    destruct (Z.le_gt_cases (ra_amount (consumed s)) (res_amount rc)) as [Hle|Hgt].
    2:{ rewrite (system_convert_short w system s Hs c rc Hc Hrc) in Hrun by lia.
        injection Hrun as _ <-. exists r. auto. }
    rewrite (system_convert_enough w system s Hs c rc Hc Hrc Hle) in Hrun.
    injection Hrun as _ <-.
    assert (Hres : forall w0 : World,
      resources ((match ra_resource (produced s) with
                  | Some _ => set_systems (<[system := after_convert s]> (systems w))
                  | None => fun w' => w'
                  end) w0) = resources w0).
    { intros w0. destruct (ra_resource (produced s)); reflexivity. }
    unfold within_capacity. rewrite Hres. cbn [resources set_sleeps set_resources].
    destruct (decide (c = a)) as [->|Hne].
    + rewrite lookup_insert_eq. assert (rc = r) by congruence; subst rc.
      eexists. split; [reflexivity|]. cbn. unfold CInt.sub.
      rewrite Hint by lia. repeat split; auto; lia.
    + rewrite lookup_insert_ne by exact Hne. exists r. auto.
  - destruct (ra_resource (produced s)) as [c|] eqn:Hp.
    2:{ rewrite (system_store_resources_null w system s Hs Hp) in Hrun.
        injection Hrun as _ <-. exists r. auto. }
    destruct (decide (amount_stored s = 0)) as [Hz|Hnz].
    { rewrite (system_store_resources_nothing w system s Hs Hz) in Hrun.
      injection Hrun as _ <-. exists r. auto. }
    destruct (resources w !! c) as [rc|] eqn:Hrc.
    2:{ rewrite (system_store_resources_dangling w system s Hs c Hp Hnz Hrc) in Hrun.
        discriminate. }
    set (avail := CInt.sub (res_max_capacity rc) (res_amount rc)).
    destruct (Z.le_gt_cases (amount_stored s) avail) as [Hle|Hgt].
    { rewrite (system_store_resources_all w system s Hs c rc Hp Hrc Hnz Hle) in Hrun.
      injection Hrun as _ <-. unfold within_capacity.
      cbn [resources set_systems set_resources].
      destruct (decide (c = a)) as [->|Hne].
      + rewrite lookup_insert_eq. assert (rc = r) by congruence; subst rc.
        assert (Hav : avail = res_max_capacity r - res_amount r).
        { unfold avail, CInt.sub. apply Hint. lia. }
        eexists. split; [reflexivity|]. cbn. unfold CInt.add.
        rewrite Hint by lia. repeat split; auto; lia.
      + rewrite lookup_insert_ne by exact Hne. exists r. auto. }
    destruct (Z.lt_ge_cases 0 avail) as [Hpos|Hnpos].
    { rewrite (system_store_resources_part w system s Hs c rc Hp Hrc Hnz) in Hrun
        by (fold avail; lia).
      injection Hrun as _ <-. unfold within_capacity.
      cbn [resources set_systems set_resources].
      destruct (decide (c = a)) as [->|Hne].
      + rewrite lookup_insert_eq. assert (rc = r) by congruence; subst rc.
        assert (Hav : avail = res_max_capacity r - res_amount r).
        { unfold avail, CInt.sub. apply Hint. lia. }
        eexists. split; [reflexivity|]. cbn. fold avail. unfold CInt.add.
        rewrite Hint by lia. repeat split; auto; lia.
      + rewrite lookup_insert_ne by exact Hne. exists r. auto. }
    rewrite (system_store_resources_full w system s Hs c rc Hp Hrc Hnz) in Hrun
      by (fold avail; lia).
    injection Hrun as _ <-. exists r. auto.
  - exists r. rewrite Hsame. auto.
Qed.

(** C1: a resource whose amount lies in [0, max_capacity] keeps it there
    along every sequence of consume and produce operations that are called
    with non-negative requested amounts, whatever else happens in between
    to the rest of the memory. *)
Theorem resource_amount_within_capacity (a : nat) (r : Resource) (w w' : World) :
  resources w !! a = Some r ->
  CInt.is_int (res_max_capacity r) ->
  0 <= res_amount r <= res_max_capacity r ->
  rtc resource_op w w' ->
  exists r',
    resources w' !! a = Some r'
    /\ res_max_capacity r' = res_max_capacity r
    /\ 0 <= res_amount r' <= res_max_capacity r'.
Proof.
  intros Hr Hcap Hb Hrun.
  assert (Hw : within_capacity a (res_name r) (res_max_capacity r) w).
  { exists r. auto. }
  clear Hr Hb.
  induction Hrun as [w|w w1 w2 Hop _ IH].
  - destruct Hw as (r' & ? & ? & ? & ?). exists r'. auto.
  - apply IH. eapply resource_op_within_capacity; eassumption.
Qed.

(** C3: a consume attempt on a non-null resource with a positive requested
    amount returns EMPTY and changes nothing when the amount is 0, returns
    INSUFFICIENT and changes nothing when the amount is positive and below
    the request, and otherwise returns OK with the amount of that resource
    decreased by exactly the request and every other resource untouched. *)
Theorem system_convert_outcomes (w : World) (system : sys_ptr) (s : System)
    (a : nat) (r : Resource) :
  systems w !! system = Some s ->
  ra_resource (consumed s) = Some a ->
  resources w !! a = Some r ->
  0 < ra_amount (consumed s) ->
  CInt.is_int (res_amount r) ->
  (res_amount r = 0 -> system_convert system w = Ok (STATUS_EMPTY, w))
  /\ (0 < res_amount r < ra_amount (consumed s) ->
      system_convert system w = Ok (STATUS_INSUFFICIENT, w))
  /\ (ra_amount (consumed s) <= res_amount r ->
      exists w',
        system_convert system w = Ok (STATUS_OK, w')
        /\ resources w'
           = <[a := set_res_amount (res_amount r - ra_amount (consumed s)) r]>
               (resources w)).
Proof.
  intros Hs Hc Hr Hpos Hint. split; [|split]; intros Hcase.
  - rewrite (system_convert_short w system s Hs a r Hc Hr) by lia.
    rewrite Hcase. reflexivity.
  - rewrite (system_convert_short w system s Hs a r Hc Hr) by lia.
    destruct (Z.eqb_spec (res_amount r) 0); [lia|reflexivity].
  - rewrite (system_convert_enough w system s Hs a r Hc Hr Hcase).
    eexists. split; [reflexivity|].
    unfold CInt.sub. rewrite int_wrap_id.
    + destruct (ra_resource (produced s)); reflexivity.
    + unfold CInt.is_int, CInt.int_min, CInt.int_max in *. lia.
Qed.

(** C4: a deposit of a positive [amount_stored] into a non-null produced
    resource with [available = max_capacity - amount].  When the request
    fits, the call returns OK, the amount grows by exactly the request and
    nothing is left in [amount_stored]; when only a positive part fits, it
    returns CAPACITY, the amount becomes [max_capacity] and
    [amount_stored] keeps the request minus the available space; when
    nothing fits ([available = 0]), it returns CAPACITY and changes
    nothing, so the whole request is left. *)
Theorem system_store_resources_outcomes (w : World) (system : sys_ptr)
    (s : System) (a : nat) (r : Resource) :
  systems w !! system = Some s ->
  ra_resource (produced s) = Some a ->
  resources w !! a = Some r ->
  0 < amount_stored s ->
  CInt.is_int (amount_stored s) ->
  CInt.is_int (res_amount r) ->
  CInt.is_int (res_max_capacity r) ->
  CInt.is_int (res_max_capacity r - res_amount r) ->
  let requested := amount_stored s in
  let available := res_max_capacity r - res_amount r in
  (requested <= available ->
   system_store_resources system w
   = Ok (STATUS_OK,
         set_systems (<[system := set_amount_stored 0 s]> (systems w))
           (set_resources
              (<[a := set_res_amount (res_amount r + requested) r]> (resources w))
              w)))
  /\ (0 < available < requested ->
      system_store_resources system w
      = Ok (STATUS_CAPACITY,
            set_systems
              (<[system := set_amount_stored (requested - available) s]> (systems w))
              (set_resources
                 (<[a := set_res_amount (res_max_capacity r) r]> (resources w))
                 w)))
  /\ (available = 0 ->
      system_store_resources system w = Ok (STATUS_CAPACITY, w)).
Proof.
  intros Hs Hp Hr Hpos Hreq Ham Hmax Hav requested available.
  assert (Hnz : amount_stored s <> 0) by lia.
  assert (Havail : CInt.sub (res_max_capacity r) (res_amount r) = available).
  { apply int_wrap_id, Hav. }
  unfold CInt.is_int, CInt.int_min, CInt.int_max in *.
  split; [|split]; intros Hcase.
  - rewrite (system_store_resources_all w system s Hs a r Hp Hr Hnz)
      by (rewrite Havail; exact Hcase).
    unfold CInt.add. rewrite int_wrap_id; [reflexivity|].
    unfold CInt.is_int, CInt.int_min, CInt.int_max. subst requested available. lia.
  - rewrite (system_store_resources_part w system s Hs a r Hp Hr Hnz)
      by (rewrite Havail; exact Hcase).
    rewrite Havail. unfold CInt.add, CInt.sub.
    rewrite (int_wrap_id (amount_stored s - available))
      by (unfold CInt.is_int, CInt.int_min, CInt.int_max;
          subst requested available; lia).
    replace (res_amount r + available) with (res_max_capacity r)
      by (subst available; lia).
    rewrite (int_wrap_id (res_max_capacity r)) by exact Hmax.
    reflexivity.
  - rewrite (system_store_resources_full w system s Hs a r Hp Hr Hnz)
      by (rewrite Havail; subst requested; lia).
    reflexivity.
Qed.

(** ** One turn of a worker *)

Section Turn.
Variables (w : World) (system : sys_ptr) (s : System).
Hypothesis Hs : systems w !! system = Some s.

Lemma system_run_convert_eq :
  system_run_convert system w
  = if amount_stored s =? 0 then
      match ra_resource (consumed s) with
      | None => Ok (tt, w)
      | Some a =>
          match resources w !! a with
          | None => Err BadPointer
          | Some r =>
              if ra_amount (consumed s) <=? res_amount r
              then Ok (tt, converted system s a r w)
              else Ok (tt, reported
                             (event_init system (Some a)
                                (if res_amount r =? 0 then STATUS_EMPTY
                                 else STATUS_INSUFFICIENT)
                                PRIORITY_HIGH (res_amount r)) w)
          end
      end
    else Ok (tt, w).
Proof.
  unfold system_run_convert, bind at 1, load_sys at 1. rewrite Hs.
  destruct (amount_stored s =? 0); [|reflexivity].
  unfold bind at 1.
  destruct (ra_resource (consumed s)) as [a|] eqn:Hc.
  2:{ rewrite (system_convert_null w system s Hs Hc). reflexivity. }
  destruct (resources w !! a) as [r|] eqn:Hr.
  2:{ rewrite (system_convert_dangling w system s Hs a Hc Hr). reflexivity. }
  destruct (Z.leb_spec (ra_amount (consumed s)) (res_amount r)) as [Hle|Hlt].
  - rewrite (system_convert_enough w system s Hs a r Hc Hr Hle). reflexivity.
  - rewrite (system_convert_short w system s Hs a r Hc Hr Hlt).
    assert (Hst : negb ((if res_amount r =? 0 then STATUS_EMPTY
                         else STATUS_INSUFFICIENT) =? STATUS_OK) = true).
    { destruct (res_amount r =? 0); reflexivity. }
    rewrite Hst. unfold_mem. rewrite Hs, Hc, Hr. reflexivity.
Qed.

Lemma system_run_store_eq :
  system_run_store system w
  = if 0 <? amount_stored s then
      match ra_resource (produced s) with
      | None => Ok (tt, w)
      | Some a =>
          match resources w !! a with
          | None => Err BadPointer
          | Some r =>
              let available_space :=
                CInt.sub (res_max_capacity r) (res_amount r) in
              if amount_stored s <=? available_space
              then Ok (tt, deposited system s a r 0
                             (CInt.add (res_amount r) (amount_stored s)) w)
              else if 0 <? available_space
              then Ok (tt, reported
                             (event_init system (Some a) STATUS_CAPACITY
                                PRIORITY_LOW
                                (CInt.add (res_amount r) available_space))
                             (deposited system s a r
                                (CInt.sub (amount_stored s) available_space)
                                (CInt.add (res_amount r) available_space) w))
              else Ok (tt, reported
                             (event_init system (Some a) STATUS_CAPACITY
                                PRIORITY_LOW (res_amount r)) w)
          end
      end
    else Ok (tt, w).
Proof.
  unfold system_run_store, bind at 1, load_sys at 1. rewrite Hs.
  destruct (Z.ltb_spec 0 (amount_stored s)) as [Hpos|]; [|reflexivity].
  assert (Hnz : amount_stored s <> 0) by lia.
  unfold bind at 1.
  destruct (ra_resource (produced s)) as [a|] eqn:Hp.
  2:{ rewrite (system_store_resources_null w system s Hs Hp). reflexivity. }
  destruct (resources w !! a) as [r|] eqn:Hr.
  2:{ rewrite (system_store_resources_dangling w system s Hs a Hp Hnz Hr).
      reflexivity. }
  cbv zeta.
  destruct (Z.leb_spec (amount_stored s)
              (CInt.sub (res_max_capacity r) (res_amount r))) as [Hle|Hlt].
  { rewrite (system_store_resources_all w system s Hs a r Hp Hr Hnz Hle).
    reflexivity. }
  destruct (Z.ltb_spec 0 (CInt.sub (res_max_capacity r) (res_amount r)))
    as [Hav|Hav].
  - rewrite (system_store_resources_part w system s Hs a r Hp Hr Hnz)
      by (split; assumption).
    cbn [negb Z.eqb STATUS_CAPACITY STATUS_OK]. unfold_mem.
    cbn [systems set_systems set_resources resources].
    rewrite !lookup_insert_eq. cbn. rewrite Hp. rewrite lookup_insert_eq.
    reflexivity.
  - rewrite (system_store_resources_full w system s Hs a r Hp Hr Hnz)
      by assumption.
    unfold_mem. cbn. rewrite Hs, Hp, Hr. reflexivity.
Qed.

End Turn.

(** What the first [if] of [system_run] leaves of the system and of the
    allocation of the resources, and how it can fail. *)
Lemma system_run_convert_shape w system s :
  systems w !! system = Some s ->
  match system_run_convert system w with
  | Ok (_, w1) =>
      (exists s1, systems w1 !! system = Some s1
                  /\ produced s1 = produced s
                  /\ status s1 = status s
                  /\ (ra_resource (produced s) = None -> s1 = s))
      /\ (forall p, allocated w p -> allocated w1 p)
  | Err e => e = BadPointer /\ ~ allocated w (ra_resource (consumed s))
  end.
Proof.
  intros Hs. rewrite (system_run_convert_eq w system s Hs).
  assert (Hsame : (exists s1, systems w !! system = Some s1
                     /\ produced s1 = produced s
                     /\ status s1 = status s
                     /\ (ra_resource (produced s) = None -> s1 = s))
                  /\ (forall p, allocated w p -> allocated w p)).
  { split; [exists s|]; auto. }
  destruct (amount_stored s =? 0); [|exact Hsame].
  destruct (ra_resource (consumed s)) as [a|] eqn:Hc; [|exact Hsame].
  destruct (resources w !! a) as [r|] eqn:Hr.
  2:{ split; [reflexivity|]. cbn. rewrite Hr. intros [? ?]. discriminate. }
  destruct (ra_amount (consumed s) <=? res_amount r); [|exact Hsame].
  unfold converted. split.
  - destruct (ra_resource (produced s)) eqn:Hp.
    + exists (after_convert s). cbn. rewrite lookup_insert_eq.
      unfold after_convert. rewrite Hp. repeat split. discriminate.
    + exists s. cbn. auto.
  - intros [b|]; [|trivial]. unfold allocated.
    assert (Hres : forall w0 : World,
      resources ((match ra_resource (produced s) with
                  | Some _ => set_systems (<[system := after_convert s]> (systems w))
                  | None => fun w' => w'
                  end) w0) = resources w0).
    { intros w0. destruct (ra_resource (produced s)); reflexivity. }
    rewrite Hres. cbn. rewrite lookup_insert_is_Some. intros Hb.
    destruct (decide (a = b)); [left|right]; auto.
Qed.

Lemma system_run_store_shape w system s :
  systems w !! system = Some s ->
  match system_run_store system w with
  | Ok (_, w2) =>
      exists s2, systems w2 !! system = Some s2
                 /\ (ra_resource (produced s) = None -> w2 = w)
  | Err e => e = BadPointer /\ ~ allocated w (ra_resource (produced s))
  end.
Proof.
  intros Hs. rewrite (system_run_store_eq w system s Hs).
  assert (Hsame : exists s2, systems w !! system = Some s2
                    /\ (ra_resource (produced s) = None -> w = w)).
  { exists s. auto. }
  destruct (0 <? amount_stored s); [|exact Hsame].
  destruct (ra_resource (produced s)) as [a|] eqn:Hp; [|exact Hsame].
  destruct (resources w !! a) as [r|] eqn:Hr.
  2:{ split; [reflexivity|]. cbn. rewrite Hr. intros [? ?]. discriminate. }
  cbv zeta.
  destruct (amount_stored s <=? _).
  { eexists. cbn. rewrite lookup_insert_eq. split; [reflexivity|discriminate]. }
  destruct (0 <? _).
  { eexists. cbn. rewrite lookup_insert_eq. split; [reflexivity|discriminate]. }
  exists s. cbn. split; [exact Hs|discriminate].
Qed.

Lemma system_run_unfold system w :
  system_run system w
  = match system_run_convert system w with
    | Ok (_, w1) => system_run_store system w1
    | Err e => Err e
    end.
Proof. reflexivity. Qed.

(** C10: [system_run] never dereferences a null resource pointer.  On any
    memory it does not fault on [NULL]; when the system pointer and the
    non-null resource pointers of the system are allocated it returns.  A
    null consumed resource makes [system_convert] return OK at once; a null
    produced resource makes [system_store_resources] return OK at once and
    [system_run] leaves [amount_stored] as it was (0 stays 0). *)
Theorem system_run_no_null_deref (w : World) (system : sys_ptr) :
  system_run system w <> Err NullDeref
  /\ (forall s, systems w !! system = Some s ->
        allocated w (ra_resource (consumed s)) ->
        allocated w (ra_resource (produced s)) ->
        exists w', system_run system w = Ok (tt, w'))
  /\ (forall s, systems w !! system = Some s ->
        ra_resource (consumed s) = None ->
        system_convert system w = Ok (STATUS_OK, w))
  /\ (forall s, systems w !! system = Some s ->
        ra_resource (produced s) = None ->
        system_store_resources system w = Ok (STATUS_OK, w)
        /\ forall w', system_run system w = Ok (tt, w') ->
                      stored_of system w' = Some (amount_stored s)).
Proof.
  split; [|split; [|split]].
  - rewrite system_run_unfold.
    destruct (systems w !! system) as [s|] eqn:Hs.
    2:{ unfold system_run_convert, bind, load_sys. rewrite Hs. discriminate. }
    pose proof (system_run_convert_shape w system s Hs) as H1.
    destruct (system_run_convert system w) as [[[] w1]|e].
    2:{ destruct H1 as [-> _]. discriminate. }
    destruct H1 as [(s1 & Hs1 & _) _].
    pose proof (system_run_store_shape w1 system s1 Hs1) as H2.
    destruct (system_run_store system w1) as [[[] w2]|e]; [discriminate|].
    destruct H2 as [-> _]. discriminate.
  - intros s Hs Hc Hp. rewrite system_run_unfold.
    pose proof (system_run_convert_shape w system s Hs) as H1.
    destruct (system_run_convert system w) as [[[] w1]|e].
    2:{ destruct H1 as [_ Hn]. contradiction. }
    destruct H1 as [(s1 & Hs1 & Hprod & _) Halloc].
    pose proof (system_run_store_shape w1 system s1 Hs1) as H2.
    destruct (system_run_store system w1) as [[[] w2]|e]; [eauto|].
    destruct H2 as [_ Hn]. exfalso. apply Hn. rewrite Hprod. auto.
  - intros s Hs Hc. apply (system_convert_null w system s Hs Hc).
  - intros s Hs Hp. split; [apply (system_store_resources_null w system s Hs Hp)|].
    intros w'. rewrite system_run_unfold.
    pose proof (system_run_convert_shape w system s Hs) as H1.
    destruct (system_run_convert system w) as [[[] w1]|e]; [|discriminate].
    destruct H1 as [(s1 & Hs1 & Hprod & _ & Heq) _].
    specialize (Heq Hp). subst s1.
    pose proof (system_run_store_shape w1 system s Hs1) as H2.
    intros Hrun. rewrite Hrun in H2. destruct H2 as (s2 & Hs2 & Heq).
    specialize (Heq Hp). subst w'. unfold stored_of. rewrite Hs1. reflexivity.
Qed.

(** ** The status of a system and its turn *)

Lemma process_delay_unscaled s :
  unscaled (status s) -> process_delay s = CInt.mul (processing_time s) 1000.
Proof.
  intros [H1 H2]. unfold process_delay.
  destruct (Z.eqb_spec (status s) SLOW); [contradiction|].
  destruct (Z.eqb_spec (status s) FAST); [contradiction|]. reflexivity.
Qed.

Section Status.
Variables (v : Z) (w : World) (system : sys_ptr) (s : System).
Hypothesis Hs : systems w !! system = Some s.
Hypothesis Hv : unscaled v.
Hypothesis Hstatus : unscaled (status s).

Lemma set_status_of_lookup :
  systems (set_status_of system v w) !! system = Some (set_status v s).
Proof. cbn. rewrite lookup_alter_eq, Hs. reflexivity. Qed.

Lemma system_run_convert_status :
  system_run_convert system (set_status_of system v w)
  = on_world (set_status_of system v) (system_run_convert system w).
Proof.
  rewrite (system_run_convert_eq _ system _ set_status_of_lookup).
  rewrite (system_run_convert_eq w system s Hs).
  cbn [amount_stored consumed set_status resources set_status_of set_systems].
  destruct (amount_stored s =? 0); [|reflexivity].
  destruct (ra_resource (consumed s)) as [a|]; [|reflexivity].
  destruct (resources w !! a) as [r|]; [|reflexivity].
  destruct (ra_amount (consumed s) <=? res_amount r); [|reflexivity].
  cbn [on_world]. do 2 f_equal.
  unfold converted, set_status_of, after_convert.
  rewrite !process_delay_unscaled by (assumption || (cbn; assumption)).
  cbn [produced set_status processing_time amount_stored].
  destruct (ra_resource (produced s)).
  - cbn. rewrite insert_alter_eq, alter_insert_eq. reflexivity.
  - reflexivity.
Qed.

Lemma system_run_store_status :
  system_run_store system (set_status_of system v w)
  = on_world (set_status_of system v) (system_run_store system w).
Proof.
  rewrite (system_run_store_eq _ system _ set_status_of_lookup).
  rewrite (system_run_store_eq w system s Hs).
  cbn [amount_stored produced set_status resources set_status_of set_systems].
  destruct (0 <? amount_stored s); [|reflexivity].
  destruct (ra_resource (produced s)) as [a|]; [|reflexivity].
  destruct (resources w !! a) as [r|]; [|reflexivity].
  cbv zeta.
  destruct (amount_stored s <=? _).
  { cbn [on_world]. do 2 f_equal. unfold deposited, set_status_of. cbn.
    rewrite insert_alter_eq, alter_insert_eq. reflexivity. }
  destruct (0 <? _); [|reflexivity].
  cbn [on_world]. do 2 f_equal. unfold reported, deposited, set_status_of. cbn.
  rewrite insert_alter_eq, alter_insert_eq. reflexivity.
Qed.

End Status.

Lemma system_run_status v w system s :
  systems w !! system = Some s -> unscaled v -> unscaled (status s) ->
  system_run system (set_status_of system v w)
  = on_world (set_status_of system v) (system_run system w).
Proof.
  intros Hs Hv Hst. rewrite !system_run_unfold.
  rewrite (system_run_convert_status v w system s Hs Hv Hst).
  pose proof (system_run_convert_shape w system s Hs) as H1.
  destruct (system_run_convert system w) as [[[] w1]|e]; [|reflexivity].
  destruct H1 as [(s1 & Hs1 & _) _]. cbn [on_world].
  apply (system_run_store_status v w1 system s1 Hs1).
Qed.

(** C9, as the code has it: [DISABLED] is not tested anywhere.  A turn of
    the worker loop of a system whose status is [DISABLED] runs the body,
    and does exactly what it does for the same system with status
    [STANDARD]: the same resources, [amount_stored], events and delays
    result, and the two memories differ only in that status field. *)
Theorem disabled_runs_as_standard (w : World) (system : sys_ptr) (s : System) :
  systems w !! system = Some s ->
  status s = DISABLED ->
  system_thread_iteration system w
  = on_world (set_status_of system DISABLED)
      (system_thread_iteration system (set_status_of system STANDARD w))
  /\ (forall again w',
        system_thread_iteration system w = Ok (again, w') -> again = true).
Proof.
  intros Hs Hd.
  assert (Hu : forall x, x = DISABLED \/ x = STANDARD -> unscaled x).
  { intros x [->| ->]; split; discriminate. }
  set (w0 := set_status_of system STANDARD w).
  assert (Hs0 : systems w0 !! system = Some (set_status STANDARD s)).
  { apply set_status_of_lookup, Hs. }
  assert (Hw : set_status_of system DISABLED w0 = w).
  { unfold w0, set_status_of, set_systems.
    destruct w as [sy re ru sa ra q sl]. cbn in *.
    f_equal. apply map_eq. intros p. destruct (decide (system = p)) as [<-|Hne].
    - rewrite !lookup_alter_eq, Hs. cbn. destruct s. cbn in *. subst. reflexivity.
    - rewrite !lookup_alter_ne by exact Hne. reflexivity. }
  assert (Hrun : system_run system w
                 = on_world (set_status_of system DISABLED) (system_run system w0)).
  { rewrite <- Hw at 1.
    apply (system_run_status DISABLED w0 system _ Hs0); apply Hu; auto. }
  assert (Hit : forall w1 s1 v, systems w1 !! system = Some s1 -> status s1 = v ->
                v <> TERMINATE ->
                system_thread_iteration system w1
                = match system_run system w1 with
                  | Ok (_, w2) => Ok (true, w2)
                  | Err e => Err e
                  end).
  { intros w1 s1 v0 Hs1 Hv0 Hne. unfold system_thread_iteration, bind at 1, load_sys.
    rewrite Hs1, Hv0. destruct (Z.eqb_spec v0 TERMINATE); [contradiction|].
    reflexivity. }
  rewrite (Hit w s DISABLED Hs Hd) by discriminate.
  rewrite (Hit w0 _ STANDARD Hs0 eq_refl) by discriminate.
  rewrite Hrun. split.
  - destruct (system_run system w0) as [[[] w2]|e]; reflexivity.
  - intros again w'. destruct (system_run system w0) as [[[] w2]|e]; cbn; congruence.
Qed.

(** ** The manager *)

Lemma retune_idem status resource s :
  retune status resource (retune status resource s) = retune status resource s.
Proof.
  unfold retune.
  destruct ((status =? TERMINATE)
            || bool_decide (ra_resource (produced s) = resource)) eqn:E;
    cbn [produced set_status]; rewrite E; reflexivity.
Qed.

Lemma retune_all_cons a arr status resource (m : gmap nat System) :
  retune_all (a :: arr) status resource m
  = retune_all arr status resource (alter (retune status resource) a m).
Proof. reflexivity. Qed.

Lemma retune_all_lookup arr status resource (m : gmap nat System) p :
  retune_all arr status resource m !! p
  = (if decide (p ∈ arr) then retune status resource else id) <$> m !! p.
Proof.
  revert m. induction arr as [|a arr IH]; intros m.
  - cbn. rewrite decide_False by apply not_elem_of_nil.
    destruct (m !! p); reflexivity.
  - rewrite retune_all_cons, IH. destruct (decide (a = p)) as [->|Hne].
    + rewrite lookup_alter_eq. rewrite (decide_True _ _ (list_elem_of_here p arr)).
      destruct (m !! p) as [s|]; [|reflexivity]. cbn.
      case_decide; [rewrite retune_idem|]; reflexivity.
    + rewrite lookup_alter_ne by exact Hne.
      destruct (decide (p ∈ arr)) as [Hin|Hnin].
      * rewrite decide_True by (right; exact Hin). reflexivity.
      * rewrite decide_False; [reflexivity|].
        intros Hin. apply elem_of_cons in Hin as [->|Hin]; contradiction.
Qed.

Lemma manager_update_systems_eq arr status resource w :
  (forall p, p ∈ arr -> is_Some (systems w !! p)) ->
  manager_update_systems arr status resource w
  = Ok (tt, set_systems (retune_all arr status resource (systems w)) w).
Proof.
  revert w. induction arr as [|a arr IH]; intros w Hall.
  - destruct w; reflexivity.
  - destruct (Hall a (list_elem_of_here a arr)) as [s Hs].
    assert (Hstep :
      (let! current_system := load_sys a in
       if (status =? TERMINATE)
          || bool_decide (ra_resource (produced current_system) = resource)
       then store_sys a (set_status status current_system)
       else ret tt) w
      = Ok (tt, set_systems (alter (retune status resource) a (systems w)) w)).
    { unfold_mem. rewrite Hs.
      assert (Halt : alter (retune status resource) a (systems w)
                     = <[a := retune status resource s]> (systems w)).
      { apply map_eq. intros p. destruct (decide (a = p)) as [->|Hne].
        - rewrite lookup_alter_eq, lookup_insert_eq, Hs. reflexivity.
        - rewrite lookup_alter_ne, lookup_insert_ne by exact Hne. reflexivity. }
      rewrite Halt. unfold retune.
      destruct (_ || _).
      - rewrite Hs. reflexivity.
      - rewrite insert_id by exact Hs. destruct w; reflexivity. }
    cbn [manager_update_systems]. unfold bind at 1.
    unfold bind at 1 in Hstep. unfold bind at 1.
    destruct (load_sys a w) as [[cs w0]|e] eqn:Hload.
    2:{ unfold load_sys in Hload. rewrite Hs in Hload. discriminate. }
    rewrite Hstep. rewrite IH.
    + reflexivity.
    + intros p Hp. cbn. rewrite lookup_alter_is_Some. apply Hall. right. exact Hp.
Qed.

(** C7: an event with status LOW, EMPTY or INSUFFICIENT on a resource whose
    name is not "Oxygen" makes the manager set to FAST the status of every
    system of [system_array] whose produced resource is the resource of the
    event; every other system, the resources, the run flag and the queue
    are left as they were, and the local [status] becomes FAST. *)
Theorem manager_speeds_up_producers (w : World) (status : Z) (event : Event)
    (a : nat) (r : Resource) :
  is_Some (systems w !! ev_system event) ->
  ev_resource event = Some a ->
  resources w !! a = Some r ->
  res_name r <> "Oxygen"%string ->
  ev_status event = STATUS_LOW \/ ev_status event = STATUS_EMPTY
  \/ ev_status event = STATUS_INSUFFICIENT ->
  (forall p, p ∈ system_array w -> is_Some (systems w !! p)) ->
  exists w',
    manager_handle_event status event w = Ok (FAST, w')
    /\ (forall p s, systems w !! p = Some s ->
          systems w' !! p
          = Some (if decide (p ∈ system_array w
                             /\ ra_resource (produced s) = ev_resource event)
                  then set_status FAST s else s))
    /\ (forall p, systems w !! p = None -> systems w' !! p = None)
    /\ resources w' = resources w
    /\ simulation_running w' = simulation_running w
    /\ event_queue w' = event_queue w.
Proof.
  intros [es Hes] Hres Hr Hname Hst Hall.
  assert (Hox : strcmp_eq (res_name r) "Oxygen" = false).
  { unfold strcmp_eq. apply String.eqb_neq. exact Hname. }
  assert (Hrun : manager_handle_event status event w
                 = Ok (FAST, set_systems
                               (retune_all (system_array w) FAST (Some a) (systems w))
                               w)).
  { unfold manager_handle_event. unfold bind at 1. unfold load_sys at 1.
    rewrite Hes. unfold bind at 1. unfold load_res at 1. rewrite Hres, Hr.
    rewrite Hox.
    assert (Hflags : (ev_status event =? STATUS_CAPACITY) = false
                     /\ ((ev_status event =? STATUS_LOW)
                         || (ev_status event =? STATUS_EMPTY)
                         || (ev_status event =? STATUS_INSUFFICIENT)) = true).
    { destruct Hst as [-> | [-> | ->]]; split; reflexivity. }
    destruct Hflags as [Hcap Hmore]. rewrite Hcap, Hmore.
    rewrite andb_false_r. cbn [andb orb].
    unfold bind at 1. unfold ret at 1. unfold bind at 1. unfold bind at 1.
    unfold get_system_array at 1.
    rewrite (manager_update_systems_eq _ FAST (Some a) w Hall). reflexivity. }
  eexists. split; [exact Hrun|]. cbn [systems resources simulation_running
                                       event_queue set_systems].
  split; [|split; [|auto]].
  - intros p s Hs. rewrite retune_all_lookup, Hs. cbn. f_equal.
    rewrite Hres. unfold retune. cbn [Z.eqb FAST TERMINATE orb].
    destruct (decide (p ∈ system_array w)) as [Hin|Hnin].
    + destruct (decide (ra_resource (produced s) = Some a)) as [Heq|Hne].
      * rewrite bool_decide_eq_true_2 by exact Heq.
        rewrite decide_True by auto. reflexivity.
      * rewrite bool_decide_eq_false_2 by exact Hne.
        rewrite decide_False by (intros [_ ?]; contradiction). reflexivity.
    + rewrite decide_False by (intros [? _]; contradiction). reflexivity.
  - intros p Hs. rewrite retune_all_lookup, Hs. reflexivity.
Qed.

(** *** The drain loop *)

(** The [for] of [manager_run] only writes to the systems. *)
Lemma manager_update_systems_effect arr status resource w :
  match manager_update_systems arr status resource w with
  | Ok (_, w') => exists m, w' = set_systems m w
  | Err e => e = BadPointer
  end.
Proof.
  revert w. induction arr as [|a arr IH]; intros w.
  - exists (systems w). destruct w; reflexivity.
  - cbn [manager_update_systems]. unfold_mem.
    destruct (systems w !! a) as [s|] eqn:Hs; [|reflexivity].
    destruct (_ || _).
    + rewrite Hs.
      specialize (IH (set_systems (<[a := set_status status s]> (systems w)) w)).
      destruct (manager_update_systems arr status resource _) as [[[] w']|e];
        [|exact IH].
      destruct IH as [m ->]. exists m. reflexivity.
    + specialize (IH w).
      destruct (manager_update_systems arr status resource w) as [[[] w']|e];
        [|exact IH].
      exact IH.
Qed.

(** One turn of the [while], with the reads done. *)
Lemma manager_handle_event_eq status event w es a r :
  systems w !! ev_system event = Some es ->
  ev_resource event = Some a ->
  resources w !! a = Some r ->
  let no_oxygen_flag :=
    (ev_status event =? STATUS_EMPTY) && strcmp_eq (res_name r) "Oxygen" in
  let distance_reached_flag :=
    (ev_status event =? STATUS_CAPACITY) && strcmp_eq (res_name r) "Distance" in
  let need_more_flag :=
    (ev_status event =? STATUS_LOW) || (ev_status event =? STATUS_EMPTY)
    || (ev_status event =? STATUS_INSUFFICIENT) in
  let need_less_flag := (ev_status event =? STATUS_CAPACITY) in
  let status' :=
    if no_oxygen_flag then TERMINATE
    else if distance_reached_flag then TERMINATE
    else if need_more_flag then FAST
    else if need_less_flag then SLOW
    else status in
  let w0 :=
    if no_oxygen_flag || distance_reached_flag
    then set_simulation_running 0 w else w in
  manager_handle_event status event w
  = if no_oxygen_flag || distance_reached_flag || need_more_flag || need_less_flag
    then match manager_update_systems (system_array w0) status' (Some a) w0 with
         | Ok (_, w') => Ok (status', w')
         | Err e => Err e
         end
    else Ok (status', w0).
Proof.
  intros Hes Hres Hr. cbv zeta.
  unfold manager_handle_event. unfold bind at 1. unfold load_sys at 1.
  rewrite Hes. unfold bind at 1. unfold load_res at 1. rewrite Hres, Hr.
  destruct ((ev_status event =? STATUS_EMPTY) && strcmp_eq (res_name r) "Oxygen");
    [reflexivity|].
  destruct ((ev_status event =? STATUS_CAPACITY)
            && strcmp_eq (res_name r) "Distance"); [reflexivity|].
  destruct ((ev_status event =? STATUS_LOW) || (ev_status event =? STATUS_EMPTY)
            || (ev_status event =? STATUS_INSUFFICIENT)); [reflexivity|].
  destruct (ev_status event =? STATUS_CAPACITY); reflexivity.
Qed.

(** One turn of the [while]: the queue and the resources are not touched,
    the run flag is left alone or cleared, and it is cleared on an EMPTY on
    "Oxygen". *)
Lemma manager_handle_event_effect status event w :
  match manager_handle_event status event w with
  | Ok (_, w') =>
      event_queue w' = event_queue w
      /\ resources w' = resources w
      /\ (simulation_running w' = simulation_running w
          \/ simulation_running w' = 0)
      /\ (oxygen_depleted w event -> simulation_running w' = 0)
  | Err e => e <> OutOfFuel
  end.
Proof.
  destruct (systems w !! ev_system event) as [es|] eqn:Hes.
  2:{ unfold manager_handle_event, bind, load_sys. rewrite Hes. discriminate. }
  destruct (ev_resource event) as [a|] eqn:Hres.
  2:{ unfold manager_handle_event, bind, load_sys, load_res.
      rewrite Hes, Hres. discriminate. }
  destruct (resources w !! a) as [r|] eqn:Hr.
  2:{ unfold manager_handle_event, bind, load_sys, load_res.
      rewrite Hes, Hres, Hr. discriminate. }
  rewrite (manager_handle_event_eq status event w es a r Hes Hres Hr).
  set (no_oxygen_flag := (ev_status event =? STATUS_EMPTY)
                         && strcmp_eq (res_name r) "Oxygen").
  assert (Hox : oxygen_depleted w event -> no_oxygen_flag = true).
  { intros (Hst & a' & r' & Ha' & Hr' & Hn). unfold no_oxygen_flag.
    rewrite Hst. replace r with r' by congruence. rewrite Hn. reflexivity. }
  set (flagged := no_oxygen_flag || _ || _ || _).
  set (stop := no_oxygen_flag || _).
  set (status' := if no_oxygen_flag then TERMINATE else _).
  set (w0 := if stop then set_simulation_running 0 w else w).
  assert (Hw0 : event_queue w0 = event_queue w /\ resources w0 = resources w
                /\ (simulation_running w0 = simulation_running w
                    \/ simulation_running w0 = 0)
                /\ (oxygen_depleted w event -> simulation_running w0 = 0)).
  { unfold w0. destruct stop eqn:Hstop.
    - cbn. auto.
    - repeat split; auto. intros H. apply Hox in H. unfold stop in Hstop.
      rewrite H in Hstop. discriminate. }
  destruct flagged; [|exact Hw0].
  pose proof (manager_update_systems_effect (system_array w0) status' (Some a) w0)
    as H.
  destruct (manager_update_systems (system_array w0) status' (Some a) w0)
    as [[[] w']|e].
  - destruct H as [m ->]. exact Hw0.
  - subst e. discriminate.
Qed.

(** The turn for an EMPTY on "Oxygen" does what it announces: every system
    of [system_array] is at TERMINATE and the run flag is 0 after it. *)
Lemma manager_terminates_on_oxygen status event w :
  is_Some (systems w !! ev_system event) ->
  oxygen_depleted w event ->
  (forall p, p ∈ system_array w -> is_Some (systems w !! p)) ->
  exists w',
    manager_handle_event status event w = Ok (TERMINATE, w')
    /\ simulation_running w' = 0
    /\ (forall p s, systems w !! p = Some s ->
          systems w' !! p
          = Some (if decide (p ∈ system_array w)
                  then set_status TERMINATE s else s)).
Proof.
  intros [es Hes] (Hst & a & r & Hres & Hr & Hn) Hall.
  rewrite (manager_handle_event_eq status event w es a r Hes Hres Hr).
  rewrite Hst, Hn.
  replace (strcmp_eq "Oxygen" "Oxygen") with true by reflexivity.
  replace (STATUS_EMPTY =? STATUS_EMPTY) with true by reflexivity.
  cbn [andb orb].
  rewrite (manager_update_systems_eq
             (system_array (set_simulation_running 0 w)) TERMINATE (Some a)
             (set_simulation_running 0 w) Hall).
  eexists. split; [reflexivity|]. split; [reflexivity|].
  intros p s Hs. cbn [systems set_systems set_simulation_running system_array].
  rewrite retune_all_lookup, Hs. cbn. f_equal.
  case_decide; reflexivity.
Qed.

Lemma pop_event_eq w :
  pop_event w
  = match head (event_queue w) with
    | [] => Ok (None, w)
    | e :: rest =>
        Ok (Some e,
            set_event_queue
              (mkEventQueue rest (CInt.sub (size (event_queue w)) 1)) w)
    end.
Proof.
  unfold pop_event, event_queue_pop. unfold_mem.
  destruct (head (event_queue w)); reflexivity.
Qed.

Lemma oxygen_depleted_resources w w' event :
  resources w' = resources w -> oxygen_depleted w event ->
  oxygen_depleted w' event.
Proof. intros Hre (? & a & r & ? & ? & ?). split; [auto|]. rewrite Hre. eauto. Qed.

(** The [while] of [manager_run] does not run out of turns, and it clears
    the run flag when the event at hand or an event of the queue is an
    EMPTY on "Oxygen". *)
Lemma manager_while_effect fuel :
  forall event_found status w,
    match event_found with
    | Some _ => (length (head (event_queue w)) < fuel)%nat
    | None => head (event_queue w) = []
    end ->
    match manager_while fuel event_found status w with
    | Ok (_, w') =>
        (simulation_running w = 0
         \/ (exists e, event_found = Some e /\ oxygen_depleted w e)
         \/ (exists e, e ∈ head (event_queue w) /\ oxygen_depleted w e)) ->
        simulation_running w' = 0
    | Err e => e <> OutOfFuel
    end.
Proof.
  assert (Hnone : forall fuel status w,
    head (event_queue w) = [] ->
    match manager_while fuel None status w with
    | Ok (_, w') =>
        (simulation_running w = 0
         \/ (exists e, @None Event = Some e /\ oxygen_depleted w e)
         \/ (exists e, e ∈ head (event_queue w) /\ oxygen_depleted w e)) ->
        simulation_running w' = 0
    | Err e => e <> OutOfFuel
    end).
  { intros f status w Hq. destruct f; cbn;
      (intros [H|[(e & He & _)|(e & He & _)]];
       [exact H | discriminate | rewrite Hq in He; apply elem_of_nil in He;
                                 contradiction]). }
  induction fuel as [|fuel IH]; intros event_found status w Hfuel.
  - destruct event_found as [e|]; [lia|]. apply Hnone, Hfuel.
  - destruct event_found as [e|]; [|apply Hnone, Hfuel].
    cbn [manager_while]. unfold bind at 1.
    pose proof (manager_handle_event_effect status e w) as H1.
    destruct (manager_handle_event status e w) as [[st' w1]|err]; [|exact H1].
    destruct H1 as (Hq & Hre & Hflag & Hox).
    unfold bind at 1. rewrite pop_event_eq, Hq.
    destruct (head (event_queue w)) as [|e2 rest] eqn:Hhead.
    + specialize (Hnone fuel st' w1). rewrite Hq, Hhead in Hnone.
      specialize (Hnone eq_refl).
      destruct (manager_while fuel None st' w1) as [[[] w']|err]; [|exact Hnone].
      intros [H|[(e' & He' & Hd)|(e' & He' & _)]]; apply Hnone.
      * left. destruct Hflag as [->| ->]; auto.
      * left. injection He' as <-. auto.
      * apply elem_of_nil in He'. contradiction.
    + set (w2 := set_event_queue
                   (mkEventQueue rest (CInt.sub (size (event_queue w)) 1)) w1).
      specialize (IH (Some e2) st' w2).
      cbn [length] in Hfuel.
      assert (Hlen : (length (head (event_queue w2)) < fuel)%nat) by (cbn; lia).
      specialize (IH Hlen).
      destruct (manager_while fuel (Some e2) st' w2) as [[[] w']|err]; [|exact IH].
      assert (Hre2 : resources w2 = resources w) by exact Hre.
      intros [H|[(e' & He' & Hd)|(e' & He' & Hd)]]; apply IH.
      * left. cbn. destruct Hflag as [->| ->]; auto.
      * left. cbn. injection He' as <-. auto.
      * apply elem_of_cons in He' as [->|He'].
        -- right. left. exists e2. split; [reflexivity|].
           apply (oxygen_depleted_resources w w2 e2 Hre2 Hd).
        -- right. right. exists e'. split; [exact He'|].
           apply (oxygen_depleted_resources w w2 e' Hre2 Hd).
Qed.

Lemma display_simulation_state_effect w :
  match display_simulation_state w with
  | Ok (_, w') => w' = w
  | Err e => e <> OutOfFuel
  end.
Proof.
  assert (Hr : forall arr, match display_resources arr w with
                           | Ok (_, w') => w' = w
                           | Err e => e <> OutOfFuel
                           end).
  { induction arr as [|a arr IH]; [reflexivity|].
    cbn [display_resources]. unfold_mem.
    destruct (resources w !! a); [exact IH|discriminate]. }
  assert (Hsys : forall arr, match display_systems arr w with
                             | Ok (_, w') => w' = w
                             | Err e => e <> OutOfFuel
                             end).
  { induction arr as [|a arr IH]; [reflexivity|].
    cbn [display_systems]. unfold_mem.
    destruct (systems w !! a); [exact IH|discriminate]. }
  unfold display_simulation_state, bind, get_resource_array, get_system_array.
  specialize (Hr (resource_array w)).
  destruct (display_resources (resource_array w) w) as [[[] w1]|e]; [|exact Hr].
  subst w1. apply Hsys.
Qed.

(** [manager_run] does not run out of turns: it takes one turn per event of
    the queue.  When it returns and the queue held an EMPTY on "Oxygen",
    [simulation_running] is 0. *)
Lemma manager_run_effect w :
  match manager_run w with
  | Ok (_, w') =>
      (exists e, e ∈ head (event_queue w) /\ oxygen_depleted w e) ->
      simulation_running w' = 0
  | Err e => e <> OutOfFuel
  end.
Proof.
  unfold manager_run. unfold bind at 1.
  pose proof (display_simulation_state_effect w) as Hd.
  destruct (display_simulation_state w) as [[[] w0]|e]; [|exact Hd].
  subst w0. unfold bind at 1. unfold get_queue at 1.
  unfold bind at 1. rewrite pop_event_eq.
  destruct (head (event_queue w)) as [|e rest] eqn:Hhead.
  - cbn. intros (e & He & _). apply elem_of_nil in He. contradiction.
  - set (w1 := set_event_queue
                 (mkEventQueue rest (CInt.sub (size (event_queue w)) 1)) w).
    pose proof (manager_while_effect (length (e :: rest)) (Some e) STANDARD w1)
      as H.
    assert (Hlen : (length (head (event_queue w1)) < length (e :: rest))%nat)
      by (cbn; lia).
    specialize (H Hlen).
    destruct (manager_while _ _ _ w1) as [[[] w']|err]; [|exact H].
    intros (e' & He' & Hox). apply H.
    apply elem_of_cons in He' as [->|He'].
    + right. left. exists e. split; [reflexivity|].
      apply (oxygen_depleted_resources w w1 e eq_refl Hox).
    + right. right. exists e'. split; [exact He'|].
      apply (oxygen_depleted_resources w w1 e' eq_refl Hox).
Qed.

(** ** Concrete runs *)

Ltac int_range :=
  unfold CInt.is_int, CInt.int_min, CInt.int_max; cbn; lia.

Lemma system_convert_outcomes_witness :
  observe 2%nat oxygen (system_convert 2%nat (oxygen_at 0))
  = Some (STATUS_EMPTY, Some 0, Some 0)
  /\ observe 1%nat energy
       (system_convert 1%nat
          (with_resource energy (mkResource "Energy" 2 50) load_data))
     = Some (STATUS_INSUFFICIENT, Some 2, Some 0)
  /\ (exists w',
        system_convert 1%nat load_data = Ok (STATUS_OK, w')
        /\ amount_of energy w' = Some 23).
Proof.
  split; [|split].
  - destruct (system_convert_outcomes (oxygen_at 0) 2%nat crew_capsule_system
                oxygen (mkResource "Oxygen" 0 50)) as (H & _ & _);
      [reflexivity | reflexivity | reflexivity | cbn; lia | int_range |].
    rewrite H by reflexivity. reflexivity.
  - destruct (system_convert_outcomes
                (with_resource energy (mkResource "Energy" 2 50) load_data)
                1%nat life_support_system energy (mkResource "Energy" 2 50))
      as (_ & H & _);
      [reflexivity | reflexivity | reflexivity | cbn; lia | int_range |].
    rewrite H by (cbn; lia). reflexivity.
  - destruct (system_convert_outcomes load_data 1%nat life_support_system
                energy (mkResource "Energy" 30 50)) as (_ & _ & H);
      [reflexivity | reflexivity | reflexivity | cbn; lia | int_range |].
    destruct H as (w' & Hrun & Hres); [cbn; lia|].
    exists w'. split; [exact Hrun|].
    unfold amount_of. rewrite Hres. reflexivity.
Defined.

Lemma system_store_resources_outcomes_witness :
  observe 1%nat oxygen
    (system_store_resources 1%nat (storing 1%nat life_support_system 4 load_data))
  = Some (STATUS_OK, Some 24, Some 0)
  /\ observe 1%nat oxygen
       (system_store_resources 1%nat
          (storing 1%nat life_support_system 4 (oxygen_at 48)))
     = Some (STATUS_CAPACITY, Some 50, Some 2)
  /\ observe 0%nat distance
       (system_store_resources 0%nat
          (storing 0%nat propulsion_system 25
             (with_resource distance (mkResource "Distance" 5000 5000) load_data)))
     = Some (STATUS_CAPACITY, Some 5000, Some 25).
Proof.
  split; [|split].
  - destruct (system_store_resources_outcomes
                (storing 1%nat life_support_system 4 load_data) 1%nat
                (set_amount_stored 4 life_support_system) oxygen
                (mkResource "Oxygen" 20 50)) as (H & _ & _);
      [reflexivity | reflexivity | reflexivity | cbn; lia
      | int_range | int_range | int_range | int_range |].
    rewrite H by (cbn; lia). reflexivity.
  - destruct (system_store_resources_outcomes
                (storing 1%nat life_support_system 4 (oxygen_at 48)) 1%nat
                (set_amount_stored 4 life_support_system) oxygen
                (mkResource "Oxygen" 48 50)) as (_ & H & _);
      [reflexivity | reflexivity | reflexivity | cbn; lia
      | int_range | int_range | int_range | int_range |].
    rewrite H by (cbn; lia). reflexivity.
  - destruct (system_store_resources_outcomes
                (storing 0%nat propulsion_system 25
                   (with_resource distance (mkResource "Distance" 5000 5000)
                      load_data)) 0%nat
                (set_amount_stored 25 propulsion_system) distance
                (mkResource "Distance" 5000 5000)) as (_ & _ & H);
      [reflexivity | reflexivity | reflexivity | cbn; lia
      | int_range | int_range | int_range | int_range |].
    rewrite H by reflexivity. reflexivity.
Defined.

Lemma resource_amount_within_capacity_witness :
  exists r',
    resources after_convert_and_store !! oxygen = Some r'
    /\ res_max_capacity r' = 50
    /\ 0 <= res_amount r' <= res_max_capacity r'.
Proof.
  apply (resource_amount_within_capacity oxygen (mkResource "Oxygen" 20 50)
           load_data after_convert_and_store);
    [reflexivity | int_range | cbn; lia |].
  eapply rtc_l.
  - eapply (op_consume _ _ 1%nat life_support_system);
      [reflexivity | cbn; lia | vm_compute; reflexivity].
  - eapply rtc_l; [|apply rtc_refl].
    eapply (op_produce _ _ 1%nat);
      [vm_compute; reflexivity | cbn; lia | vm_compute; reflexivity].
Defined.

(** C9 as stated fails: the turn of a [DISABLED] system consumes (Energy
    goes from 30 to 23), produces (Oxygen goes from 20 to 24) and sleeps. *)
Lemma disabled_turn_is_not_a_noop :
  status_of 1%nat disabled_life_support = Some DISABLED
  /\ amount_of energy disabled_life_support = Some 30
  /\ amount_of oxygen disabled_life_support = Some 20
  /\ exists w',
       system_thread_iteration 1%nat disabled_life_support = Ok (true, w')
       /\ amount_of energy w' = Some 23
       /\ amount_of oxygen w' = Some 24
       /\ sleeps w' = [10000].
Proof.
  do 3 (split; [reflexivity|]).
  eexists. split; [vm_compute; reflexivity|]. repeat split.
Qed.

Lemma disabled_runs_as_standard_witness :
  system_thread_iteration 1%nat disabled_life_support
  = on_world (set_status_of 1%nat DISABLED)
      (system_thread_iteration 1%nat
         (set_status_of 1%nat STANDARD disabled_life_support))
  /\ (forall again w',
        system_thread_iteration 1%nat disabled_life_support = Ok (again, w') ->
        again = true).
Proof.
  apply (disabled_runs_as_standard disabled_life_support 1%nat
           (set_status DISABLED life_support_system));
    reflexivity.
Defined.

(** C8 at a source: [system_convert] returns OK and [amount_stored] is
    still 0; the whole turn leaves the memory as it was. *)
Theorem source_converts_nothing :
  observe 4%nat energy (system_convert 4%nat with_solar)
  = Some (STATUS_OK, Some 30, Some 0)
  /\ system_run 4%nat with_solar = Ok (tt, with_solar).
Proof. split; reflexivity. Qed.

(** The part of C8 that the code does: a consume that succeeds on a
    non-null resource adds the nominal produced amount to [amount_stored]. *)
Lemma system_convert_stores_produced w system s a r p :
  systems w !! system = Some s ->
  ra_resource (consumed s) = Some a ->
  resources w !! a = Some r ->
  ra_resource (produced s) = Some p ->
  ra_amount (consumed s) <= res_amount r ->
  exists w',
    system_convert system w = Ok (STATUS_OK, w')
    /\ stored_of system w'
       = Some (CInt.add (amount_stored s) (ra_amount (produced s))).
Proof.
  intros Hs Hc Hr Hp Hle.
  rewrite (system_convert_enough w system s Hs a r Hc Hr Hle).
  eexists. split; [reflexivity|]. rewrite Hp. unfold stored_of. cbn.
  rewrite lookup_insert_eq. unfold after_convert. rewrite Hp. reflexivity.
Qed.

Lemma system_run_no_null_deref_witness :
  (exists w', system_run 2%nat load_data = Ok (tt, w'))
  /\ system_convert 4%nat with_solar = Ok (STATUS_OK, with_solar)
  /\ system_store_resources 2%nat load_data = Ok (STATUS_OK, load_data).
Proof.
  split; [|split].
  - destruct (system_run_no_null_deref load_data 2%nat) as (_ & H & _).
    apply (H crew_capsule_system); [reflexivity | vm_compute; eauto | exact I].
  - destruct (system_run_no_null_deref with_solar 4%nat) as (_ & _ & H & _).
    apply (H solar_system); reflexivity.
  - destruct (system_run_no_null_deref load_data 2%nat) as (_ & _ & _ & H).
    apply (H crew_capsule_system); reflexivity.
Defined.

(** C6 on the queue that one turn of Crew and one turn of Life Support
    leave from [starved]: the queue holds the EMPTY event on Oxygen and,
    behind it, the INSUFFICIENT event on Energy.  [manager_run] sets every
    status to TERMINATE on the first event, and on the second sets the
    status of Generator, which produces Energy, to FAST.  When it returns,
    [simulation_running] is 0 and Generator is not at TERMINATE. *)
Theorem terminate_is_overwritten :
  exists w1 w2,
    (system_run 2%nat >> system_run 1%nat) starved = Ok (tt, w1)
    /\ head (event_queue w1) = [oxygen_empty; energy_insufficient]
    /\ manager_run w1 = Ok (tt, w2)
    /\ simulation_running w2 = 0
    /\ status_of 0%nat w2 = Some TERMINATE
    /\ status_of 1%nat w2 = Some TERMINATE
    /\ status_of 2%nat w2 = Some TERMINATE
    /\ status_of 3%nat w2 = Some FAST.
Proof.
  eexists. eexists.
  split; [vm_compute; reflexivity|].
  split; [reflexivity|].
  split; [vm_compute; reflexivity|].
  repeat split.
Qed.

Lemma manager_speeds_up_producers_witness :
  exists w',
    manager_handle_event STANDARD energy_insufficient load_data = Ok (FAST, w')
    /\ status_of 3%nat w' = Some FAST
    /\ status_of 0%nat w' = Some STANDARD
    /\ status_of 1%nat w' = Some STANDARD
    /\ status_of 2%nat w' = Some STANDARD
    /\ resources w' = resources load_data
    /\ simulation_running w' = 1.
Proof.
  destruct (manager_speeds_up_producers load_data STANDARD energy_insufficient
              energy (mkResource "Energy" 30 50))
    as (w' & Hrun & Hsys & _ & Hres & Hflag & _).
  - vm_compute. eauto.
  - reflexivity.
  - reflexivity.
  - discriminate.
  - right. right. reflexivity.
  - intros p Hp. cbn in Hp.
    repeat (apply elem_of_cons in Hp as [->|Hp]; [vm_compute; eauto|]).
    apply elem_of_nil in Hp. contradiction.
  - exists w'. split; [exact Hrun|].
    unfold status_of.
    rewrite (Hsys 3%nat generator_system eq_refl).
    rewrite (Hsys 0%nat propulsion_system eq_refl).
    rewrite (Hsys 1%nat life_support_system eq_refl).
    rewrite (Hsys 2%nat crew_capsule_system eq_refl).
    rewrite Hres, Hflag. repeat split.
Defined.

(** * Properties of the rest of the code *)

(** ** event.c *)

Lemma push_scan_split l e :
  exists before after,
    l = before ++ after
    /\ push_scan l e = before ++ e :: after
    /\ Forall (fun x => ev_priority e <= ev_priority x) before
    /\ match after with
       | [] => True
       | x :: _ => ev_priority x < ev_priority e
       end.
Proof.
  induction l as [|n rest IH].
  - exists [], []. repeat split. constructor.
  - cbn [push_scan]. destruct (Z.leb_spec (ev_priority e) (ev_priority n)).
    + destruct IH as (before & after & -> & Hp & Hb & Ha).
      exists (n :: before), after. rewrite Hp. repeat split; [|exact Ha].
      constructor; assumption.
    + exists [], (n :: rest). repeat split; [constructor|assumption].
Qed.

(** X1: [event_queue_push] links the new node in right before the first
    node of strictly lower priority (at the end when there is none): every
    node kept in front of it has a priority at least as high, the nodes
    keep their order, and [size] is incremented. *)
Theorem event_queue_push_position (queue : EventQueue) (event : Event) :
  exists before after,
    head queue = before ++ after
    /\ head (event_queue_push queue event) = before ++ event :: after
    /\ Forall (fun x => ev_priority event <= ev_priority x) before
    /\ match after with
       | [] => True
       | x :: _ => ev_priority x < ev_priority event
       end
    /\ size (event_queue_push queue event) = CInt.add (size queue) 1.
Proof.
  rewrite event_queue_push_head.
  destruct (push_scan_split (head queue) event) as (b & a & H1 & H2 & H3 & H4).
  exists b, a. repeat split; assumption.
Qed.

Lemma int_wrap_sub_add s : CInt.is_int s -> CInt.sub (CInt.add s 1) 1 = s.
Proof.
  intros Hs. unfold CInt.sub, CInt.add.
  replace (CInt.int_wrap (s + 1) - 1) with (CInt.int_wrap (s + 1) + -1) by lia.
  rewrite int_wrap_add_l. replace (s + 1 + -1) with s by lia.
  apply int_wrap_id, Hs.
Qed.

(** X2: an event pushed on a queue that is empty, or whose first event has
    a strictly lower priority, is the next one popped, and the pop gives
    the queue back as it was before the push ([size] included, also at
    [INT_MAX], where the counter wraps and comes back). *)
Theorem event_queue_push_pop_urgent (queue : EventQueue) (event : Event) :
  CInt.is_int (size queue) ->
  match head queue with
  | [] => True
  | first :: _ => ev_priority first < ev_priority event
  end ->
  event_queue_pop (event_queue_push queue event) = Some (event, queue).
Proof.
  intros Hs Hfirst. destruct queue as [l s]. cbn [head size] in *.
  unfold event_queue_pop, event_queue_push. cbn [head size].
  destruct l as [|first rest].
  - rewrite int_wrap_sub_add by exact Hs. reflexivity.
  - destruct (Z.ltb_spec (ev_priority first) (ev_priority event)); [|lia].
    rewrite int_wrap_sub_add by exact Hs. reflexivity.
Qed.

Lemma event_queue_push_pop_urgent_witness :
  event_queue_pop
    (event_queue_push
       (event_queue_push event_queue_init
          (event_init 0%nat (Some distance) STATUS_CAPACITY PRIORITY_LOW 5000))
       oxygen_empty)
  = Some (oxygen_empty,
          event_queue_push event_queue_init
            (event_init 0%nat (Some distance) STATUS_CAPACITY PRIORITY_LOW 5000)).
Proof.
  apply event_queue_push_pop_urgent; [vm_compute; split; discriminate | vm_compute; reflexivity].
Defined.

Lemma queue_inv_init : queue_inv event_queue_init.
Proof. split; [constructor|reflexivity]. Qed.

Lemma queue_inv_push queue event :
  queue_inv queue -> queue_inv (event_queue_push queue event).
Proof.
  intros [Hs Hn]. split.
  - rewrite event_queue_push_head. apply push_scan_sorted, Hs.
  - rewrite event_queue_push_head, (push_scan_perm (head queue) event).
    cbn [event_queue_push size length]. rewrite Hn. unfold CInt.add.
    rewrite int_wrap_add_l. f_equal. lia.
Qed.

Lemma queue_inv_pop queue event queue' :
  queue_inv queue -> event_queue_pop queue = Some (event, queue') ->
  queue_inv queue'
  /\ head queue = event :: head queue'
  /\ Forall (fun x => ev_priority x <= ev_priority event) (head queue').
Proof.
  intros [Hs Hn]. unfold event_queue_pop.
  destruct (head queue) as [|e rest] eqn:Hh; [discriminate|].
  intros [= <- <-]. unfold queue_inv. cbn [head size].
  inversion Hs as [|? ? Hrest Hall]; subst.
  split; [split; [exact Hrest|]|split; [reflexivity|exact Hall]].
  rewrite Hn. unfold CInt.sub.
  replace (CInt.int_wrap (Z.of_nat (length (e :: rest))) - 1)
    with (CInt.int_wrap (Z.of_nat (length (e :: rest))) + -1) by lia.
  rewrite int_wrap_add_l. f_equal. cbn [length]. lia.
Qed.

Lemma queue_inv_ops ops queue :
  queue_inv queue -> queue_inv (run_queue_ops queue ops).
Proof.
  revert queue. induction ops as [|op ops IH]; intros queue Hq; [exact Hq|].
  cbn [run_queue_ops foldl]. apply IH. destruct op as [e|]; cbn [apply_queue_op].
  - apply queue_inv_push, Hq.
  - destruct (event_queue_pop queue) as [[e q']|] eqn:Hpop; [|exact Hq].
    apply (queue_inv_pop queue e q' Hq Hpop).
Qed.

(** X3: after any interleaving of pushes and pops from the empty queue (a
    pop on an empty queue changes nothing), the chain has non-increasing
    priority and [size] is the number of nodes, as a 32-bit [int]; below
    2^31 nodes it is the number itself. *)
Theorem event_queue_size_counts_nodes (ops : list queue_op) :
  let queue := run_queue_ops event_queue_init ops in
  StronglySorted (fun a b => ev_priority a >= ev_priority b) (head queue)
  /\ size queue = CInt.int_wrap (Z.of_nat (length (head queue)))
  /\ (Z.of_nat (length (head queue)) <= CInt.int_max ->
      size queue = Z.of_nat (length (head queue))).
Proof.
  intros queue.
  destruct (queue_inv_ops ops event_queue_init queue_inv_init) as [Hs Hn].
  fold queue in Hs, Hn. split; [|split; [exact Hn|]].
  - clear -Hs. induction Hs as [|a l _ IH Ha]; constructor; [exact IH|].
    eapply Forall_impl; [exact Ha|]. unfold prio_ge. cbn. intros; lia.
  - intros Hle. rewrite Hn. apply int_wrap_id.
    unfold CInt.is_int, CInt.int_min, CInt.int_max in *. lia.
Qed.

(** X4: on a queue reached by any interleaving of pushes and pops from the
    empty queue, a pop that succeeds returns the first node, an event whose
    priority is at least that of every event left in the queue. *)
Theorem event_queue_pop_highest (ops : list queue_op) (event : Event)
    (queue' : EventQueue) :
  event_queue_pop (run_queue_ops event_queue_init ops) = Some (event, queue') ->
  head (run_queue_ops event_queue_init ops) = event :: head queue'
  /\ Forall (fun x => ev_priority x <= ev_priority event) (head queue').
Proof.
  intros Hpop.
  pose proof (queue_inv_ops ops event_queue_init queue_inv_init) as Hq.
  destruct (queue_inv_pop _ event queue' Hq Hpop) as (_ & H1 & H2). auto.
Qed.

Lemma event_queue_pop_highest_witness :
  exists queue',
    event_queue_pop (run_queue_ops event_queue_init two_low_one_high)
    = Some (oxygen_empty, queue')
    /\ Forall (fun x => ev_priority x <= PRIORITY_HIGH) (head queue').
Proof.
  eexists. split; [reflexivity|].
  apply (event_queue_pop_highest two_low_one_high oxygen_empty). reflexivity.
Defined.

(** ** system.c: a whole turn *)

Lemma system_run_convert_outcome w system s w1 :
  systems w !! system = Some s ->
  system_run_convert system w = Ok (tt, w1) ->
  convert_outcome system s w w1.
Proof.
  intros Hs. rewrite (system_run_convert_eq w system s Hs).
  destruct (Z.eqb_spec (amount_stored s) 0) as [Hz|Hnz].
  2:{ intros [= <-]. apply co_skip, Hnz. }
  destruct (ra_resource (consumed s)) as [a|] eqn:Hc.
  2:{ intros [= <-]. apply co_source; assumption. }
  destruct (resources w !! a) as [r|] eqn:Hr; [|discriminate].
  destruct (Z.leb_spec (ra_amount (consumed s)) (res_amount r)).
  - intros [= <-]. apply co_done; assumption.
  - intros [= <-]. apply co_short; assumption.
Qed.

Lemma system_run_store_outcome w system s w2 :
  systems w !! system = Some s ->
  system_run_store system w = Ok (tt, w2) ->
  store_outcome system s w w2.
Proof.
  intros Hs. rewrite (system_run_store_eq w system s Hs).
  destruct (Z.ltb_spec 0 (amount_stored s)) as [Hpos|Hnpos].
  2:{ intros [= <-]. apply so_skip, Hnpos. }
  destruct (ra_resource (produced s)) as [a|] eqn:Hp.
  2:{ intros [= <-]. apply so_sink; assumption. }
  destruct (resources w !! a) as [r|] eqn:Hr; [|discriminate].
  cbv zeta.
  destruct (Z.leb_spec (amount_stored s)
              (CInt.sub (res_max_capacity r) (res_amount r))).
  { intros [= <-]. apply so_all; assumption. }
  destruct (Z.ltb_spec 0 (CInt.sub (res_max_capacity r) (res_amount r))).
  - intros [= <-]. apply so_part; auto.
  - intros [= <-]. apply so_full; assumption.
Qed.

(** A turn is its first [if], then its second [if] on what the first left. *)
Lemma system_run_outcome w system s w' :
  systems w !! system = Some s ->
  system_run system w = Ok (tt, w') ->
  exists w1 s1,
    convert_outcome system s w w1
    /\ systems w1 !! system = Some s1
    /\ store_outcome system s1 w1 w'.
Proof.
  intros Hs. rewrite system_run_unfold.
  pose proof (system_run_convert_shape w system s Hs) as Hshape.
  destruct (system_run_convert system w) as [[[] w1]|e] eqn:H1; [|discriminate].
  destruct Hshape as [(s1 & Hs1 & _) _]. intros H2.
  exists w1, s1. split; [|split; [exact Hs1|]].
  - apply system_run_convert_outcome; assumption.
  - apply system_run_store_outcome; assumption.
Qed.

Lemma same_config_refl s : same_config s s.
Proof. repeat split. Qed.

Lemma worker_frame_refl system s w :
  systems w !! system = Some s -> worker_frame system s w w.
Proof.
  intros Hs. repeat split; auto. exists s. split; [exact Hs|apply same_config_refl].
Qed.

Lemma worker_frame_reported system s event w :
  systems w !! system = Some s -> worker_frame system s w (reported event w).
Proof.
  intros Hs. repeat split; auto. exists s. split; [exact Hs|apply same_config_refl].
Qed.

Lemma worker_frame_trans system s s1 w w1 w2 :
  worker_frame system s w w1 ->
  systems w1 !! system = Some s1 ->
  worker_frame system s1 w1 w2 ->
  worker_frame system s w w2.
Proof.
  intros (F1 & F2 & F3 & F4 & (s1' & Hs1' & C1) & F6) Hs1
         (G1 & G2 & G3 & G4 & (s2 & Hs2 & C2) & G6).
  assert (s1' = s1) by congruence. subst s1'.
  destruct C1 as (C11 & C12 & C13 & C14 & C15).
  destruct C2 as (C21 & C22 & C23 & C24 & C25).
  split; [congruence|]. split; [congruence|]. split; [congruence|].
  split; [intros p Hp; rewrite G4, F4 by exact Hp; reflexivity|].
  split; [exists s2; split; [exact Hs2|repeat split; congruence]|].
  intros a. destruct (F6 a) as [Fa|(Fwho & r & r1 & Fr & Fr1 & Fn & Fm)];
    destruct (G6 a) as [Ga|(Gwho & r1' & r2 & Gr1 & Gr2 & Gn & Gm)].
  - left. congruence.
  - right. rewrite C12, C13 in Gwho. split; [exact Gwho|].
    exists r1', r2. rewrite <- Fa. auto.
  - right. split; [exact Fwho|]. exists r, r1. rewrite Ga. auto.
  - right. split; [exact Fwho|]. assert (r1' = r1) by congruence. subst r1'.
    exists r, r2. repeat split; auto; congruence.
Qed.

Lemma insert_amount_frame (m : gmap nat Resource) a r v (s : System) x :
  m !! a = Some r ->
  ra_resource (consumed s) = Some a \/ ra_resource (produced s) = Some a ->
  <[a := set_res_amount v r]> m !! x = m !! x
  \/ ((ra_resource (consumed s) = Some x \/ ra_resource (produced s) = Some x)
      /\ exists r0 r', m !! x = Some r0
                       /\ <[a := set_res_amount v r]> m !! x = Some r'
                       /\ res_name r' = res_name r0
                       /\ res_max_capacity r' = res_max_capacity r0).
Proof.
  intros Hr Hwho. destruct (decide (a = x)) as [<-|Hne].
  - right. split; [exact Hwho|]. exists r. eexists.
    rewrite lookup_insert_eq. auto.
  - left. apply lookup_insert_ne, Hne.
Qed.

Lemma convert_outcome_frame system s w w1 :
  systems w !! system = Some s ->
  convert_outcome system s w w1 -> worker_frame system s w w1.
Proof.
  intros Hs [Hnz|Hz Hc|a r Hz Hc Hr Hlt|a r Hz Hc Hr Hle];
    [apply worker_frame_refl, Hs | apply worker_frame_refl, Hs
    | apply worker_frame_reported, Hs |].
  unfold converted, worker_frame.
  destruct (ra_resource (produced s)) eqn:Hp.
  - do 3 (split; [reflexivity|]).
    split; [intros p Hp'; cbn; apply lookup_insert_ne; auto|].
    split.
    + exists (after_convert s). cbn. rewrite lookup_insert_eq.
      split; [reflexivity|]. unfold after_convert. rewrite Hp. repeat split.
    + intros x. rewrite <- Hp.
      apply (insert_amount_frame (resources w) a r _ s x Hr). auto.
  - do 3 (split; [reflexivity|]).
    split; [intros p Hp'; reflexivity|].
    split.
    + exists s. split; [exact Hs|apply same_config_refl].
    + intros x. rewrite <- Hp.
      apply (insert_amount_frame (resources w) a r _ s x Hr). auto.
Qed.

Lemma deposited_frame system s w a r leftover amount :
  resources w !! a = Some r -> ra_resource (produced s) = Some a ->
  worker_frame system s w (deposited system s a r leftover amount w).
Proof.
  intros Hr Hp. do 3 (split; [reflexivity|]).
  split; [intros p Hp'; cbn; apply lookup_insert_ne; auto|].
  split.
  - eexists. cbn. rewrite lookup_insert_eq. split; [reflexivity|]. repeat split.
  - intros x. apply (insert_amount_frame (resources w) a r _ s x Hr). auto.
Qed.

Lemma store_outcome_frame system s w w2 :
  systems w !! system = Some s ->
  store_outcome system s w w2 -> worker_frame system s w w2.
Proof.
  intros Hs [Hle|Hpos Hp|a r Hpos Hp Hr Hle|a r Hpos Hp Hr Hlt|a r Hpos Hp Hr Hle].
  - apply worker_frame_refl, Hs.
  - apply worker_frame_refl, Hs.
  - apply deposited_frame; assumption.
  - exact (deposited_frame system s w a r _ _ Hr Hp).
  - apply worker_frame_reported, Hs.
Qed.

Lemma system_run_worker_frame w system s w' :
  systems w !! system = Some s ->
  system_run system w = Ok (tt, w') ->
  worker_frame system s w w'.
Proof.
  intros Hs Hrun.
  destruct (system_run_outcome w system s w' Hs Hrun) as (w1 & s1 & H1 & Hs1 & H2).
  eapply worker_frame_trans.
  - apply convert_outcome_frame; eassumption.
  - exact Hs1.
  - apply store_outcome_frame; assumption.
Qed.

(** X5: what a turn of a worker never writes.  When [system_run] returns,
    the run flag and the two arrays are as before, every other system is
    as before, the system itself has the same name, consumed and produced
    pairs, processing time and status (only [amount_stored] can differ),
    and every resource that is neither its consumed nor its produced
    resource is as before; those two keep their name and capacity. *)
Theorem system_run_frame (w w' : World) (system : sys_ptr) (s : System) :
  systems w !! system = Some s ->
  system_run system w = Ok (tt, w') ->
  simulation_running w' = simulation_running w
  /\ system_array w' = system_array w
  /\ resource_array w' = resource_array w
  /\ (forall p, p <> system -> systems w' !! p = systems w !! p)
  /\ (exists s', systems w' !! system = Some s'
                 /\ sys_name s' = sys_name s /\ consumed s' = consumed s
                 /\ produced s' = produced s
                 /\ processing_time s' = processing_time s
                 /\ status s' = status s)
  /\ (forall a,
        ra_resource (consumed s) <> Some a ->
        ra_resource (produced s) <> Some a ->
        resources w' !! a = resources w !! a)
  /\ (forall a r, resources w !! a = Some r ->
        exists r', resources w' !! a = Some r'
                   /\ res_name r' = res_name r
                   /\ res_max_capacity r' = res_max_capacity r).
Proof.
  intros Hs Hrun.
  destruct (system_run_worker_frame w system s w' Hs Hrun)
    as (F1 & F2 & F3 & F4 & (s' & Hs' & C) & F6).
  repeat split; auto.
  - exists s'. split; [exact Hs'|exact C].
  - intros a Hc Hp. destruct (F6 a) as [H|([H|H] & _)]; [exact H|contradiction..].
  - intros a r Hr. destruct (F6 a) as [H|(_ & r0 & r' & Hr0 & Hr' & Hn & Hm)].
    + exists r. rewrite H. auto.
    + assert (r0 = r) by congruence. subst r0. exists r'. auto.
Qed.

Lemma system_run_frame_witness :
  let w' := world_after (system_run 1%nat load_data) load_data in
  simulation_running w' = 1
  /\ systems w' !! 3%nat = Some generator_system
  /\ resources w' !! fuel = Some (mkResource "Fuel" 1000 1000)
  /\ status_of 1%nat w' = Some STANDARD.
Proof.
  intros w'.
  destruct (system_run_frame load_data w' 1%nat life_support_system eq_refl)
    as (H1 & _ & _ & H4 & (s' & Hs' & _ & _ & _ & _ & Hst) & H6 & _).
  - vm_compute. reflexivity.
  - split; [exact H1|]. split; [rewrite H4 by discriminate; reflexivity|].
    split; [rewrite H6 by discriminate; reflexivity|].
    unfold status_of. rewrite Hs'. cbn. rewrite Hst. reflexivity.
Defined.

(** X6: a turn that cannot consume.  With an empty buffer and less of the
    consumed resource than the system needs, [system_run] changes no
    resource and no system: it pushes one event for the consumed resource
    (priority HIGH, status EMPTY when the amount is 0 and INSUFFICIENT
    otherwise, the amount as read) and sleeps the back-off once. *)
Theorem system_run_starved (w : World) (system : sys_ptr) (s : System)
    (a : nat) (r : Resource) :
  systems w !! system = Some s ->
  amount_stored s = 0 ->
  ra_resource (consumed s) = Some a ->
  resources w !! a = Some r ->
  res_amount r < ra_amount (consumed s) ->
  system_run system w
  = Ok (tt,
        set_sleeps (CInt.mul SYSTEM_WAIT_TIME 1000 :: sleeps w)
          (set_event_queue
             (event_queue_push (event_queue w)
                (mkEvent system (Some a)
                   (if res_amount r =? 0 then STATUS_EMPTY
                    else STATUS_INSUFFICIENT)
                   PRIORITY_HIGH (res_amount r)))
             w)).
Proof.
  intros Hs Hz Hc Hr Hlt. rewrite system_run_unfold.
  rewrite (system_run_convert_eq w system s Hs), Hz, Hc, Hr. cbn [Z.eqb].
  destruct (Z.leb_spec (ra_amount (consumed s)) (res_amount r)); [lia|].
  rewrite (system_run_store_eq _ system s) by exact Hs.
  rewrite Hz. reflexivity.
Qed.

Lemma system_run_starved_witness :
  system_run 1%nat (with_resource energy (mkResource "Energy" 2 50) load_data)
  = Ok (tt,
        set_sleeps [20000]
          (set_event_queue
             (event_queue_push event_queue_init energy_insufficient)
             (with_resource energy (mkResource "Energy" 2 50) load_data))).
Proof.
  rewrite (system_run_starved
             (with_resource energy (mkResource "Energy" 2 50) load_data)
             1%nat life_support_system energy (mkResource "Energy" 2 50)
             eq_refl eq_refl eq_refl eq_refl ltac:(cbn; lia)).
  reflexivity.
Defined.

(** The first [if] either leaves the queue alone, or it failed to consume
    and pushed its event; then the buffer is still empty. *)
Lemma convert_outcome_queue system s w w1 :
  systems w !! system = Some s ->
  convert_outcome system s w w1 ->
  (event_queue w1 = event_queue w
   /\ exists s1, systems w1 !! system = Some s1 /\ produced s1 = produced s)
  \/ (amount_stored s = 0 /\ systems w1 !! system = Some s
      /\ exists a r,
           ra_resource (consumed s) = Some a /\ resources w !! a = Some r
           /\ w1 = reported (event_init system (Some a)
                               (if res_amount r =? 0 then STATUS_EMPTY
                                else STATUS_INSUFFICIENT)
                               PRIORITY_HIGH (res_amount r)) w).
Proof.
  intros Hs [Hnz|Hz Hc|a r Hz Hc Hr Hlt|a r Hz Hc Hr Hle].
  - left. split; [reflexivity|]. exists s. auto.
  - left. split; [reflexivity|]. exists s. auto.
  - right. split; [exact Hz|]. split; [exact Hs|]. exists a, r. auto.
  - left. unfold converted. destruct (ra_resource (produced s)) eqn:Hp.
    + split; [reflexivity|]. exists (after_convert s). cbn.
      rewrite lookup_insert_eq. split; [reflexivity|].
      unfold after_convert. rewrite Hp. reflexivity.
    + split; [reflexivity|]. exists s. auto.
Qed.

(** The second [if] either leaves the queue alone, or it pushed a CAPACITY
    event for the produced resource, with the amount that resource has. *)
Lemma store_outcome_queue system s w w2 :
  store_outcome system s w w2 ->
  event_queue w2 = event_queue w
  \/ (0 < amount_stored s
      /\ exists a amount,
           ra_resource (produced s) = Some a
           /\ amount_of a w2 = Some amount
           /\ event_queue w2
              = event_queue_push (event_queue w)
                  (event_init system (Some a) STATUS_CAPACITY PRIORITY_LOW amount)
           /\ exists rest, sleeps w2 = backoff :: rest).
Proof.
  intros [Hle|Hpos Hp|a r Hpos Hp Hr Hle|a r Hpos Hp Hr Hlt|a r Hpos Hp Hr Hle].
  - left. reflexivity.
  - left. reflexivity.
  - left. reflexivity.
  - right. split; [exact Hpos|]. exists a. eexists. split; [exact Hp|].
    split; [unfold amount_of; cbn; rewrite lookup_insert_eq; reflexivity|].
    split; [reflexivity|]. eexists. reflexivity.
  - right. split; [exact Hpos|]. exists a. eexists. split; [exact Hp|].
    split; [unfold amount_of; cbn; rewrite Hr; reflexivity|].
    split; [reflexivity|]. eexists. reflexivity.
Qed.

Lemma system_run_event_cases (w w' : World) (system : sys_ptr) (s : System) :
  systems w !! system = Some s ->
  system_run system w = Ok (tt, w') ->
  event_queue w' = event_queue w
  \/ exists event,
       event_queue w' = event_queue_push (event_queue w) event
       /\ ev_system event = system
       /\ (exists rest, sleeps w' = CInt.mul SYSTEM_WAIT_TIME 1000 :: rest)
       /\ (exists a, ev_resource event = Some a
                     /\ amount_of a w' = Some (ev_amount event))
       /\ ((ev_priority event = PRIORITY_HIGH
            /\ ev_resource event = ra_resource (consumed s)
            /\ (ev_status event = STATUS_EMPTY
                \/ ev_status event = STATUS_INSUFFICIENT)
            /\ resources w' = resources w)
           \/ (ev_priority event = PRIORITY_LOW
               /\ ev_resource event = ra_resource (produced s)
               /\ ev_status event = STATUS_CAPACITY)).
Proof.
  intros Hs Hrun.
  destruct (system_run_outcome w system s w' Hs Hrun) as (w1 & s1 & H1 & Hs1 & H2).
  destruct (convert_outcome_queue system s w w1 Hs H1)
    as [(Hq1 & s1' & Hs1' & Hprod)|(Hz & Hs1' & a & r & Hc & Hr & Hw1)].
  - assert (s1' = s1) by congruence. subst s1'.
    destruct (store_outcome_queue system s1 w1 w' H2)
      as [Hq2|(_ & a & amount & Hp & Ham & Hq2 & Hsl)].
    + left. congruence.
    + right. eexists. rewrite <- Hq1. split; [exact Hq2|].
      split; [reflexivity|]. split; [exact Hsl|].
      split; [exists a; split; [reflexivity|exact Ham]|].
      right. rewrite <- Hprod, Hp. repeat split.
  - assert (s1 = s) by congruence. subst s1.
    assert (w' = w1).
    { destruct H2 as [Hle|Hpos Hp|b rb Hpos Hp Hrb Hle|b rb Hpos Hp Hrb Hlt'
                     |b rb Hpos Hp Hrb Hle]; try reflexivity; lia. }
    subst w' w1. right. eexists. split; [reflexivity|]. split; [reflexivity|].
    split; [eexists; reflexivity|].
    split; [exists a; split; [reflexivity|]; unfold amount_of; cbn;
            rewrite Hr; reflexivity|].
    left. split; [reflexivity|]. split; [auto|].
    split; [|reflexivity]. cbn. destruct (res_amount r =? 0); auto.
Qed.

(** X7: a turn pushes at most one event.  When [system_run] returns, either
    the queue is as before, or exactly one event of this system was pushed
    and the last sleep is the back-off.  The event is a HIGH one on the
    consumed resource with status EMPTY or INSUFFICIENT, in which case no
    resource changed, or a LOW one on the produced resource with status
    CAPACITY; its [amount] is the amount that resource has when the turn
    returns. *)
Theorem system_run_one_event (w w' : World) (system : sys_ptr) (s : System) :
  systems w !! system = Some s ->
  system_run system w = Ok (tt, w') ->
  event_queue w' = event_queue w
  \/ exists event,
       event_queue w' = event_queue_push (event_queue w) event
       /\ ev_system event = system
       /\ (exists rest, sleeps w' = CInt.mul SYSTEM_WAIT_TIME 1000 :: rest)
       /\ (exists a, ev_resource event = Some a
                     /\ amount_of a w' = Some (ev_amount event))
       /\ ((ev_priority event = PRIORITY_HIGH
            /\ ev_resource event = ra_resource (consumed s)
            /\ (ev_status event = STATUS_EMPTY
                \/ ev_status event = STATUS_INSUFFICIENT)
            /\ resources w' = resources w)
           \/ (ev_priority event = PRIORITY_LOW
               /\ ev_resource event = ra_resource (produced s)
               /\ ev_status event = STATUS_CAPACITY)).
Proof. exact (system_run_event_cases w w' system s). Qed.

Lemma system_run_one_event_witness :
  exists event,
    event_queue (world_after (system_run 0%nat arrived) arrived)
    = event_queue_push (event_queue arrived) event
    /\ ev_system event = 0%nat
    /\ ev_priority event = PRIORITY_LOW
    /\ ev_status event = STATUS_CAPACITY.
Proof.
  destruct (system_run_one_event arrived
              (world_after (system_run 0%nat arrived) arrived) 0%nat
              (set_amount_stored 25 propulsion_system) eq_refl)
    as [Hq|(event & Hq & Hsys & _ & _ & [(Hprio & _)|(Hprio & _ & Hst)])].
  - vm_compute. reflexivity.
  - vm_compute in Hq. discriminate Hq.
  - exfalso. vm_compute in Hq. injection Hq as Hev. subst event.
    discriminate Hprio.
  - exists event. auto.
Defined.

Lemma resource_wf_range r z :
  resource_wf r -> 0 <= z <= res_max_capacity r -> CInt.int_wrap z = z.
Proof.
  intros [_ Hmax] Hz. apply int_wrap_id.
  unfold CInt.is_int, CInt.int_min, CInt.int_max in *. lia.
Qed.

(** X8: a turn that goes through.  With an empty buffer, enough of the
    consumed resource and room in the produced resource (a different one)
    for one batch, [system_run] takes exactly the consumed amount out of
    the first, puts exactly the produced amount into the second, leaves the
    buffer empty, pushes no event and sleeps the processing delay once. *)
Theorem system_run_converts (w : World) (system : sys_ptr) (s : System)
    (a b : nat) (ra rb : Resource) :
  systems w !! system = Some s ->
  amount_stored s = 0 ->
  ra_resource (consumed s) = Some a ->
  ra_resource (produced s) = Some b ->
  a <> b ->
  resources w !! a = Some ra ->
  resources w !! b = Some rb ->
  resource_wf ra -> resource_wf rb ->
  0 <= ra_amount (consumed s) <= res_amount ra ->
  0 < ra_amount (produced s) <= res_max_capacity rb - res_amount rb ->
  exists w',
    system_run system w = Ok (tt, w')
    /\ resources w'
       = <[b := set_res_amount (res_amount rb + ra_amount (produced s)) rb]>
           (<[a := set_res_amount (res_amount ra - ra_amount (consumed s)) ra]>
              (resources w))
    /\ systems w' = <[system := set_amount_stored 0 s]> (systems w)
    /\ event_queue w' = event_queue w
    /\ sleeps w' = process_delay s :: sleeps w.
Proof.
  intros Hs Hz Hc Hp Hab Hra Hrb Wa Wb Hcons Hprod.
  rewrite system_run_unfold.
  rewrite (system_run_convert_eq w system s Hs), Hz, Hc, Hra. cbn [Z.eqb].
  destruct (Z.leb_spec (ra_amount (consumed s)) (res_amount ra)); [|lia].
  assert (Hs1 : systems (converted system s a ra w) !! system
                = Some (after_convert s)).
  { unfold converted. rewrite Hp. cbn. apply lookup_insert_eq. }
  assert (Hstored : amount_stored (after_convert s) = ra_amount (produced s)).
  { unfold after_convert. rewrite Hp. cbn. rewrite Hz. unfold CInt.add.
    apply (resource_wf_range rb); [exact Wb|]. destruct Wb as [? _]. lia. }
  assert (Hrb1 : resources (converted system s a ra w) !! b = Some rb).
  { unfold converted. rewrite Hp. cbn. rewrite lookup_insert_ne by exact Hab.
    exact Hrb. }
  assert (Hprod1 : ra_resource (produced (after_convert s)) = Some b).
  { unfold after_convert. rewrite Hp. exact Hp. }
  rewrite (system_run_store_eq _ system _ Hs1), Hstored, Hprod1, Hrb1.
  destruct (Z.ltb_spec 0 (ra_amount (produced s))); [|lia].
  cbv zeta. unfold CInt.sub at 1.
  rewrite (resource_wf_range rb)
    by (try exact Wb; destruct Wb as [? _]; lia).
  destruct (Z.leb_spec (ra_amount (produced s))
              (res_max_capacity rb - res_amount rb)); [|lia].
  eexists. split; [reflexivity|].
  unfold deposited, converted. rewrite Hp. cbn.
  unfold CInt.add, CInt.sub.
  rewrite (resource_wf_range rb) by (try exact Wb; destruct Wb as [? _]; lia).
  rewrite (resource_wf_range ra) by (try exact Wa; destruct Wa as [? _]; lia).
  rewrite insert_insert_eq. repeat split.
  f_equal. unfold set_amount_stored, after_convert. rewrite Hp. reflexivity.
Qed.

Lemma system_run_converts_witness :
  exists w',
    system_run 1%nat load_data = Ok (tt, w')
    /\ amount_of energy w' = Some 23
    /\ amount_of oxygen w' = Some 24
    /\ stored_of 1%nat w' = Some 0
    /\ event_queue w' = event_queue_init
    /\ sleeps w' = [10000].
Proof.
  destruct (system_run_converts load_data 1%nat life_support_system
              energy oxygen (mkResource "Energy" 30 50)
              (mkResource "Oxygen" 20 50))
    as (w' & Hrun & Hres & Hsys & Hq & Hsl);
    [reflexivity | reflexivity | reflexivity | reflexivity | discriminate
    | reflexivity | reflexivity
    | split; [cbn; lia | int_range] | split; [cbn; lia | int_range]
    | cbn; lia | cbn; lia |].
  exists w'. split; [exact Hrun|]. unfold amount_of, stored_of.
  rewrite Hres, Hsys, Hq, Hsl. repeat split.
Defined.

(** X9: a deposit loses nothing.  On a resource within its capacity,
    [system_store_resources] returns OK or CAPACITY, and the amount of the
    resource plus the buffer of the system is the same after as before;
    the resource does not shrink or exceed its capacity, the buffer does
    not grow, and the status is OK exactly when the buffer ends empty. *)
Theorem system_store_resources_conserves (w : World) (system : sys_ptr)
    (s : System) (a : nat) (r : Resource) :
  systems w !! system = Some s ->
  ra_resource (produced s) = Some a ->
  resources w !! a = Some r ->
  resource_wf r ->
  0 <= amount_stored s -> CInt.is_int (amount_stored s) ->
  exists st w' r' s',
    system_store_resources system w = Ok (st, w')
    /\ resources w' !! a = Some r'
    /\ systems w' !! system = Some s'
    /\ res_amount r' + amount_stored s' = res_amount r + amount_stored s
    /\ res_amount r <= res_amount r' <= res_max_capacity r
    /\ 0 <= amount_stored s' <= amount_stored s
    /\ (st = STATUS_OK \/ st = STATUS_CAPACITY)
    /\ (st = STATUS_OK <-> amount_stored s' = 0).
Proof.
  intros Hs Hp Hr Wr Hpos Hint.
  assert (Hav : CInt.sub (res_max_capacity r) (res_amount r)
                = res_max_capacity r - res_amount r).
  { apply (resource_wf_range r _ Wr). destruct Wr as [? _]. lia. }
  pose proof Wr as [Hb Hmax].
  destruct (decide (amount_stored s = 0)) as [Hz|Hnz].
  { rewrite (system_store_resources_nothing w system s Hs Hz).
    exists STATUS_OK, w, r, s. repeat split; auto; lia. }
  destruct (Z.le_gt_cases (amount_stored s)
              (res_max_capacity r - res_amount r)) as [Hle|Hgt].
  { rewrite (system_store_resources_all w system s Hs a r Hp Hr Hnz)
      by (rewrite Hav; exact Hle).
    eexists _, _, _, _. split; [reflexivity|]. cbn.
    rewrite !lookup_insert_eq. split; [reflexivity|]. split; [reflexivity|].
    cbn. unfold CInt.add. rewrite (resource_wf_range r _ Wr) by lia.
    repeat split; auto; lia. }
  destruct (Z.lt_ge_cases 0 (res_max_capacity r - res_amount r)) as [Hp0|Hn0].
  { rewrite (system_store_resources_part w system s Hs a r Hp Hr Hnz)
      by (rewrite Hav; lia).
    eexists _, _, _, _. split; [reflexivity|]. cbn.
    rewrite !lookup_insert_eq. split; [reflexivity|]. split; [reflexivity|].
    cbn. rewrite Hav. unfold CInt.add, CInt.sub.
    rewrite (resource_wf_range r _ Wr) by lia.
    rewrite (int_wrap_id (amount_stored s - _))
      by (unfold CInt.is_int, CInt.int_min, CInt.int_max in *; lia).
    repeat split; try lia; auto; try discriminate. }
  rewrite (system_store_resources_full w system s Hs a r Hp Hr Hnz)
    by (rewrite Hav; lia).
  exists STATUS_CAPACITY, w, r, s. repeat split; auto; try lia; discriminate.
Qed.

Lemma system_store_resources_conserves_witness :
  exists st w' r' s',
    system_store_resources 1%nat
      (storing 1%nat life_support_system 4 (oxygen_at 48)) = Ok (st, w')
    /\ resources w' !! oxygen = Some r'
    /\ systems w' !! 1%nat = Some s'
    /\ res_amount r' + amount_stored s' = 48 + 4.
Proof.
  destruct (system_store_resources_conserves
              (storing 1%nat life_support_system 4 (oxygen_at 48)) 1%nat
              (set_amount_stored 4 life_support_system) oxygen
              (mkResource "Oxygen" 48 50))
    as (st & w' & r' & s' & H1 & H2 & H3 & H4 & _);
    [reflexivity | reflexivity | reflexivity
    | split; [cbn; lia | int_range] | cbn; lia | int_range |].
  exists st, w', r', s'. auto.
Defined.

Lemma maps_wf_insert_resource sy (re : gmap nat Resource) a r :
  maps_wf sy re -> resource_wf r -> maps_wf sy (<[a := r]> re).
Proof.
  intros [Hre Hsy] Hr. split; [|exact Hsy].
  intros x rx. destruct (decide (a = x)) as [<-|Hne].
  - rewrite lookup_insert_eq. intros [= <-]. exact Hr.
  - rewrite lookup_insert_ne by exact Hne. apply Hre.
Qed.

Lemma maps_wf_insert_system (sy : gmap nat System) re p s :
  maps_wf sy re -> system_wf s -> maps_wf (<[p := s]> sy) re.
Proof.
  intros [Hre Hsy] Hs. split; [exact Hre|].
  intros x sx. destruct (decide (p = x)) as [<-|Hne].
  - rewrite lookup_insert_eq. intros [= <-]. exact Hs.
  - rewrite lookup_insert_ne by exact Hne. apply Hsy.
Qed.

Lemma convert_outcome_wf system s w w1 :
  systems w !! system = Some s ->
  world_wf w -> convert_outcome system s w w1 -> world_wf w1.
Proof.
  intros Hs Hw [Hnz|Hz Hc|a r Hz Hc Hr Hlt|a r Hz Hc Hr Hle];
    [exact Hw | exact Hw | exact Hw |].
  pose proof Hw as [Hre Hsy].
  pose proof (Hre a r Hr) as Wr. pose proof (Hsy system s Hs) as (Hc0 & Hst & Hpi).
  assert (Wr' : resource_wf
                  (set_res_amount
                     (CInt.sub (res_amount r) (ra_amount (consumed s))) r)).
  { unfold CInt.sub. destruct Wr as [Hb Hmax].
    rewrite (resource_wf_range r) by (try (split; assumption); lia).
    split; [cbn; lia|exact Hmax]. }
  unfold world_wf, converted.
  destruct (ra_resource (produced s)) eqn:Hp; cbn.
  - apply maps_wf_insert_system; [apply maps_wf_insert_resource; assumption|].
    unfold after_convert. rewrite Hp. split; [exact Hc0|]. cbn.
    rewrite Hz. unfold CInt.add. rewrite int_wrap_id by exact Hpi.
    split; [lia|exact Hpi].
  - apply maps_wf_insert_resource; assumption.
Qed.

Lemma store_outcome_wf system s w w2 :
  systems w !! system = Some s ->
  world_wf w -> store_outcome system s w w2 -> world_wf w2.
Proof.
  intros Hs Hw [Hle|Hpos Hp|a r Hpos Hp Hr Hle|a r Hpos Hp Hr Hlt|a r Hpos Hp Hr Hle];
    [exact Hw | exact Hw | | | exact Hw].
  all: pose proof Hw as [Hre Hsy].
  all: pose proof (Hre a r Hr) as Wr;
    pose proof (Hsy system s Hs) as (Hc0 & Hst & Hpi).
  all: assert (Hav : CInt.sub (res_max_capacity r) (res_amount r)
                     = res_max_capacity r - res_amount r)
         by (apply (resource_wf_range r _ Wr); destruct Wr as [? _]; lia).
  all: rewrite Hav in *; pose proof Wr as [Hb Hmax].
  - unfold world_wf, deposited. cbn.
    apply maps_wf_insert_system; [apply maps_wf_insert_resource; [exact Hw|]|].
    + unfold CInt.add. rewrite (resource_wf_range r _ Wr) by lia.
      split; [cbn; lia|exact Hmax].
    + split; [exact Hc0|]. cbn. split; [lia|exact Hpi].
  - unfold world_wf, reported, deposited. cbn.
    apply maps_wf_insert_system; [apply maps_wf_insert_resource; [exact Hw|]|].
    + unfold CInt.add. rewrite (resource_wf_range r _ Wr) by lia.
      split; [cbn; lia|exact Hmax].
    + split; [exact Hc0|]. cbn. unfold CInt.sub.
      rewrite int_wrap_id
        by (unfold CInt.is_int, CInt.int_min, CInt.int_max in *; lia).
      split; [lia|exact Hpi].
Qed.

Lemma system_run_wf w system w' :
  world_wf w -> system_run system w = Ok (tt, w') -> world_wf w'.
Proof.
  intros Hw Hrun.
  destruct (systems w !! system) as [s|] eqn:Hs.
  2:{ unfold system_run, bind, system_run_convert, bind, load_sys in Hrun.
      rewrite Hs in Hrun. discriminate. }
  destruct (system_run_outcome w system s w' Hs Hrun) as (w1 & s1 & H1 & Hs1 & H2).
  eapply store_outcome_wf; [exact Hs1| |exact H2].
  exact (convert_outcome_wf system s w w1 Hs Hw H1).
Qed.

(** X10: the workers keep the memory well formed.  If every resource has
    its amount in [0, max_capacity] and every system has a non-negative
    consumed amount and a buffer in [0, produced.amount], then this still
    holds after the workers have taken any number of turns in any order. *)
Theorem run_turns_keeps_well_formed (schedule : list sys_ptr) (w w' : World) :
  world_wf w ->
  run_turns schedule w = Ok (tt, w') ->
  (forall a r, resources w' !! a = Some r ->
     0 <= res_amount r <= res_max_capacity r)
  /\ (forall p s, systems w' !! p = Some s ->
        0 <= amount_stored s <= ra_amount (produced s)).
Proof.
  intros Hw Hrun.
  assert (Hw' : world_wf w').
  { revert w Hw Hrun. induction schedule as [|system rest IH]; intros w Hw Hrun.
    - injection Hrun as <-. exact Hw.
    - cbn [run_turns] in Hrun. unfold bind at 1 in Hrun.
      destruct (system_run system w) as [[[] w1]|e] eqn:H1; [|discriminate].
      apply (IH w1); [|exact Hrun]. apply (system_run_wf w system w1 Hw H1). }
  destruct Hw' as [Hre Hsy]. split.
  - intros a r Hr. apply (Hre a r Hr).
  - intros p s Hs. apply (Hsy p s Hs).
Qed.

(** X11: a worker does not stop by itself.  [system_thread] returns at once,
    leaving the memory alone, when the status of its system is TERMINATE;
    when it is not, the loop never ends on its own account, however many
    turns it is given: the turns of the worker do not write the status. *)
Theorem system_thread_stops_only_on_terminate (w : World) (system : sys_ptr)
    (s : System) :
  systems w !! system = Some s ->
  (status s = TERMINATE ->
   forall turns, system_thread (S turns) system w = Ok (tt, w))
  /\ (status s <> TERMINATE ->
      forall turns w', system_thread turns system w <> Ok (tt, w')).
Proof.
  intros Hs. split.
  - intros Ht turns. cbn [system_thread]. unfold bind at 1.
    unfold system_thread_iteration, bind at 1, load_sys. rewrite Hs, Ht.
    reflexivity.
  - intros Hne turns. revert w s Hs Hne.
    induction turns as [|turns IH]; intros w s Hs Hne w'; [discriminate|].
    cbn [system_thread]. unfold bind at 1.
    unfold system_thread_iteration, bind at 1, load_sys. rewrite Hs.
    destruct (Z.eqb_spec (status s) TERMINATE) as [|_]; [contradiction|].
    cbn [negb]. unfold bind at 1.
    destruct (system_run system w) as [[[] w1]|e] eqn:Hrun; [|discriminate].
    cbn [ret].
    destruct (system_run_worker_frame w system s w1 Hs Hrun)
      as (_ & _ & _ & _ & (s1 & Hs1 & (_ & _ & _ & _ & Hst)) & _).
    apply (IH w1 s1 Hs1). rewrite Hst. exact Hne.
Qed.

Lemma system_thread_stops_only_on_terminate_witness :
  system_thread 1 2%nat (set_status_of 2%nat TERMINATE load_data)
  = Ok (tt, set_status_of 2%nat TERMINATE load_data)
  /\ forall w', system_thread 5 2%nat load_data <> Ok (tt, w').
Proof.
  split.
  - destruct (system_thread_stops_only_on_terminate
                (set_status_of 2%nat TERMINATE load_data) 2%nat
                (set_status TERMINATE crew_capsule_system) eq_refl) as [H _].
    apply (H eq_refl 0%nat).
  - destruct (system_thread_stops_only_on_terminate load_data 2%nat
                crew_capsule_system eq_refl) as [_ H].
    apply (H ltac:(discriminate) 5%nat).
Defined.

Lemma run_turns_keeps_well_formed_witness :
  let w' := world_after (run_turns [1; 2; 3; 1; 0; 1]%nat load_data) load_data in
  (forall a r, resources w' !! a = Some r ->
     0 <= res_amount r <= res_max_capacity r)
  /\ (forall p s, systems w' !! p = Some s ->
        0 <= amount_stored s <= ra_amount (produced s)).
Proof.
  apply (run_turns_keeps_well_formed [1; 2; 3; 1; 0; 1]%nat load_data).
  - split.
    + intros a r Hr. unfold load_data, scenario_resources in Hr. cbn in Hr.
      repeat (apply lookup_insert_Some in Hr as [[_ <-]|[_ Hr]];
              [split; [cbn; lia|int_range]|]).
      rewrite lookup_empty in Hr. discriminate.
    + intros p s Hs. unfold load_data, scenario_systems in Hs. cbn in Hs.
      repeat (apply lookup_insert_Some in Hs as [[_ <-]|[_ Hs]];
              [repeat split; try (cbn; lia); int_range|]).
      rewrite lookup_empty in Hs. discriminate.
  - vm_compute. reflexivity.
Defined.

Lemma system_simulate_process_time_eq w system s :
  systems w !! system = Some s ->
  system_simulate_process_time system w
  = Ok (tt, set_sleeps (process_delay s :: sleeps w) w).
Proof.
  intros Hs. unfold system_simulate_process_time. unfold_mem. rewrite Hs.
  reflexivity.
Qed.

(** X25: the processing delay.  For a processing time between 0 and
    1073741 ms nothing overflows and [system_simulate_process_time] sleeps
    once: twice the nominal time when the status is SLOW, half of it
    rounded down to a whole millisecond when the status is FAST (so 0 for a
    processing time of 1), and the nominal time for every other status. *)
Theorem system_simulate_process_time_scales (w : World) (system : sys_ptr)
    (s : System) :
  systems w !! system = Some s ->
  0 <= processing_time s <= 1073741 ->
  exists us,
    system_simulate_process_time system w
    = Ok (tt, set_sleeps (us :: sleeps w) w)
    /\ 0 <= us <= CInt.int_max
    /\ (status s = SLOW -> us = 2000 * processing_time s)
    /\ (status s = FAST ->
        us = 1000 * (processing_time s / 2)
        /\ 1000 * processing_time s - 1000 <= 2 * us
           <= 1000 * processing_time s)
    /\ (status s <> SLOW -> status s <> FAST ->
        us = 1000 * processing_time s).
Proof.
  intros Hs Hpt. rewrite (system_simulate_process_time_eq w system s Hs).
  eexists. split; [reflexivity|]. unfold process_delay.
  assert (Hwrap : forall z, 0 <= z <= CInt.int_max -> CInt.int_wrap z = z).
  { intros z Hz. apply int_wrap_id.
    unfold CInt.is_int, CInt.int_min, CInt.int_max in *. lia. }
  unfold CInt.int_max in *.
  assert (Hq : Z.quot (processing_time s) 2 = processing_time s / 2)
    by (apply Z.quot_div_nonneg; lia).
  pose proof (Z.div_mod (processing_time s) 2 ltac:(lia)) as Hdm.
  pose proof (Z.mod_pos_bound (processing_time s) 2 ltac:(lia)) as Hmb.
  destruct (Z.eqb_spec (status s) SLOW) as [Hslow|Hnslow].
  - unfold CInt.mul. rewrite (Hwrap (processing_time s * 2)) by lia.
    rewrite Hwrap by lia. split; [lia|]. split; [lia|].
    split; [rewrite Hslow; discriminate|contradiction].
  - destruct (Z.eqb_spec (status s) FAST) as [Hfast|Hnfast].
    + unfold CInt.mul, CInt.div. rewrite Hq.
      rewrite (Hwrap (processing_time s / 2)) by lia.
      rewrite Hwrap by lia. split; [lia|].
      split; [contradiction|]. split; [lia|contradiction].
    + unfold CInt.mul. rewrite Hwrap by lia. split; [lia|].
      split; [contradiction|]. split; [contradiction|lia].
Qed.

Lemma system_simulate_process_time_scales_witness :
  exists us,
    system_simulate_process_time 0%nat (set_status_of 0%nat FAST
       (with_system 0%nat
          (mkSystem "Probe" (mkResourceAmount None 0) (mkResourceAmount None 0)
                    0 1 STANDARD) load_data))
    = Ok (tt, set_sleeps [us]
                (set_status_of 0%nat FAST
                   (with_system 0%nat
                      (mkSystem "Probe" (mkResourceAmount None 0)
                         (mkResourceAmount None 0) 0 1 STANDARD) load_data)))
    /\ us = 0.
Proof.
  destruct (system_simulate_process_time_scales
              (set_status_of 0%nat FAST
                 (with_system 0%nat
                    (mkSystem "Probe" (mkResourceAmount None 0)
                       (mkResourceAmount None 0) 0 1 STANDARD) load_data))
              0%nat
              (mkSystem "Probe" (mkResourceAmount None 0)
                 (mkResourceAmount None 0) 0 1 FAST) eq_refl)
    as (us & Hrun & _ & _ & Hfast & _); [cbn; lia|].
  exists us. split; [exact Hrun|]. destruct (Hfast eq_refl) as [-> _]. reflexivity.
Defined.

(** ** system.c: the dynamic array *)

Lemma copy_slots_take count :
  forall i (src dst : list (option sys_ptr)),
    (i + count <= length src)%nat -> (i + count <= length dst)%nat ->
    take i dst = take i src ->
    exists dst',
      copy_slots count i src dst = Ok dst'
      /\ length dst' = length dst
      /\ take (i + count) dst' = take (i + count) src.
Proof.
  induction count as [|count IH]; intros i src dst Hsrc Hdst Hpre.
  - exists dst. rewrite Nat.add_0_r. auto.
  - cbn [copy_slots].
    destruct (lookup_lt_is_Some_2 src i ltac:(lia)) as [x Hx]. rewrite Hx.
    rewrite decide_True by lia.
    destruct (IH (S i) src (<[i := x]> dst)) as (dst' & Hc & Hl & Ht).
    + lia.
    + rewrite length_insert. lia.
    + rewrite (take_S_r src i x Hx).
      rewrite (take_S_r (<[i := x]> dst) i x)
        by (apply list_lookup_insert_eq; lia).
      rewrite take_insert_ge by lia. rewrite Hpre. reflexivity.
    + exists dst'. rewrite Hc, Hl, length_insert.
      replace (i + S count)%nat with (S i + count)%nat by lia. auto.
Qed.

(** One [system_array_add] on a well-formed array. *)
Lemma system_array_add_wf array system :
  sa_wf array -> sa_capacity array < 2 ^ 30 ->
  exists array',
    system_array_add array system = Ok array'
    /\ sa_wf array'
    /\ sa_live array' = sa_live array ++ [Some system]
    /\ sa_size array' = sa_size array + 1
    /\ sa_capacity array'
       = (if sa_size array =? sa_capacity array
          then 2 * sa_capacity array else sa_capacity array).
Proof.
  intros (Hsz & Hcap & Hlen) Hbig. unfold system_array_add.
  assert (Hwrap : forall z, 0 <= z < 2 ^ 31 -> CInt.int_wrap z = z).
  { intros z Hz. apply int_wrap_id.
    unfold CInt.is_int, CInt.int_min, CInt.int_max. lia. }
  assert (Hfinish : forall a,
    sa_wf a -> sa_size a < sa_capacity a -> sa_capacity a < 2 ^ 31 ->
    exists array',
      (if (0 <=? sa_size a) && (sa_size a <? Z.of_nat (length (sa_systems a)))
       then Ok (mkSystemArray
                  (<[Z.to_nat (sa_size a) := Some system]> (sa_systems a))
                  (CInt.add (sa_size a) 1) (sa_capacity a))
       else Err BadPointer) = Ok array'
      /\ sa_wf array'
      /\ sa_live array' = sa_live a ++ [Some system]
      /\ sa_size array' = sa_size a + 1
      /\ sa_capacity array' = sa_capacity a).
  { intros a (Hsz' & Hcap' & Hlen') Hlt Hbig'.
    destruct (Z.leb_spec 0 (sa_size a)); [|lia].
    destruct (Z.ltb_spec (sa_size a) (Z.of_nat (length (sa_systems a))));
      [|lia].
    eexists. split; [reflexivity|]. unfold sa_wf, sa_live. cbn.
    unfold CInt.add. rewrite Hwrap by lia. rewrite length_insert.
    split; [split; [lia|split; [lia|exact Hlen']]|].
    split; [|split; reflexivity].
    replace (Z.to_nat (sa_size a + 1)) with (S (Z.to_nat (sa_size a))) by lia.
    rewrite (take_S_r _ _ (Some system))
      by (apply list_lookup_insert_eq; lia).
    rewrite take_insert_ge by lia. reflexivity. }
  destruct (Z.eqb_spec (sa_size array) (sa_capacity array)) as [Heq|Hne].
  - unfold CInt.mul. rewrite Hwrap by lia.
    destruct (copy_slots_take (Z.to_nat (sa_size array)) 0 (sa_systems array)
                (malloc_slots (sa_capacity array * 2)))
      as (new_array & Hcopy & Hnl & Hnt).
    + lia.
    + unfold malloc_slots. rewrite length_replicate. lia.
    + reflexivity.
    + rewrite Hcopy.
      destruct (Hfinish (mkSystemArray new_array (sa_size array)
                           (sa_capacity array * 2)))
        as (array' & Hok & Hwf & Hlive & Hs' & Hc').
      * unfold sa_wf. cbn. rewrite Hnl. unfold malloc_slots.
        rewrite length_replicate. lia.
      * cbn. lia.
      * cbn. lia.
      * exists array'. split; [exact Hok|]. split; [exact Hwf|].
        split; [|split; [exact Hs'|rewrite Hc'; cbn; lia]].
        rewrite Hlive. unfold sa_live. cbn. cbn in Hnt. rewrite Hnt. reflexivity.
  - destruct (Hfinish array) as (array' & Hok & Hwf & Hlive & Hs' & Hc');
      [split; [lia|split; [lia|exact Hlen]] | lia | lia |].
    exists array'. auto.
Qed.

(** X12: [system_array_add] appends.  On an array whose block has
    [capacity] slots of which [size] are in use, with [capacity] below
    2^30, the call returns, the slots in use are the former ones followed
    by the new system, [size] grows by one, and the block is replaced by
    one of twice the capacity exactly when it was full. *)
Theorem system_array_add_appends (array : SystemArray) (system : sys_ptr) :
  0 <= sa_size array <= sa_capacity array ->
  1 <= sa_capacity array < 2 ^ 30 ->
  length (sa_systems array) = Z.to_nat (sa_capacity array) ->
  exists array',
    system_array_add array system = Ok array'
    /\ take (Z.to_nat (sa_size array')) (sa_systems array')
       = take (Z.to_nat (sa_size array)) (sa_systems array) ++ [Some system]
    /\ sa_size array' = sa_size array + 1
    /\ sa_capacity array'
       = (if sa_size array =? sa_capacity array
          then 2 * sa_capacity array else sa_capacity array)
    /\ sa_size array' <= sa_capacity array'
    /\ length (sa_systems array') = Z.to_nat (sa_capacity array').
Proof.
  intros Hsz Hcap Hlen.
  destruct (system_array_add_wf array system) as (a' & H1 & H2 & H3 & H4 & H5);
    [split; [exact Hsz|split; [lia|exact Hlen]] | lia |].
  exists a'. destruct H2 as (? & ? & ?). repeat split; auto; lia.
Qed.

Lemma system_array_add_appends_witness :
  exists array',
    system_array_add (mkSystemArray [Some 7%nat; Some 8%nat] 2 2) 9%nat
    = Ok array'
    /\ take (Z.to_nat (sa_size array')) (sa_systems array')
       = [Some 7%nat; Some 8%nat; Some 9%nat]
    /\ sa_capacity array' = 4.
Proof.
  destruct (system_array_add_appends
              (mkSystemArray [Some 7%nat; Some 8%nat] 2 2) 9%nat)
    as (a' & H1 & H2 & _ & H4 & _);
    [cbn; lia | cbn; lia | reflexivity |].
  exists a'. auto.
Defined.

Lemma sa_grown_add array system :
  sa_grown array -> sa_size array < 2 ^ 29 ->
  exists array',
    system_array_add array system = Ok array'
    /\ sa_grown array'
    /\ sa_live array' = sa_live array ++ [Some system]
    /\ sa_size array' = sa_size array + 1.
Proof.
  intros (Hwf & (k & Hk) & Hhalf) Hsmall.
  pose proof Hwf as (Hsz & Hcap & Hlen).
  destruct (system_array_add_wf array system Hwf) as (a' & H1 & H2 & H3 & H4 & H5).
  { destruct Hhalf as [?|[_ ->]]; lia. }
  exists a'. split; [exact H1|]. split; [|auto].
  split; [exact H2|]. rewrite H4, H5.
  destruct (Z.eqb_spec (sa_size array) (sa_capacity array)) as [Heq|Hne].
  - split; [|left; lia]. exists (S k). rewrite Hk, Nat2Z.inj_succ, Z.pow_succ_r; lia.
  - split; [exists k; exact Hk|]. left. destruct Hhalf as [?|[? ?]]; lia.
Qed.

Lemma sa_grown_add_all l :
  forall array,
    sa_grown array -> sa_size array + Z.of_nat (length l) <= 2 ^ 29 ->
    exists array',
      system_array_add_all array l = Ok array'
      /\ sa_grown array'
      /\ sa_live array' = sa_live array ++ (Some <$> l)
      /\ sa_size array' = sa_size array + Z.of_nat (length l).
Proof.
  induction l as [|system rest IH]; intros array Hg Hsmall.
  - exists array. cbn. rewrite app_nil_r, Z.add_0_r. auto.
  - cbn [length] in Hsmall. cbn [system_array_add_all].
    destruct (sa_grown_add array system Hg) as (a1 & H1 & Hg1 & Hl1 & Hs1); [lia|].
    rewrite H1.
    destruct (IH a1 Hg1) as (a' & H2 & Hg' & Hl' & Hs'); [lia|].
    exists a'. split; [exact H2|]. split; [exact Hg'|].
    rewrite Hl', Hl1, Hs', Hs1, <- app_assoc. cbn [length]. split; [reflexivity|lia].
Qed.

(** X13: filling the array from [system_array_init].  Adding the systems of
    a list of at most 2^29 elements one after the other returns; the slots
    in use hold the list in order, [size] is its length, [capacity] is a
    power of two no smaller than [size] and, when the list is not empty,
    smaller than twice [size]. *)
Theorem system_array_add_all_from_init (l : list sys_ptr) :
  Z.of_nat (length l) <= 2 ^ 29 ->
  exists array,
    system_array_add_all system_array_init l = Ok array
    /\ take (Z.to_nat (sa_size array)) (sa_systems array) = Some <$> l
    /\ sa_size array = Z.of_nat (length l)
    /\ (exists k : nat, sa_capacity array = 2 ^ Z.of_nat k)
    /\ sa_size array <= sa_capacity array
    /\ length (sa_systems array) = Z.to_nat (sa_capacity array)
    /\ (l <> [] -> sa_capacity array < 2 * sa_size array).
Proof.
  intros Hlen.
  assert (Hinit : sa_grown system_array_init).
  { split; [split; [cbn; lia|split; [cbn; lia|reflexivity]]|].
    split; [exists 0%nat; reflexivity|right; split; reflexivity]. }
  destruct (sa_grown_add_all l system_array_init Hinit) as (a & H1 & Hg & Hl & Hs).
  { cbn [system_array_init sa_size]. lia. }
  exists a. destruct Hg as ((Hsz & Hcap & Hblock) & Hpow & Hhalf).
  cbn [system_array_init sa_size] in Hs. rewrite Z.add_0_l in Hs.
  split; [exact H1|]. split; [exact Hl|]. split; [exact Hs|].
  split; [exact Hpow|]. split; [lia|]. split; [exact Hblock|].
  intros Hne. destruct Hhalf as [?|[Hz _]]; [assumption|].
  destruct l; [contradiction|]. cbn [length] in Hs. lia.
Qed.

Lemma system_array_add_all_from_init_witness :
  exists array,
    system_array_add_all system_array_init [0; 1; 2; 3; 4]%nat = Ok array
    /\ take (Z.to_nat (sa_size array)) (sa_systems array)
       = [Some 0; Some 1; Some 2; Some 3; Some 4]%nat
    /\ sa_size array = 5
    /\ sa_capacity array < 10.
Proof.
  destruct (system_array_add_all_from_init [0; 1; 2; 3; 4]%nat)
    as (a & H1 & H2 & H3 & _ & _ & _ & H7); [cbn; lia|].
  exists a. split; [exact H1|]. split; [exact H2|]. split; [exact H3|].
  rewrite H3 in H7. apply H7. discriminate.
Defined.

(** ** system.c: freeing the systems *)

Lemma delete_all_lookup arr (m : gmap nat System) p :
  delete_all arr m !! p = if decide (p ∈ arr) then None else m !! p.
Proof.
  revert m. induction arr as [|a arr IH]; intros m.
  - cbn. rewrite decide_False by apply not_elem_of_nil. reflexivity.
  - cbn [delete_all foldl]. fold (delete_all arr (delete a m)). rewrite IH.
    destruct (decide (p ∈ arr)) as [Hin|Hnin].
    + rewrite decide_True by (right; exact Hin). reflexivity.
    + destruct (decide (a = p)) as [->|Hne].
      * rewrite lookup_delete_eq, decide_True by left. reflexivity.
      * rewrite lookup_delete_ne by exact Hne. rewrite decide_False; [reflexivity|].
        intros Hin. apply elem_of_cons in Hin as [->|Hin]; contradiction.
Qed.

Lemma system_array_clean_loop_spec arr :
  forall w,
    match system_array_clean_loop arr w with
    | Ok (_, w') =>
        NoDup arr /\ (forall p, p ∈ arr -> is_Some (systems w !! p))
        /\ w' = set_systems (delete_all arr (systems w)) w
    | Err e =>
        e = BadPointer
        /\ ~ (NoDup arr /\ forall p, p ∈ arr -> is_Some (systems w !! p))
    end.
Proof.
  induction arr as [|a arr IH]; intros w.
  - cbn. split; [constructor|]. split.
    + intros p Hp. apply elem_of_nil in Hp. contradiction.
    + destruct w; reflexivity.
  - cbn [system_array_clean_loop]. unfold bind at 1. cbn [system_destroy].
    destruct (systems w !! a) as [s|] eqn:Hs.
    2:{ split; [reflexivity|]. intros [_ Hall].
        destruct (Hall a (list_elem_of_here a arr)) as [? ?]. congruence. }
    specialize (IH (set_systems (delete a (systems w)) w)).
    destruct (system_array_clean_loop arr _) as [[[] w']|e].
    + destruct IH as (Hnd & Hall & ->). split; [|split].
      * constructor; [|exact Hnd]. intros Hin.
        destruct (Hall a Hin) as [x Hx]. cbn in Hx.
        rewrite lookup_delete_eq in Hx. discriminate.
      * intros p Hp. apply elem_of_cons in Hp as [->|Hp]; [eauto|].
        destruct (Hall p Hp) as [x Hx]. cbn in Hx.
        apply lookup_delete_Some in Hx as [_ Hx]. eauto.
      * reflexivity.
    + destruct IH as (-> & Hnot). split; [reflexivity|]. intros [Hnd Hall].
      apply Hnot. apply NoDup_cons in Hnd as [Hnin Hnd]. split; [exact Hnd|].
      intros p Hp. cbn. rewrite lookup_delete_ne; [apply Hall; right; exact Hp|].
      intros ->. contradiction.
Qed.

(** X14: [system_array_clean] frees the systems of the array and nothing
    else.  It returns exactly when the array holds distinct allocated
    systems; then none of them is allocated any more and every other
    system, every resource and the queue are as before.  Otherwise (a
    system listed twice, or one that is not allocated) it frees a block
    that is not allocated. *)
Theorem system_array_clean_frees (w : World) :
  match system_array_clean w with
  | Ok (_, w') =>
      NoDup (system_array w)
      /\ (forall p, p ∈ system_array w -> is_Some (systems w !! p))
      /\ (forall p, systems w' !! p
                    = if decide (p ∈ system_array w) then None
                      else systems w !! p)
      /\ resources w' = resources w
      /\ event_queue w' = event_queue w
  | Err e =>
      e = BadPointer
      /\ ~ (NoDup (system_array w)
            /\ forall p, p ∈ system_array w -> is_Some (systems w !! p))
  end.
Proof.
  unfold system_array_clean, bind, get_system_array.
  pose proof (system_array_clean_loop_spec (system_array w) w) as H.
  destruct (system_array_clean_loop (system_array w) w) as [[[] w']|e];
    [|exact H].
  destruct H as (Hnd & Hall & ->). split; [exact Hnd|]. split; [exact Hall|].
  split; [|split; reflexivity].
  intros p. cbn. apply delete_all_lookup.
Qed.

Example system_array_clean_scenario :
  (exists w', system_array_clean load_data = Ok (tt, w')
              /\ systems w' = ∅)
  /\ system_array_clean
       (mkWorld scenario_systems scenario_resources 1 [0; 1; 0]%nat
          [fuel; oxygen; energy; distance] event_queue_init [])
     = Err BadPointer.
Proof.
  split; [eexists; split; [vm_compute; reflexivity|]|reflexivity].
  apply map_eq. intros p. rewrite lookup_empty.
  destruct p as [|[|[|[|p]]]]; reflexivity.
Qed.

(** ** The manager: one event *)

(** One turn of the [while] when every pointer can be followed: the local
    [status] and the run flag follow from the flags, and the systems are
    retuned when a flag is raised. *)
Lemma manager_handle_event_ok status event w a r :
  is_Some (systems w !! ev_system event) ->
  ev_resource event = Some a ->
  resources w !! a = Some r ->
  (forall p, p ∈ system_array w -> is_Some (systems w !! p)) ->
  let no_oxygen_flag :=
    (ev_status event =? STATUS_EMPTY) && strcmp_eq (res_name r) "Oxygen" in
  let distance_reached_flag :=
    (ev_status event =? STATUS_CAPACITY) && strcmp_eq (res_name r) "Distance" in
  let need_more_flag :=
    (ev_status event =? STATUS_LOW) || (ev_status event =? STATUS_EMPTY)
    || (ev_status event =? STATUS_INSUFFICIENT) in
  let need_less_flag := (ev_status event =? STATUS_CAPACITY) in
  let status' :=
    if no_oxygen_flag then TERMINATE
    else if distance_reached_flag then TERMINATE
    else if need_more_flag then FAST
    else if need_less_flag then SLOW
    else status in
  let w0 :=
    if no_oxygen_flag || distance_reached_flag
    then set_simulation_running 0 w else w in
  manager_handle_event status event w
  = Ok (status',
        if no_oxygen_flag || distance_reached_flag || need_more_flag
           || need_less_flag
        then set_systems
               (retune_all (system_array w) status' (Some a) (systems w)) w0
        else w0).
Proof.
  intros [es Hes] Hres Hr Hall. cbv zeta.
  rewrite (manager_handle_event_eq status event w es a r Hes Hres Hr).
  destruct ((ev_status event =? STATUS_EMPTY) && strcmp_eq (res_name r) "Oxygen"
            || (ev_status event =? STATUS_CAPACITY)
               && strcmp_eq (res_name r) "Distance"
            || ((ev_status event =? STATUS_LOW) || (ev_status event =? STATUS_EMPTY)
                || (ev_status event =? STATUS_INSUFFICIENT))
            || (ev_status event =? STATUS_CAPACITY)); [|reflexivity].
  destruct ((ev_status event =? STATUS_EMPTY) && strcmp_eq (res_name r) "Oxygen"
            || (ev_status event =? STATUS_CAPACITY)
               && strcmp_eq (res_name r) "Distance").
  - rewrite (manager_update_systems_eq
               (system_array (set_simulation_running 0 w)) _ (Some a)
               (set_simulation_running 0 w) Hall). reflexivity.
  - rewrite (manager_update_systems_eq (system_array w) _ (Some a) w Hall).
    reflexivity.
Qed.

Lemma retune_all_lookup_Some arr status a (m : gmap nat System) p s :
  m !! p = Some s ->
  retune_all arr status (Some a) m !! p
  = Some (if decide (p ∈ arr
                     /\ (status = TERMINATE
                         \/ ra_resource (produced s) = Some a))
          then set_status status s else s).
Proof.
  intros Hs. rewrite retune_all_lookup, Hs. cbn. f_equal.
  unfold retune. destruct (decide (p ∈ arr)) as [Hin|Hnin].
  - destruct (Z.eqb_spec status TERMINATE) as [Ht|Hnt]; cbn [orb].
    + rewrite decide_True by auto. reflexivity.
    + destruct (decide (ra_resource (produced s) = Some a)) as [He|Hne].
      * rewrite bool_decide_eq_true_2 by exact He.
        rewrite decide_True by auto. reflexivity.
      * rewrite bool_decide_eq_false_2 by exact Hne.
        rewrite decide_False by (intros [_ [?|?]]; contradiction). reflexivity.
  - rewrite decide_False by (intros [? _]; contradiction). reflexivity.
Qed.

Lemma manager_final_event_step (w : World) (status : Z) (event : Event) :
  is_Some (systems w !! ev_system event) ->
  (forall p, p ∈ system_array w -> is_Some (systems w !! p)) ->
  oxygen_depleted w event \/ distance_reached w event ->
  exists w',
    manager_handle_event status event w = Ok (TERMINATE, w')
    /\ simulation_running w' = 0
    /\ (forall p s, systems w !! p = Some s ->
          systems w' !! p
          = Some (if decide (p ∈ system_array w)
                  then set_status TERMINATE s else s))
    /\ resources w' = resources w
    /\ event_queue w' = event_queue w.
Proof.
  intros Hes Hall Hfinal.
  assert (exists a r,
            ev_resource event = Some a /\ resources w !! a = Some r
            /\ ((ev_status event =? STATUS_EMPTY)
                && strcmp_eq (res_name r) "Oxygen"
                || (ev_status event =? STATUS_CAPACITY)
                   && strcmp_eq (res_name r) "Distance") = true)
    as (a & r & Hres & Hr & Hflag).
  { destruct Hfinal as [(Hst & a & r & Hres & Hr & Hn)|(Hst & a & r & Hres & Hr & Hn)];
      exists a, r; (split; [exact Hres|]); (split; [exact Hr|]);
      rewrite Hst, Hn; reflexivity. }
  rewrite (manager_handle_event_ok status event w a r Hes Hres Hr Hall).
  apply orb_true_iff in Hflag as Hcases.
  assert (Hst' : (if (ev_status event =? STATUS_EMPTY)
                     && strcmp_eq (res_name r) "Oxygen" then TERMINATE
                  else if (ev_status event =? STATUS_CAPACITY)
                          && strcmp_eq (res_name r) "Distance" then TERMINATE
                  else if (ev_status event =? STATUS_LOW)
                          || (ev_status event =? STATUS_EMPTY)
                          || (ev_status event =? STATUS_INSUFFICIENT) then FAST
                  else if ev_status event =? STATUS_CAPACITY then SLOW
                  else status) = TERMINATE).
  { destruct Hcases as [-> | H2]; [reflexivity|].
    rewrite H2. destruct (_ && _); reflexivity. }
  rewrite Hst', Hflag. cbn [orb].
  eexists. split; [reflexivity|]. split; [reflexivity|].
  split; [|split; reflexivity].
  intros p s Hs. cbn. rewrite (retune_all_lookup_Some _ _ _ _ p s Hs). f_equal.
  destruct (decide (p ∈ system_array w)).
  - rewrite decide_True by auto. reflexivity.
  - rewrite decide_False by (intros [? _]; contradiction). reflexivity.
Qed.

(** X15: the two events that end the simulation.  On an EMPTY event on a
    resource named "Oxygen", or a CAPACITY event on a resource named
    "Distance", one turn of the loop of [manager_run] clears
    [simulation_running], sets the status of every system of the array to
    TERMINATE and touches nothing else; the local [status] is TERMINATE
    after it. *)
Theorem manager_terminates_on_final_event (w : World) (status : Z)
    (event : Event) :
  is_Some (systems w !! ev_system event) ->
  (forall p, p ∈ system_array w -> is_Some (systems w !! p)) ->
  oxygen_depleted w event \/ distance_reached w event ->
  exists w',
    manager_handle_event status event w = Ok (TERMINATE, w')
    /\ simulation_running w' = 0
    /\ (forall p s, systems w !! p = Some s ->
          systems w' !! p
          = Some (if decide (p ∈ system_array w)
                  then set_status TERMINATE s else s))
    /\ resources w' = resources w
    /\ event_queue w' = event_queue w.
Proof. exact (manager_final_event_step w status event). Qed.

Lemma manager_terminates_on_final_event_witness :
  exists w',
    manager_handle_event STANDARD distance_full load_data = Ok (TERMINATE, w')
    /\ simulation_running w' = 0
    /\ status_of 3%nat w' = Some TERMINATE.
Proof.
  destruct (manager_terminates_on_final_event load_data STANDARD distance_full)
    as (w' & Hrun & Hflag & Hsys & _).
  - vm_compute. eauto.
  - intros p Hp. cbn in Hp.
    repeat (apply elem_of_cons in Hp as [->|Hp]; [vm_compute; eauto|]).
    apply elem_of_nil in Hp. contradiction.
  - right. split; [reflexivity|]. exists distance, (mkResource "Distance" 0 5000).
    repeat split.
  - exists w'. split; [exact Hrun|]. split; [exact Hflag|].
    unfold status_of. rewrite (Hsys 3%nat generator_system eq_refl). reflexivity.
Defined.

(** X16: a CAPACITY event on a resource that is not named "Distance" slows
    the producers down: one turn of the loop of [manager_run] sets to SLOW
    the status of every system of the array whose produced resource is the
    resource of the event, changes no other system, no resource, not the
    run flag and not the queue, and leaves SLOW in the local [status]. *)
Theorem manager_slows_down_producers (w : World) (status : Z) (event : Event)
    (a : nat) (r : Resource) :
  is_Some (systems w !! ev_system event) ->
  ev_resource event = Some a ->
  resources w !! a = Some r ->
  res_name r <> "Distance"%string ->
  ev_status event = STATUS_CAPACITY ->
  (forall p, p ∈ system_array w -> is_Some (systems w !! p)) ->
  exists w',
    manager_handle_event status event w = Ok (SLOW, w')
    /\ (forall p s, systems w !! p = Some s ->
          systems w' !! p
          = Some (if decide (p ∈ system_array w
                             /\ ra_resource (produced s) = Some a)
                  then set_status SLOW s else s))
    /\ resources w' = resources w
    /\ simulation_running w' = simulation_running w
    /\ event_queue w' = event_queue w.
Proof.
  intros Hes Hres Hr Hname Hst Hall.
  rewrite (manager_handle_event_ok status event w a r Hes Hres Hr Hall).
  assert (Hd : strcmp_eq (res_name r) "Distance" = false).
  { unfold strcmp_eq. apply String.eqb_neq. exact Hname. }
  rewrite Hst, Hd. cbn [Z.eqb STATUS_CAPACITY STATUS_EMPTY STATUS_LOW
                         STATUS_INSUFFICIENT andb orb].
  eexists. split; [reflexivity|]. split; [|repeat split].
  intros p s Hs. cbn. rewrite (retune_all_lookup_Some _ _ _ _ p s Hs). f_equal.
  destruct (decide (p ∈ system_array w /\ ra_resource (produced s) = Some a))
    as [[? ?]|Hn].
  - rewrite decide_True by auto. reflexivity.
  - rewrite decide_False; [reflexivity|].
    intros [? [Ht|?]]; [discriminate Ht|]. apply Hn. auto.
Qed.

Lemma manager_slows_down_producers_witness :
  exists w',
    manager_handle_event STANDARD
      (event_init 3%nat (Some energy) STATUS_CAPACITY PRIORITY_LOW 50) load_data
    = Ok (SLOW, w')
    /\ status_of 3%nat w' = Some SLOW
    /\ status_of 1%nat w' = Some STANDARD
    /\ simulation_running w' = 1.
Proof.
  destruct (manager_slows_down_producers load_data STANDARD
              (event_init 3%nat (Some energy) STATUS_CAPACITY PRIORITY_LOW 50)
              energy (mkResource "Energy" 30 50))
    as (w' & Hrun & Hsys & _ & Hflag & _).
  - vm_compute. eauto.
  - reflexivity.
  - reflexivity.
  - discriminate.
  - reflexivity.
  - intros p Hp. cbn in Hp.
    repeat (apply elem_of_cons in Hp as [->|Hp]; [vm_compute; eauto|]).
    apply elem_of_nil in Hp. contradiction.
  - exists w'. split; [exact Hrun|]. unfold status_of.
    rewrite (Hsys 3%nat generator_system eq_refl).
    rewrite (Hsys 1%nat life_support_system eq_refl).
    rewrite Hflag. repeat split.
Defined.

(** X17: a shortage of "Oxygen" that is not an EMPTY does not end the
    simulation.  On a LOW or INSUFFICIENT event, whatever the name of the
    resource, one turn of the loop of [manager_run] sets to FAST the status
    of the systems of the array that produce the resource, and leaves
    [simulation_running] and every other system as they were. *)
Theorem manager_shortage_never_terminates (w : World) (status : Z)
    (event : Event) (a : nat) (r : Resource) :
  is_Some (systems w !! ev_system event) ->
  ev_resource event = Some a ->
  resources w !! a = Some r ->
  ev_status event = STATUS_LOW \/ ev_status event = STATUS_INSUFFICIENT ->
  (forall p, p ∈ system_array w -> is_Some (systems w !! p)) ->
  exists w',
    manager_handle_event status event w = Ok (FAST, w')
    /\ simulation_running w' = simulation_running w
    /\ (forall p s, systems w !! p = Some s ->
          systems w' !! p
          = Some (if decide (p ∈ system_array w
                             /\ ra_resource (produced s) = Some a)
                  then set_status FAST s else s)).
Proof.
  intros Hes Hres Hr Hst Hall.
  rewrite (manager_handle_event_ok status event w a r Hes Hres Hr Hall).
  assert (Hflags : (ev_status event =? STATUS_EMPTY) = false
                   /\ (ev_status event =? STATUS_CAPACITY) = false
                   /\ ((ev_status event =? STATUS_LOW)
                       || (ev_status event =? STATUS_EMPTY)
                       || (ev_status event =? STATUS_INSUFFICIENT)) = true).
  { destruct Hst as [-> | ->]; repeat split. }
  destruct Hflags as (-> & -> & ->). cbn [andb orb].
  eexists. split; [reflexivity|]. split; [reflexivity|].
  intros p s Hs. cbn. rewrite (retune_all_lookup_Some _ _ _ _ p s Hs). f_equal.
  destruct (decide (p ∈ system_array w /\ ra_resource (produced s) = Some a))
    as [[? ?]|Hn].
  - rewrite decide_True by auto. reflexivity.
  - rewrite decide_False; [reflexivity|].
    intros [? [Ht|?]]; [discriminate Ht|]. apply Hn. auto.
Qed.

Lemma manager_shortage_never_terminates_witness :
  exists w',
    manager_handle_event STANDARD
      (event_init 2%nat (Some oxygen) STATUS_INSUFFICIENT PRIORITY_HIGH 3)
      load_data
    = Ok (FAST, w')
    /\ simulation_running w' = 1
    /\ status_of 1%nat w' = Some FAST
    /\ status_of 2%nat w' = Some STANDARD.
Proof.
  destruct (manager_shortage_never_terminates load_data STANDARD
              (event_init 2%nat (Some oxygen) STATUS_INSUFFICIENT PRIORITY_HIGH 3)
              oxygen (mkResource "Oxygen" 20 50))
    as (w' & Hrun & Hflag & Hsys).
  - vm_compute. eauto.
  - reflexivity.
  - reflexivity.
  - right. reflexivity.
  - intros p Hp. cbn in Hp.
    repeat (apply elem_of_cons in Hp as [->|Hp]; [vm_compute; eauto|]).
    apply elem_of_nil in Hp. contradiction.
  - exists w'. split; [exact Hrun|]. split; [exact Hflag|]. unfold status_of.
    rewrite (Hsys 1%nat life_support_system eq_refl).
    rewrite (Hsys 2%nat crew_capsule_system eq_refl). repeat split.
Defined.

(** X18: an event whose status is none of EMPTY, LOW, INSUFFICIENT and
    CAPACITY (OK or PRODUCED, say) is read and dropped: the turn of the
    loop of [manager_run] changes nothing and keeps the local [status]. *)
Theorem manager_ignores_other_statuses (w : World) (status : Z) (event : Event) :
  event_ok w event ->
  ev_status event <> STATUS_EMPTY -> ev_status event <> STATUS_LOW ->
  ev_status event <> STATUS_INSUFFICIENT ->
  ev_status event <> STATUS_CAPACITY ->
  manager_handle_event status event w = Ok (status, w).
Proof.
  intros ([es Hes] & a & Hres & [r Hr]) H1 H2 H3 H4.
  rewrite (manager_handle_event_eq status event w es a r Hes Hres Hr).
  destruct (Z.eqb_spec (ev_status event) STATUS_EMPTY); [contradiction|].
  destruct (Z.eqb_spec (ev_status event) STATUS_LOW); [contradiction|].
  destruct (Z.eqb_spec (ev_status event) STATUS_INSUFFICIENT); [contradiction|].
  destruct (Z.eqb_spec (ev_status event) STATUS_CAPACITY); [contradiction|].
  reflexivity.
Qed.

Lemma manager_ignores_other_statuses_witness :
  manager_handle_event FAST
    (event_init 0%nat (Some fuel) STATUS_PRODUCED PRIORITY_MED 10) load_data
  = Ok (FAST, load_data).
Proof.
  apply manager_ignores_other_statuses; try discriminate.
  split; [vm_compute; eauto|]. exists fuel. split; [reflexivity|vm_compute; eauto].
Defined.

(** ** The manager: the whole drain *)

(** The manager does not look at the queue while it handles an event. *)
Lemma manager_update_systems_queue arr status resource q w :
  manager_update_systems arr status resource (set_event_queue q w)
  = on_world (set_event_queue q) (manager_update_systems arr status resource w).
Proof.
  revert w. induction arr as [|a arr IH]; intros w; [reflexivity|].
  cbn [manager_update_systems]. unfold_mem.
  change (systems (set_event_queue q w)) with (systems w).
  destruct (systems w !! a) as [s|] eqn:Hs; [|reflexivity].
  destruct (_ || _).
  - change (systems (set_event_queue q w)) with (systems w). rewrite Hs.
    change (set_systems (<[a := set_status status s]> (systems w))
              (set_event_queue q w))
      with (set_event_queue q
              (set_systems (<[a := set_status status s]> (systems w)) w)).
    apply IH.
  - apply IH.
Qed.

Lemma manager_handle_event_queue status event q w :
  manager_handle_event status event (set_event_queue q w)
  = on_world (set_event_queue q) (manager_handle_event status event w).
Proof.
  assert (Hsys : systems (set_event_queue q w) = systems w) by reflexivity.
  assert (Hre : resources (set_event_queue q w) = resources w) by reflexivity.
  destruct (systems w !! ev_system event) as [es|] eqn:Hes.
  2:{ unfold manager_handle_event, bind, load_sys. rewrite Hsys, Hes.
      reflexivity. }
  destruct (ev_resource event) as [a|] eqn:Hres.
  2:{ unfold manager_handle_event, bind, load_sys, load_res.
      rewrite Hsys, Hes, Hres. reflexivity. }
  destruct (resources w !! a) as [r|] eqn:Hr.
  2:{ unfold manager_handle_event, bind, load_sys, load_res.
      rewrite Hsys, Hes, Hres, Hre, Hr. reflexivity. }
  rewrite (manager_handle_event_eq status event (set_event_queue q w) es a r
             Hes Hres Hr).
  rewrite (manager_handle_event_eq status event w es a r Hes Hres Hr).
  assert (Hswap : set_simulation_running 0 (set_event_queue q w)
                  = set_event_queue q (set_simulation_running 0 w))
    by reflexivity.
  assert (Harr : forall x, system_array (set_event_queue q x) = system_array x)
    by reflexivity.
  set (b1 := (ev_status event =? STATUS_EMPTY)
             && strcmp_eq (res_name r) "Oxygen").
  set (b2 := (ev_status event =? STATUS_CAPACITY)
             && strcmp_eq (res_name r) "Distance").
  set (b3 := (ev_status event =? STATUS_LOW) || (ev_status event =? STATUS_EMPTY)
             || (ev_status event =? STATUS_INSUFFICIENT)).
  set (b4 := ev_status event =? STATUS_CAPACITY).
  destruct b1, b2, b3, b4; cbn [orb]; try reflexivity;
    rewrite ?Hswap, Harr, manager_update_systems_queue;
    match goal with
    | |- context [manager_update_systems ?arr ?st ?res ?x] =>
        destruct (manager_update_systems arr st res x) as [[[] w']|e];
        reflexivity
    end.
Qed.

Lemma manager_drain_queue events :
  forall status q w,
    manager_drain events status (set_event_queue q w)
    = on_world (set_event_queue q) (manager_drain events status w).
Proof.
  induction events as [|e rest IH]; intros status q w; [reflexivity|].
  cbn [manager_drain]. unfold bind. rewrite manager_handle_event_queue.
  destruct (manager_handle_event status e w) as [[st' w1]|err]; [|reflexivity].
  cbn [on_world]. apply IH.
Qed.

Lemma manager_drain_cons event rest status w :
  manager_drain (event :: rest) status w
  = match manager_handle_event status event w with
    | Ok (status', w1) => manager_drain rest status' w1
    | Err e => Err e
    end.
Proof. reflexivity. Qed.

(** The [while] of [manager_run] is the drain of the event at hand and of
    the events of the queue, with the queue emptied pop by pop. *)
Lemma manager_while_drain rest :
  forall turns event status w,
    head (event_queue w) = rest -> (length rest < turns)%nat ->
    manager_while turns (Some event) status w
    = match manager_drain (event :: rest) status w with
      | Ok (_, w') =>
          Ok (tt, set_event_queue
                    (mkEventQueue []
                       (size_after_pops (length rest) (size (event_queue w))))
                    w')
      | Err e => Err e
      end.
Proof.
  induction rest as [|e2 rest IH]; intros turns event status w Hhead Hlen.
  - destruct turns as [|turns]; [cbn in Hlen; lia|].
    cbn [manager_while]. rewrite manager_drain_cons. unfold bind at 1.
    pose proof (manager_handle_event_effect status event w) as Heff.
    destruct (manager_handle_event status event w) as [[st' w1]|err];
      [|reflexivity].
    destruct Heff as (Hq & _). unfold bind at 1. rewrite pop_event_eq, Hq, Hhead.
    cbn [ret size_after_pops Nat.iter length].
    replace (manager_while turns None st' w1) with (Ok (tt, w1))
      by (destruct turns; reflexivity).
    do 2 f_equal. destruct w1 as [sy re ru sa ra q sl]. cbn in *. subst q.
    destruct (event_queue w) as [h s]. cbn in *. subst h. reflexivity.
  - destruct turns as [|turns]; [cbn in Hlen; lia|].
    cbn [manager_while]. rewrite manager_drain_cons. unfold bind at 1.
    pose proof (manager_handle_event_effect status event w) as Heff.
    destruct (manager_handle_event status event w) as [[st' w1]|err];
      [|reflexivity].
    destruct Heff as (Hq & _). unfold bind at 1. rewrite pop_event_eq, Hq, Hhead.
    set (q2 := mkEventQueue rest (CInt.sub (size (event_queue w)) 1)).
    rewrite (IH turns e2 st' (set_event_queue q2 w1)) by (cbn in *; lia || reflexivity).
    rewrite manager_drain_queue.
    destruct (manager_drain (e2 :: rest) st' w1) as [[st2 w2]|err]; [|reflexivity].
    cbn [on_world]. do 2 f_equal.
    cbn [length]. unfold size_after_pops. rewrite Nat.iter_succ_r. reflexivity.
Qed.

Lemma size_after_pops_eq n s :
  size_after_pops n s = if n is O then s else CInt.int_wrap (s - Z.of_nat n).
Proof.
  revert s. induction n as [|n IH]; intros s; [reflexivity|].
  unfold size_after_pops in *. rewrite Nat.iter_succ_r, IH.
  destruct n as [|n].
  - unfold CInt.sub. f_equal.
  - unfold CInt.sub.
    replace (CInt.int_wrap (s - 1) - Z.of_nat (S n))
      with (CInt.int_wrap (s - 1) + - Z.of_nat (S n)) by lia.
    rewrite int_wrap_add_l. f_equal. lia.
Qed.

(** [manager_run], pops and loop resolved: the display, then the drain of
    the events of the queue in order, then the queue without nodes. *)
Lemma manager_run_drain w :
  manager_run w
  = match display_simulation_state w with
    | Ok _ =>
        match manager_drain (head (event_queue w)) STANDARD w with
        | Ok (_, w') =>
            Ok (tt, set_event_queue
                      (mkEventQueue []
                         (size_after_pops (length (head (event_queue w)))
                            (size (event_queue w))))
                      w')
        | Err e => Err e
        end
    | Err e => Err e
    end.
Proof.
  unfold manager_run. unfold bind at 1.
  pose proof (display_simulation_state_effect w) as Hd.
  destruct (display_simulation_state w) as [[[] w0]|e]; [|reflexivity].
  subst w0. unfold bind at 1. unfold get_queue at 1. unfold bind at 1.
  rewrite pop_event_eq.
  destruct (head (event_queue w)) as [|e rest] eqn:Hhead.
  - cbn. do 2 f_equal. destruct w as [sy re ru sa ra q sl]. cbn in *.
    destruct q as [h s]. cbn in *. subst h. reflexivity.
  - set (q1 := mkEventQueue rest (CInt.sub (size (event_queue w)) 1)).
    rewrite (manager_while_drain rest (length (e :: rest)) e STANDARD
               (set_event_queue q1 w)) by (cbn; lia || reflexivity).
    rewrite manager_drain_queue.
    destruct (manager_drain (e :: rest) STANDARD w) as [[st w1]|err];
      [|reflexivity].
    cbn [on_world]. do 2 f_equal.
    cbn [length]. unfold size_after_pops. rewrite Nat.iter_succ_r. reflexivity.
Qed.

Lemma status_only_refl m : status_only m m.
Proof.
  intros p. destruct (m !! p) as [s|]; [|exact I].
  exists (status s). destruct s; reflexivity.
Qed.

Lemma status_only_trans m1 m2 m3 :
  status_only m1 m2 -> status_only m2 m3 -> status_only m1 m3.
Proof.
  intros H12 H23 p. specialize (H12 p). specialize (H23 p).
  destruct (m1 !! p), (m2 !! p), (m3 !! p); try contradiction; try exact I.
  destruct H12 as [v ->], H23 as [v' ->]. exists v'. reflexivity.
Qed.

Lemma status_only_insert (m : gmap nat System) p s v :
  m !! p = Some s -> status_only m (<[p := set_status v s]> m).
Proof.
  intros Hs q. destruct (decide (p = q)) as [<-|Hne].
  - rewrite lookup_insert_eq, Hs. eauto.
  - rewrite lookup_insert_ne by exact Hne.
    destruct (m !! q) as [s'|]; [|exact I].
    exists (status s'). destruct s'; reflexivity.
Qed.

Lemma status_only_is_Some m m' p :
  status_only m m' -> is_Some (m !! p) -> is_Some (m' !! p).
Proof.
  intros H [s Hs]. specialize (H p). rewrite Hs in H.
  destruct (m' !! p); [eauto|contradiction].
Qed.

Lemma manager_frame_refl w : manager_frame w w.
Proof. repeat split. apply status_only_refl. Qed.

Lemma manager_frame_trans w1 w2 w3 :
  manager_frame w1 w2 -> manager_frame w2 w3 -> manager_frame w1 w3.
Proof.
  intros (A1 & A2 & A3 & A4 & A5 & A6) (B1 & B2 & B3 & B4 & B5 & B6).
  repeat split; try congruence. eapply status_only_trans; eassumption.
Qed.

Lemma manager_update_systems_frame arr status resource w :
  match manager_update_systems arr status resource w with
  | Ok (_, w') =>
      manager_frame w w' /\ simulation_running w' = simulation_running w
  | Err e => e = BadPointer
  end.
Proof.
  revert w. induction arr as [|a arr IH]; intros w.
  - split; [apply manager_frame_refl|reflexivity].
  - cbn [manager_update_systems]. unfold_mem.
    destruct (systems w !! a) as [s|] eqn:Hs; [|reflexivity].
    destruct (_ || _).
    + rewrite Hs.
      specialize (IH (set_systems (<[a := set_status status s]> (systems w)) w)).
      destruct (manager_update_systems arr status resource _) as [[[] w']|e];
        [|exact IH].
      destruct IH as [Hf Hrun]. split; [|exact Hrun].
      eapply manager_frame_trans; [|exact Hf].
      repeat split. apply status_only_insert, Hs.
    + apply IH.
Qed.

(** The flags of [manager_run] that end the simulation, read as events. *)
Lemma final_event_flags w event a r :
  ev_resource event = Some a -> resources w !! a = Some r ->
  ((ev_status event =? STATUS_EMPTY) && strcmp_eq (res_name r) "Oxygen"
   || (ev_status event =? STATUS_CAPACITY) && strcmp_eq (res_name r) "Distance")
  = true
  <-> final_event w event.
Proof.
  intros Hres Hr. unfold final_event, oxygen_depleted, distance_reached, strcmp_eq.
  rewrite orb_true_iff, !andb_true_iff, !Z.eqb_eq, !String.eqb_eq. split.
  - intros [[Hst Hn]|[Hst Hn]]; [left|right]; (split; [exact Hst|]);
      exists a, r; auto.
  - intros [(Hst & a' & r' & Ha & Hr' & Hn)|(Hst & a' & r' & Ha & Hr' & Hn)];
      [left|right]; (split; [exact Hst|]);
      replace r with r' by congruence; exact Hn.
Qed.

(** One turn of the [while]: what it leaves alone, and the run flag. *)
Lemma manager_handle_event_frame status event w :
  match manager_handle_event status event w with
  | Ok (_, w') =>
      manager_frame w w'
      /\ (final_event w event -> simulation_running w' = 0)
      /\ (~ final_event w event ->
          simulation_running w' = simulation_running w)
  | Err e => e = BadPointer \/ e = NullDeref
  end.
Proof.
  destruct (systems w !! ev_system event) as [es|] eqn:Hes.
  2:{ unfold manager_handle_event, bind, load_sys. rewrite Hes. auto. }
  destruct (ev_resource event) as [a|] eqn:Hres.
  2:{ unfold manager_handle_event, bind, load_sys, load_res.
      rewrite Hes, Hres. auto. }
  destruct (resources w !! a) as [r|] eqn:Hr.
  2:{ unfold manager_handle_event, bind, load_sys, load_res.
      rewrite Hes, Hres, Hr. auto. }
  rewrite (manager_handle_event_eq status event w es a r Hes Hres Hr).
  pose proof (final_event_flags w event a r Hres Hr) as Hfinal.
  set (stop := (ev_status event =? STATUS_EMPTY)
               && strcmp_eq (res_name r) "Oxygen"
               || (ev_status event =? STATUS_CAPACITY)
                  && strcmp_eq (res_name r) "Distance") in *.
  set (w0 := if stop then set_simulation_running 0 w else w).
  assert (Hw0 : manager_frame w w0
                /\ (final_event w event -> simulation_running w0 = 0)
                /\ (~ final_event w event ->
                    simulation_running w0 = simulation_running w)).
  { unfold w0. destruct stop.
    - split; [repeat split; apply status_only_refl|]. split; [reflexivity|].
      intros Hn. exfalso. apply Hn, Hfinal. reflexivity.
    - split; [apply manager_frame_refl|]. split; [|reflexivity].
      intros Hf. apply Hfinal in Hf. discriminate. }
  match goal with
  | |- match (if ?c then _ else _) with _ => _ end => destruct c
  end; [|exact Hw0].
  match goal with
  | |- context [manager_update_systems ?arr ?st ?res w0] =>
      pose proof (manager_update_systems_frame arr st res w0) as Hup;
      destruct (manager_update_systems arr st res w0) as [[[] w']|e]
  end; [|auto].
  destruct Hw0 as (F0 & H1 & H2). destruct Hup as [F1 Hrun].
  split; [eapply manager_frame_trans; eassumption|].
  rewrite Hrun. auto.
Qed.

Lemma final_event_frame w w' event :
  resources w' = resources w -> final_event w' event <-> final_event w event.
Proof.
  intros Hre. unfold final_event, oxygen_depleted, distance_reached.
  rewrite Hre. reflexivity.
Qed.

(** The drain of a list of events: what it leaves alone, and the run flag. *)
Lemma manager_drain_frame events :
  forall status w,
    match manager_drain events status w with
    | Ok (_, w') =>
        manager_frame w w'
        /\ (simulation_running w' = 0
            <-> simulation_running w = 0
                \/ exists e, e ∈ events /\ final_event w e)
        /\ (simulation_running w' <> 0 ->
            simulation_running w' = simulation_running w)
    | Err e => e = BadPointer \/ e = NullDeref
    end.
Proof.
  induction events as [|event rest IH]; intros status w.
  - cbn. split; [apply manager_frame_refl|]. split; [|reflexivity].
    split; [auto|]. intros [H|(e & He & _)]; [exact H|].
    apply elem_of_nil in He. contradiction.
  - rewrite manager_drain_cons.
    pose proof (manager_handle_event_frame status event w) as H1.
    destruct (manager_handle_event status event w) as [[st' w1]|err];
      [|exact H1].
    destruct H1 as (F1 & Hfin & Hnfin).
    specialize (IH st' w1).
    destruct (manager_drain rest st' w1) as [[st2 w2]|err]; [|exact IH].
    destruct IH as (F2 & Hiff & Hkeep).
    pose proof F1 as (Hre & _).
    split; [eapply manager_frame_trans; eassumption|].
    assert (Hdec : final_event w event \/ ~ final_event w event).
    { destruct (ev_resource event) as [a|] eqn:Hres.
      2:{ right. intros [(_ & a & r & Ha & _)|(_ & a & r & Ha & _)]; congruence. }
      destruct (resources w !! a) as [r|] eqn:Hr.
      2:{ right. intros [(_ & a' & r' & Ha & Hr' & _)|(_ & a' & r' & Ha & Hr' & _)];
            congruence. }
      pose proof (final_event_flags w event a r Hres Hr) as Hf.
      destruct (_ || _); [left; apply Hf; reflexivity|].
      right. intros H. apply Hf in H. discriminate. }
    split.
    + rewrite Hiff. split.
      * intros [H1|(e & He & Hf)].
        -- destruct Hdec as [Hd|Hd].
           ++ right. exists event. split; [left|exact Hd].
           ++ left. rewrite <- (Hnfin Hd). exact H1.
        -- right. exists e. split; [right; exact He|].
           apply (final_event_frame w w1 e Hre), Hf.
      * intros [H0|(e & He & Hf)].
        -- left. destruct Hdec as [Hd|Hd]; [auto|]. rewrite (Hnfin Hd). exact H0.
        -- apply elem_of_cons in He as [->|He]; [left; auto|].
           right. exists e. split; [exact He|].
           apply (final_event_frame w w1 e Hre), Hf.
    + intros Hnz. rewrite (Hkeep Hnz). destruct Hdec as [Hd|Hd]; [|auto].
      exfalso. apply Hnz. apply Hiff. left. auto.
Qed.

(** X19: what [manager_run] leaves behind.  When it returns, the queue has
    no node left and [size] went down by one per event (to 0 when it
    counted the nodes); the resources, the sleeps and the two arrays are as
    before, no system appeared or disappeared, and a system differs from
    what it was in its status at most. *)
Theorem manager_run_drains (w w' : World) :
  manager_run w = Ok (tt, w') ->
  head (event_queue w') = []
  /\ size (event_queue w')
     = size_after_pops (length (head (event_queue w))) (size (event_queue w))
  /\ (size (event_queue w) = Z.of_nat (length (head (event_queue w))) ->
      CInt.is_int (size (event_queue w)) ->
      size (event_queue w') = 0)
  /\ resources w' = resources w
  /\ sleeps w' = sleeps w
  /\ system_array w' = system_array w
  /\ resource_array w' = resource_array w
  /\ (forall p,
        match systems w !! p, systems w' !! p with
        | Some s, Some s' => exists v, s' = set_status v s
        | None, None => True
        | _, _ => False
        end).
Proof.
  rewrite manager_run_drain.
  destruct (display_simulation_state w) as [[[] w0]|e]; [|discriminate].
  pose proof (manager_drain_frame (head (event_queue w)) STANDARD w) as Hd.
  destruct (manager_drain (head (event_queue w)) STANDARD w) as [[st w1]|e];
    [|discriminate].
  intros [= <-]. destruct Hd as ((Hre & Hq & Hsl & Hsa & Hra & Hso) & _).
  split; [reflexivity|]. split; [reflexivity|].
  split; [|repeat split; assumption].
  intros Hsize Hint. cbn [event_queue set_event_queue size].
  rewrite size_after_pops_eq.
  destruct (length (head (event_queue w))) as [|n] eqn:Hn.
  - rewrite Hsize. reflexivity.
  - rewrite Hsize, Z.sub_diag. reflexivity.
Qed.

Lemma manager_run_drains_witness :
  let w := world_after ((system_run 2%nat >> system_run 1%nat) starved) starved in
  head (event_queue (world_after (manager_run w) w)) = []
  /\ size (event_queue (world_after (manager_run w) w)) = 0
  /\ resources (world_after (manager_run w) w) = resources w.
Proof.
  intros w.
  destruct (manager_run_drains w (world_after (manager_run w) w))
    as (H1 & _ & H3 & H4 & _).
  - vm_compute. reflexivity.
  - split; [exact H1|]. split; [|exact H4].
    apply H3; [reflexivity|vm_compute; split; discriminate].
Defined.

(** X20: [manager_run] stops the simulation for the two final events only.
    When it returns, [simulation_running] is 0 exactly when it was 0 on
    entry or the queue held an EMPTY event on "Oxygen" or a CAPACITY event
    on "Distance"; otherwise it has the value it had.  [manager_run] never
    sets it to a non-zero value. *)
Theorem manager_run_stops_on_final_events_only (w w' : World) :
  manager_run w = Ok (tt, w') ->
  (simulation_running w' = 0
   <-> simulation_running w = 0
       \/ exists e, e ∈ head (event_queue w)
                    /\ (oxygen_depleted w e \/ distance_reached w e))
  /\ (simulation_running w' <> 0 ->
      simulation_running w' = simulation_running w).
Proof.
  rewrite manager_run_drain.
  destruct (display_simulation_state w) as [[[] w0]|e]; [|discriminate].
  pose proof (manager_drain_frame (head (event_queue w)) STANDARD w) as Hd.
  destruct (manager_drain (head (event_queue w)) STANDARD w) as [[st w1]|e];
    [|discriminate].
  intros [= <-]. destruct Hd as (_ & Hiff & Hkeep). split; assumption.
Qed.

Lemma manager_run_stops_on_final_events_only_witness :
  simulation_running (world_after (manager_run load_data) load_data) = 1
  /\ simulation_running
       (world_after
          (manager_run
             (set_event_queue (event_queue_push event_queue_init distance_full)
                load_data)) load_data) = 0.
Proof.
  split.
  - destruct (manager_run_stops_on_final_events_only load_data
                (world_after (manager_run load_data) load_data))
      as [Hiff Hkeep]; [vm_compute; reflexivity|].
    apply Hkeep. intros H0. apply Hiff in H0 as [H0|(e & He & _)].
    + discriminate H0.
    + apply elem_of_nil in He. contradiction.
  - set (w := set_event_queue (event_queue_push event_queue_init distance_full)
                load_data).
    destruct (manager_run_stops_on_final_events_only w
                (world_after (manager_run w) load_data))
      as [Hiff _]; [vm_compute; reflexivity|].
    apply Hiff. right. exists distance_full. split; [left|].
    right. split; [reflexivity|].
    exists distance, (mkResource "Distance" 0 5000). repeat split.
Defined.

Lemma display_simulation_state_ok w :
  (forall a, a ∈ resource_array w -> is_Some (resources w !! a)) ->
  (forall p, p ∈ system_array w -> is_Some (systems w !! p)) ->
  display_simulation_state w = Ok (tt, w).
Proof.
  intros Hra Hsa.
  assert (Hr : forall arr, (forall a, a ∈ arr -> is_Some (resources w !! a)) ->
                           display_resources arr w = Ok (tt, w)).
  { induction arr as [|a arr IH]; intros Hall; [reflexivity|].
    cbn [display_resources]. unfold_mem.
    destruct (Hall a (list_elem_of_here a arr)) as [r ->].
    apply IH. intros b Hb. apply Hall. right. exact Hb. }
  assert (Hs : forall arr, (forall p, p ∈ arr -> is_Some (systems w !! p)) ->
                           display_systems arr w = Ok (tt, w)).
  { induction arr as [|a arr IH]; intros Hall; [reflexivity|].
    cbn [display_systems]. unfold_mem.
    destruct (Hall a (list_elem_of_here a arr)) as [r ->].
    apply IH. intros b Hb. apply Hall. right. exact Hb. }
  unfold display_simulation_state, bind, get_resource_array, get_system_array.
  rewrite (Hr _ Hra). apply Hs, Hsa.
Qed.

Lemma event_ok_frame w w' event :
  manager_frame w w' -> event_ok w event -> event_ok w' event.
Proof.
  intros (Hre & _ & _ & _ & _ & Hso) (Hsys & a & Ha & Hr). split.
  - eapply status_only_is_Some; eassumption.
  - exists a. rewrite Hre. auto.
Qed.

Lemma manager_handle_event_returns status event w :
  event_ok w event ->
  (forall p, p ∈ system_array w -> is_Some (systems w !! p)) ->
  exists st' w', manager_handle_event status event w = Ok (st', w').
Proof.
  intros (Hes & a & Hres & [r Hr]) Hall.
  rewrite (manager_handle_event_ok status event w a r Hes Hres Hr Hall). eauto.
Qed.

Lemma manager_drain_returns events :
  forall status w,
    Forall (event_ok w) events ->
    (forall p, p ∈ system_array w -> is_Some (systems w !! p)) ->
    exists st' w', manager_drain events status w = Ok (st', w').
Proof.
  induction events as [|event rest IH]; intros status w Hev Hall.
  - cbn. eauto.
  - rewrite manager_drain_cons. apply Forall_cons in Hev as [He Hrest].
    destruct (manager_handle_event_returns status event w He Hall)
      as (st1 & w1 & H1).
    pose proof (manager_handle_event_frame status event w) as Hf.
    rewrite H1 in Hf |- *. destruct Hf as (Hf & _).
    apply IH.
    + eapply Forall_impl; [exact Hrest|]. intros e. apply event_ok_frame, Hf.
    + destruct Hf as (_ & _ & _ & Hsa & _ & Hso). rewrite Hsa.
      intros p Hp. eapply status_only_is_Some; [exact Hso|apply Hall, Hp].
Qed.

Lemma manager_run_ok w :
  manager_ok w -> exists w', manager_run w = Ok (tt, w').
Proof.
  intros (Hra & Hsa & Hev). rewrite manager_run_drain.
  rewrite (display_simulation_state_ok w Hra Hsa).
  destruct (manager_drain_returns (head (event_queue w)) STANDARD w Hev Hsa)
    as (st & w1 & H1).
  rewrite H1. eauto.
Qed.

(** X21: [manager_run] returns whenever the pointers it follows can be
    followed: the resources of [resource_array] and the systems of
    [system_array] are allocated, and every event of the queue names an
    allocated system and a non-null allocated resource. *)
Theorem manager_run_returns (w : World) :
  (forall a, a ∈ resource_array w -> is_Some (resources w !! a)) ->
  (forall p, p ∈ system_array w -> is_Some (systems w !! p)) ->
  (forall e, e ∈ head (event_queue w) ->
     is_Some (systems w !! ev_system e)
     /\ exists a, ev_resource e = Some a /\ is_Some (resources w !! a)) ->
  exists w', manager_run w = Ok (tt, w').
Proof.
  intros Hra Hsa Hev.
  apply manager_run_ok. split; [exact Hra|]. split; [exact Hsa|].
  apply Forall_forall. exact Hev.
Qed.

Lemma load_data_arrays_ok :
  (forall a, a ∈ resource_array load_data -> is_Some (resources load_data !! a))
  /\ (forall p, p ∈ system_array load_data -> is_Some (systems load_data !! p)).
Proof.
  split; intros p Hp; cbn in Hp;
    repeat (apply elem_of_cons in Hp as [->|Hp]; [vm_compute; eauto|]);
    apply elem_of_nil in Hp; contradiction.
Qed.

Lemma manager_run_returns_witness :
  exists w',
    manager_run (set_event_queue
                   (event_queue_push event_queue_init energy_insufficient)
                   load_data) = Ok (tt, w').
Proof.
  apply manager_run_returns.
  - apply load_data_arrays_ok.
  - apply load_data_arrays_ok.
  - intros e He. cbn in He. apply elem_of_cons in He as [->|He].
    + split; [vm_compute; eauto|]. exists energy. split; [reflexivity|].
      vm_compute. eauto.
    + apply elem_of_nil in He. contradiction.
Defined.

Lemma manager_drain_app l1 :
  forall l2 status w,
    manager_drain (l1 ++ l2) status w
    = match manager_drain l1 status w with
      | Ok (status', w1) => manager_drain l2 status' w1
      | Err e => Err e
      end.
Proof.
  induction l1 as [|e l1 IH]; intros l2 status w; [reflexivity|].
  cbn [app]. rewrite !manager_drain_cons.
  destruct (manager_handle_event status e w) as [[st1 w1]|err]; [|reflexivity].
  apply IH.
Qed.

(** X22: the last final event stands.  When the pointers can be followed
    and the last event of the queue is an EMPTY on "Oxygen" or a CAPACITY
    on "Distance", [manager_run] returns with [simulation_running] at 0 and
    every system of the array at TERMINATE. *)
Theorem manager_run_final_event_last (w : World) (events : list Event)
    (event : Event) :
  (forall a, a ∈ resource_array w -> is_Some (resources w !! a)) ->
  (forall p, p ∈ system_array w -> is_Some (systems w !! p)) ->
  (forall e, e ∈ head (event_queue w) ->
     is_Some (systems w !! ev_system e)
     /\ exists a, ev_resource e = Some a /\ is_Some (resources w !! a)) ->
  head (event_queue w) = events ++ [event] ->
  oxygen_depleted w event \/ distance_reached w event ->
  exists w',
    manager_run w = Ok (tt, w')
    /\ simulation_running w' = 0
    /\ (forall p, p ∈ system_array w -> status_of p w' = Some TERMINATE).
Proof.
  intros Hra Hsa Hev Hhead Hfinal. rewrite manager_run_drain.
  rewrite (display_simulation_state_ok w Hra Hsa), Hhead, manager_drain_app.
  assert (Hok : Forall (event_ok w) (events ++ [event])).
  { rewrite <- Hhead. apply Forall_forall. exact Hev. }
  apply Forall_app in Hok as [Hok1 Hok2]. apply Forall_cons in Hok2 as [Hok2 _].
  destruct (manager_drain_returns events STANDARD w Hok1 Hsa) as (st1 & w1 & H1).
  pose proof (manager_drain_frame events STANDARD w) as Hf.
  rewrite H1 in Hf |- *. destruct Hf as (Hf & _).
  pose proof Hf as (Hre & _ & _ & Harr & _ & Hso).
  assert (Hsa1 : forall p, p ∈ system_array w1 -> is_Some (systems w1 !! p)).
  { rewrite Harr. intros p Hp.
    eapply status_only_is_Some; [exact Hso|apply Hsa, Hp]. }
  destruct (manager_final_event_step w1 st1 event)
    as (w2 & H2 & Hflag & Hsys & _).
  - apply (event_ok_frame w w1 event Hf Hok2).
  - exact Hsa1.
  - apply (final_event_frame w w1 event Hre). exact Hfinal.
  - rewrite manager_drain_cons, H2. cbn [manager_drain ret].
    eexists. split; [reflexivity|]. split; [exact Hflag|].
    intros p Hp. unfold status_of. cbn [systems set_event_queue].
    destruct (Hsa1 p ltac:(rewrite Harr; exact Hp)) as [s1 Hs1].
    rewrite (Hsys p s1 Hs1), Harr, decide_True by exact Hp. reflexivity.
Qed.

Lemma manager_run_final_event_last_witness :
  exists w',
    manager_run
      (set_event_queue
         (push_all event_queue_init [energy_insufficient; distance_full])
         load_data) = Ok (tt, w')
    /\ simulation_running w' = 0
    /\ status_of 3%nat w' = Some TERMINATE.
Proof.
  destruct (manager_run_final_event_last
              (set_event_queue
                 (push_all event_queue_init [energy_insufficient; distance_full])
                 load_data) [energy_insufficient] distance_full)
    as (w' & Hrun & Hflag & Hsys).
  - apply load_data_arrays_ok.
  - apply load_data_arrays_ok.
  - intros e He. cbn in He.
    repeat (apply elem_of_cons in He as [->|He];
            [split; [vm_compute; eauto|];
             eexists; split; [reflexivity|vm_compute; eauto]|]).
    apply elem_of_nil in He. contradiction.
  - reflexivity.
  - right. split; [reflexivity|].
    exists distance, (mkResource "Distance" 0 5000). repeat split.
  - exists w'. split; [exact Hrun|]. split; [exact Hflag|].
    apply Hsys. cbn. do 3 right. left.
Defined.

(** X23: the loop of [manager_thread].  With [simulation_running] at 0 it
    exits at its first test and changes nothing.  With the flag set, the
    pointers right and a final event in the queue, it drains once, sleeps
    the manager wait time once and exits at its second test, with the flag
    at 0 and the queue empty. *)
Theorem manager_thread_exits (w : World) :
  (simulation_running w = 0 ->
   forall turns, manager_thread (S turns) w = Ok (tt, w))
  /\ (simulation_running w <> 0 ->
      (forall a, a ∈ resource_array w -> is_Some (resources w !! a)) ->
      (forall p, p ∈ system_array w -> is_Some (systems w !! p)) ->
      (forall e, e ∈ head (event_queue w) ->
         is_Some (systems w !! ev_system e)
         /\ exists a, ev_resource e = Some a /\ is_Some (resources w !! a)) ->
      (exists e, e ∈ head (event_queue w)
                 /\ (oxygen_depleted w e \/ distance_reached w e)) ->
      forall turns,
      exists w',
        manager_thread (S (S turns)) w = Ok (tt, w')
        /\ simulation_running w' = 0
        /\ sleeps w' = CInt.mul MANAGER_WAIT_TIME 1000 :: sleeps w
        /\ head (event_queue w') = []).
Proof.
  split.
  - intros H0 turns. cbn [manager_thread]. unfold bind at 1.
    unfold manager_thread_iteration. rewrite H0. reflexivity.
  - intros Hrun Hra Hsa Hev Hfinal turns.
    assert (Hok : manager_ok w).
    { split; [exact Hra|]. split; [exact Hsa|]. apply Forall_forall. exact Hev. }
    destruct (manager_run_ok w Hok) as (w1 & H1).
    pose proof H1 as H1'. rewrite manager_run_drain in H1'.
    rewrite (display_simulation_state_ok w Hra Hsa) in H1'.
    pose proof (manager_drain_frame (head (event_queue w)) STANDARD w) as Hd.
    destruct (manager_drain (head (event_queue w)) STANDARD w) as [[st w0]|e];
      [|discriminate].
    injection H1' as <-.
    destruct Hd as ((_ & _ & Hsl & _) & Hiff & _).
    assert (H0 : simulation_running w0 = 0) by (apply Hiff; right; exact Hfinal).
    cbn [manager_thread]. unfold bind at 1.
    unfold manager_thread_iteration at 1.
    destruct (Z.eqb_spec (simulation_running w) 0) as [|_]; [contradiction|].
    cbn [negb]. unfold bind at 1. rewrite H1. unfold bind at 1. unfold usleep.
    cbn [ret]. unfold bind at 1. unfold manager_thread_iteration.
    cbn [simulation_running set_sleeps set_event_queue]. rewrite H0.
    cbn [Z.eqb negb]. eexists. split; [reflexivity|].
    cbn. rewrite Hsl. auto.
Qed.

Lemma manager_thread_exits_witness :
  exists w',
    manager_thread 2
      (set_event_queue (event_queue_push event_queue_init distance_full)
         load_data) = Ok (tt, w')
    /\ simulation_running w' = 0
    /\ sleeps w' = [5000].
Proof.
  destruct (manager_thread_exits
              (set_event_queue (event_queue_push event_queue_init distance_full)
                 load_data)) as [_ H].
  destruct (H ltac:(discriminate)) with (turns := 0%nat)
    as (w' & Hrun & Hflag & Hsl & _).
  - apply load_data_arrays_ok.
  - apply load_data_arrays_ok.
  - intros e He. cbn in He. apply elem_of_cons in He as [->|He].
    + split; [vm_compute; eauto|]. exists distance. split; [reflexivity|].
      vm_compute. eauto.
    + apply elem_of_nil in He. contradiction.
  - exists distance_full. split; [left|]. right. split; [reflexivity|].
    exists distance, (mkResource "Distance" 0 5000). repeat split.
  - exists w'. auto.
Defined.

(** ** Workers and manager together *)

Lemma worker_frame_allocation system s w w' :
  worker_frame system s w w' ->
  systems w !! system = Some s ->
  (forall p, is_Some (systems w !! p) -> is_Some (systems w' !! p))
  /\ (forall a, is_Some (resources w !! a) -> is_Some (resources w' !! a)).
Proof.
  intros (_ & _ & _ & Hother & (s' & Hs' & _) & Hres) Hs. split.
  - intros p Hp. destruct (decide (p = system)) as [->|Hne]; [eauto|].
    rewrite (Hother p Hne). exact Hp.
  - intros a Ha. destruct (Hres a) as [->|(_ & r & r' & _ & -> & _)]; eauto.
Qed.

Lemma system_run_manager_ok w system w' :
  manager_ok w -> system_run system w = Ok (tt, w') -> manager_ok w'.
Proof.
  intros (Hra & Hsa & Hev) Hrun.
  destruct (systems w !! system) as [s|] eqn:Hs.
  2:{ unfold system_run, bind, system_run_convert, bind, load_sys in Hrun.
      rewrite Hs in Hrun. discriminate. }
  pose proof (system_run_worker_frame w system s w' Hs Hrun) as Hf.
  destruct (worker_frame_allocation system s w w' Hf Hs) as [Hsys Hres].
  destruct Hf as (_ & Harr & Hrarr & _).
  split; [rewrite Hrarr; intros a Ha; apply Hres, Hra, Ha|].
  split; [rewrite Harr; intros p Hp; apply Hsys, Hsa, Hp|].
  assert (Hold : Forall (event_ok w') (head (event_queue w))).
  { eapply Forall_impl; [exact Hev|].
    intros e (He & a & Ha & Hr). split; [apply Hsys, He|].
    exists a. split; [exact Ha|apply Hres, Hr]. }
  destruct (system_run_event_cases w w' system s Hs Hrun)
    as [->|(event & -> & Hsysev & _ & (a & Ha & Ham) & _)]; [exact Hold|].
  rewrite event_queue_push_head, (push_scan_perm (head (event_queue w)) event).
  constructor; [|exact Hold]. split.
  - rewrite Hsysev. apply Hsys. eauto.
  - exists a. split; [exact Ha|]. unfold amount_of in Ham.
    destruct (resources w' !! a); [eauto|discriminate].
Qed.

(** X24: the manager can read what the workers report.  If the arrays of
    the manager and the events of the queue only hold pointers that can be
    followed, this is still so after the workers have taken any number of
    turns in any order, and a [manager_run] that follows returns. *)
Theorem manager_run_after_workers (schedule : list sys_ptr) (w w1 : World) :
  manager_ok w ->
  run_turns schedule w = Ok (tt, w1) ->
  manager_ok w1 /\ exists w2, manager_run w1 = Ok (tt, w2).
Proof.
  intros Hok Hrun.
  assert (Hok1 : manager_ok w1).
  { revert w Hok Hrun. induction schedule as [|system rest IH]; intros w Hok Hrun.
    - injection Hrun as <-. exact Hok.
    - cbn [run_turns] in Hrun. unfold bind at 1 in Hrun.
      destruct (system_run system w) as [[[] w0]|e] eqn:H0; [|discriminate].
      apply (IH w0); [|exact Hrun]. apply (system_run_manager_ok w system w0 Hok H0). }
  split; [exact Hok1|apply manager_run_ok, Hok1].
Qed.

Lemma manager_run_after_workers_witness :
  exists w2,
    manager_run (world_after (run_turns [2; 1; 3; 0]%nat starved) starved)
    = Ok (tt, w2).
Proof.
  destruct (manager_run_after_workers [2; 1; 3; 0]%nat starved
              (world_after (run_turns [2; 1; 3; 0]%nat starved) starved))
    as [_ H].
  - split; [|split; [|constructor]];
      intros p Hp; cbn in Hp;
      repeat (apply elem_of_cons in Hp as [->|Hp]; [vm_compute; eauto|]);
      apply elem_of_nil in Hp; contradiction.
  - vm_compute. reflexivity.
  - exact H.
Defined.
